(** * CPU scheduling simulator: process record, scheduler base class and
      the four scheduling strategies, embedded from the C++ sources.

    Conventions of the embedding.
    - A C++ [int] is a [Z]; signed overflow is undefined behaviour in C++ and
      is not modelled.  [INT_MAX] is the 32-bit value.  [%] is [Z.rem]
      (truncating), and a zero divisor is a [Crash].
    - [std::shared_ptr<Process>] values are indices into the scheduler's
      [processes] vector ([option nat], [None] for [nullptr]): every
      [addProcess] call is given an object of its own, as in the drivers and
      tests; queues hold such indices, so a queue entry and the vector entry
      alias the same record.
    - [std::vector::push_back] appends at the right end of a list;
      [std::queue] is a list with [front] at its head.
    - [double] metrics are rationals ([Q]). *)

From Stdlib Require Import QArith.
From stdpp Require Import base numbers list gmap strings sorting.

Local Open Scope Z_scope.

(** ** Process.h / Process.cpp *)

Inductive ProcessState := NEW | READY | RUNNING | WAITING | TERMINATED.

#[global] Instance ProcessState_eq_dec : EqDecision ProcessState.
Proof. solve_decision. Defined.

Record Process := mkProcess {
  pid : Z;
  name : string;
  arrivalTime : Z;
  burstTime : Z;
  remainingTime : Z;
  priority : Z;
  state : ProcessState;
  startTime : Z;
  completionTime : Z;
  waitingTime : Z;
  turnaroundTime : Z;
  responseTime : Z;
  lastScheduledTime : Z;
  firstSchedule : bool
}.

(** [Process::Process] *)
Definition Process_new (pid : Z) (name : string) (arrivalTime burstTime priority : Z)
  : Process :=
  mkProcess pid name arrivalTime burstTime burstTime priority NEW
            (-1) (-1) 0 0 0 arrivalTime true.

Definition set_remainingTime (v : Z) (p : Process) : Process :=
  mkProcess (pid p) (name p) (arrivalTime p) (burstTime p) v (priority p)
            (state p) (startTime p) (completionTime p) (waitingTime p)
            (turnaroundTime p) (responseTime p) (lastScheduledTime p)
            (firstSchedule p).

Definition setState (newState : ProcessState) (p : Process) : Process :=
  mkProcess (pid p) (name p) (arrivalTime p) (burstTime p) (remainingTime p)
            (priority p) newState (startTime p) (completionTime p)
            (waitingTime p) (turnaroundTime p) (responseTime p)
            (lastScheduledTime p) (firstSchedule p).

Definition setPriority (newPriority : Z) (p : Process) : Process :=
  mkProcess (pid p) (name p) (arrivalTime p) (burstTime p) (remainingTime p)
            newPriority (state p) (startTime p) (completionTime p)
            (waitingTime p) (turnaroundTime p) (responseTime p)
            (lastScheduledTime p) (firstSchedule p).

Definition setStartTime (time : Z) (p : Process) : Process :=
  mkProcess (pid p) (name p) (arrivalTime p) (burstTime p) (remainingTime p)
            (priority p) (state p) time (completionTime p)
            (waitingTime p) (turnaroundTime p) (responseTime p)
            (lastScheduledTime p) (firstSchedule p).

Definition setCompletionTime (time : Z) (p : Process) : Process :=
  mkProcess (pid p) (name p) (arrivalTime p) (burstTime p) (remainingTime p)
            (priority p) (state p) (startTime p) time
            (waitingTime p) (turnaroundTime p) (responseTime p)
            (lastScheduledTime p) (firstSchedule p).

Definition setLastScheduledTime (time : Z) (p : Process) : Process :=
  mkProcess (pid p) (name p) (arrivalTime p) (burstTime p) (remainingTime p)
            (priority p) (state p) (startTime p) (completionTime p)
            (waitingTime p) (turnaroundTime p) (responseTime p)
            time (firstSchedule p).

Definition setFirstSchedule (value : bool) (p : Process) : Process :=
  mkProcess (pid p) (name p) (arrivalTime p) (burstTime p) (remainingTime p)
            (priority p) (state p) (startTime p) (completionTime p)
            (waitingTime p) (turnaroundTime p) (responseTime p)
            (lastScheduledTime p) value.

Definition addWaitingTime (time : Z) (p : Process) : Process :=
  mkProcess (pid p) (name p) (arrivalTime p) (burstTime p) (remainingTime p)
            (priority p) (state p) (startTime p) (completionTime p)
            (waitingTime p + time) (turnaroundTime p) (responseTime p)
            (lastScheduledTime p) (firstSchedule p).

(** [Process::execute]: returns the time executed and the updated record. *)
Definition execute (quantum : Z) (p : Process) : Z * Process :=
  let executionTime := Z.min quantum (remainingTime p) in
  (executionTime, set_remainingTime (remainingTime p - executionTime) p).

(** [Process::calculateMetrics] *)
Definition calculateMetrics (p : Process) : Process :=
  mkProcess (pid p) (name p) (arrivalTime p) (burstTime p) (remainingTime p)
            (priority p) (state p) (startTime p) (completionTime p)
            (waitingTime p)
            (completionTime p - arrivalTime p)
            (startTime p - arrivalTime p)
            (lastScheduledTime p) (firstSchedule p).

Definition isComplete (p : Process) : bool := remainingTime p =? 0.

(** [Process::reset] *)
Definition reset (p : Process) : Process :=
  mkProcess (pid p) (name p) (arrivalTime p) (burstTime p)
            (burstTime p) (priority p) NEW (-1) (-1) 0 0 0
            (arrivalTime p) true.

Definition state_is (st : ProcessState) (p : Process) : bool :=
  bool_decide (state p = st).

(** The mutating part of the public interface of [Process], as a type of
    operations, to speak about "every operation on the process". *)
Inductive ProcessOp :=
| OpExecute (quantum : Z)
| OpSetState (newState : ProcessState)
| OpSetPriority (newPriority : Z)
| OpSetStartTime (time : Z)
| OpSetCompletionTime (time : Z)
| OpSetLastScheduledTime (time : Z)
| OpSetFirstSchedule (value : bool)
| OpAddWaitingTime (time : Z)
| OpCalculateMetrics
| OpReset.

Definition applyOp (p : Process) (op : ProcessOp) : Process :=
  match op with
  | OpExecute q => snd (execute q p)
  | OpSetState st => setState st p
  | OpSetPriority v => setPriority v p
  | OpSetStartTime t => setStartTime t p
  | OpSetCompletionTime t => setCompletionTime t p
  | OpSetLastScheduledTime t => setLastScheduledTime t p
  | OpSetFirstSchedule b => setFirstSchedule b p
  | OpAddWaitingTime t => addWaitingTime t p
  | OpCalculateMetrics => calculateMetrics p
  | OpReset => reset p
  end.

(** The caller's contract of [execute]: no negative request. *)
Definition op_contract (op : ProcessOp) : Prop :=
  match op with
  | OpExecute q => 0 <= q
  | _ => True
  end.

Definition remaining_in_bounds (p : Process) : Prop :=
  0 <= remainingTime p <= burstTime p.

(** ** Scheduler.h / Scheduler.cpp: the base class *)

Definition INT_MAX : Z := 2147483647.

(** A [std::shared_ptr<Process>]: the index of the object in [processes],
    [None] for [nullptr]. *)
Definition ProcessPtr : Type := option nat.

Definition ptr_eqb (a b : ProcessPtr) : bool := bool_decide (a = b).

Record Scheduler := mkScheduler {
  processes : list Process;
  currentTime : Z;
  contextSwitchOverhead : Z;
  totalContextSwitches : Z;
  currentProcess : ProcessPtr
}.

(** [Scheduler::Scheduler] *)
Definition Scheduler_new (contextSwitchOverhead : Z) : Scheduler :=
  mkScheduler [] 0 contextSwitchOverhead 0 None.

Definition set_processes (ps : list Process) (s : Scheduler) : Scheduler :=
  mkScheduler ps (currentTime s) (contextSwitchOverhead s)
              (totalContextSwitches s) (currentProcess s).

Definition set_currentTime (t : Z) (s : Scheduler) : Scheduler :=
  mkScheduler (processes s) t (contextSwitchOverhead s)
              (totalContextSwitches s) (currentProcess s).

Definition set_contextSwitchOverhead (o : Z) (s : Scheduler) : Scheduler :=
  mkScheduler (processes s) (currentTime s) o
              (totalContextSwitches s) (currentProcess s).

Definition set_totalContextSwitches (n : Z) (s : Scheduler) : Scheduler :=
  mkScheduler (processes s) (currentTime s) (contextSwitchOverhead s)
              n (currentProcess s).

Definition set_currentProcess (c : ProcessPtr) (s : Scheduler) : Scheduler :=
  mkScheduler (processes s) (currentTime s) (contextSwitchOverhead s)
              (totalContextSwitches s) c.

(** [Scheduler::addProcess] *)
Definition addProcess (p : Process) (s : Scheduler) : Scheduler :=
  set_processes (processes s ++ [p]) s.

(** The test [from != to && from != nullptr && to != nullptr]. *)
Definition is_real_switch (from to : ProcessPtr) : bool :=
  negb (ptr_eqb from to) && negb (ptr_eqb from None) && negb (ptr_eqb to None).

Definition demote_if_running (p : Process) : Process :=
  if state_is RUNNING p then setState READY p else p.

Definition mark_running (now : Z) (p : Process) : Process :=
  let p1 := setState RUNNING p in
  if firstSchedule p1 then setFirstSchedule false (setStartTime now p1) else p1.

(** [update_at ptr f ps]: the effect of [ptr->...] calls on the store. *)
Definition update_at (ptr : ProcessPtr) (f : Process → Process)
    (ps : list Process) : list Process :=
  match ptr with
  | Some i => alter f i ps
  | None => ps
  end.

(** [Scheduler::contextSwitch] *)
Definition contextSwitch (from to : ProcessPtr) (s : Scheduler) : Scheduler :=
  let s1 :=
    if is_real_switch from to
    then set_currentTime (currentTime s + contextSwitchOverhead s)
           (set_totalContextSwitches (totalContextSwitches s + 1) s)
    else s in
  let ps2 := update_at from demote_if_running (processes s1) in
  let ps3 := update_at to (mark_running (currentTime s1)) ps2 in
  set_currentProcess to (set_processes ps3 s1).

(** [Scheduler::updateWaitingTimes] *)
Definition updateWaitingTimes (elapsedTime : Z) (s : Scheduler) : Scheduler :=
  set_processes
    ((λ p, if state_is READY p then addWaitingTime elapsedTime p else p)
       <$> processes s) s.

Definition arrives (now : Z) (p : Process) : bool :=
  state_is NEW p && (arrivalTime p <=? now).

(** [Scheduler::admitArrivingProcesses]: the number admitted and the new
    state. *)
Definition admitArrivingProcesses (s : Scheduler) : Z * Scheduler :=
  (Z.of_nat (length (List.filter (arrives (currentTime s)) (processes s))),
   set_processes
     ((λ p, if arrives (currentTime s) p then setState READY p else p)
        <$> processes s) s).

(** [Scheduler::reset] *)
Definition Scheduler_reset (s : Scheduler) : Scheduler :=
  mkScheduler (reset <$> processes s) 0 (contextSwitchOverhead s) 0 None.

Record SchedulingMetrics := mkMetrics {
  averageWaitingTime : Q;
  averageTurnaroundTime : Q;
  averageResponseTime : Q;
  cpuUtilization : Q;
  throughput : Q;
  metricsContextSwitches : Z;
  totalTime : Z
}.

Definition sum_over (f : Process → Z) (ps : list Process) : Z :=
  fold_left (λ acc p, acc + f p) ps 0.

(** [static_cast<double>(a) / b] for [b > 0]. *)
Definition ratio (a b : Z) : Q := Qmake a (Z.to_pos b).

(** [Scheduler::calculateMetrics] *)
Definition Scheduler_calculateMetrics (s : Scheduler) : SchedulingMetrics :=
  let done := List.filter (state_is TERMINATED) (processes s) in
  let completedProcesses := Z.of_nat (length done) in
  let maxCompletionTime :=
    fold_left (λ m p, Z.max m (completionTime p)) done 0 in
  let minArrivalTime :=
    fold_left (λ m p, Z.min m (arrivalTime p)) done INT_MAX in
  let totalBurstTime := sum_over burstTime done in
  let avg (total : Z) : Q :=
    if 0 <? completedProcesses then ratio total completedProcesses
    else Qmake 0 1 in
  let totalTime := maxCompletionTime - minArrivalTime in
  mkMetrics
    (avg (sum_over waitingTime done))
    (avg (sum_over turnaroundTime done))
    (avg (sum_over responseTime done))
    (if 0 <? totalTime
     then Qmult (ratio totalBurstTime totalTime) (Qmake 100 1)
     else Qmake 0 1)
    (if 0 <? totalTime then ratio completedProcesses totalTime else Qmake 0 1)
    (totalContextSwitches s)
    totalTime.

(** ** Helpers shared by the [schedule()] loops *)

(** Outcome of one pass through the body of [while (!allComplete)]:
    [Next] goes round again ([continue], or the end of the body with
    [allComplete == false]), [Exit] leaves the loop, [Crash] is undefined
    behaviour (division by zero, an index outside a vector). *)
Inductive LoopResult (S : Type) :=
| Next (s : S)
| Exit (s : S)
| Crash.
Arguments Next {S} s.
Arguments Exit {S} s.
Arguments Crash {S}.

(** The loop with a bound on the number of passes: [None] when the bound is
    reached, [Some (Crash)] is kept apart from a normal exit. *)
Fixpoint run_loop {S : Type} (body : S → LoopResult S) (fuel : nat) (s : S)
  : option (LoopResult S) :=
  match fuel with
  | O => None
  | Datatypes.S fuel' =>
      match body s with
      | Next s' => run_loop body fuel' s'
      | Exit s' => Some (Exit s')
      | Crash => Some Crash
      end
  end.

(** The state after [n] passes (or the final outcome if the loop ended
    earlier). *)
Fixpoint after_passes {S : Type} (body : S → LoopResult S) (n : nat) (s : S)
  : LoopResult S :=
  match n with
  | O => Next s
  | Datatypes.S n' =>
      match body s with
      | Next s' => after_passes body n' s'
      | r => r
      end
  end.

(** "Find the earliest arrival time" *)
Definition earliestArrival (ps : list Process) : Z :=
  fold_left (λ m p, Z.min m (arrivalTime p)) ps INT_MAX.

(** "Find next arrival": the least arrival time among the [NEW] processes. *)
Definition nextArrival (ps : list Process) : Z :=
  fold_left (λ m p, if state_is NEW p then Z.min m (arrivalTime p) else m)
            ps INT_MAX.

(** "Check if all processes are complete" *)
Definition allTerminated (ps : list Process) : bool :=
  forallb (state_is TERMINATED) ps.

(** The scan of a copy of the queue for a pointer. *)
Definition inQueue (i : nat) (q : list nat) : bool :=
  existsb (Nat.eqb i) q.

(** [for (int i = 0; i < n; i++) ganttChart.push_back(name)] *)
Definition push_slots (n : Z) (label : string) (chart : list string)
  : list string :=
  chart ++ replicate (Z.to_nat n) label.

(** "Update waiting times" for every process other than [running]. *)
Definition chargeWaiting (running : ProcessPtr) (amount : Z)
    (ps : list Process) : list Process :=
  imap (λ i p, if negb (ptr_eqb (Some i) running) && state_is READY p
               then addWaitingTime amount p else p) ps.

(** "process complete": completion time, metrics, [TERMINATED]. *)
Definition finish (now : Z) (p : Process) : Process :=
  setState TERMINATED (calculateMetrics (setCompletionTime now p)).

(** ** RoundRobinScheduler.h / RoundRobinScheduler.cpp *)

Module RoundRobin.

Record RoundRobinScheduler := mk {
  base : Scheduler;
  timeQuantum : Z;
  readyQueue : list nat;
  ganttChart : list string
}.

(** [RoundRobinScheduler::RoundRobinScheduler] *)
Definition new (quantum contextSwitchOverhead : Z) : RoundRobinScheduler :=
  mk (Scheduler_new contextSwitchOverhead) quantum [] [].

Definition add (p : Process) (s : RoundRobinScheduler) : RoundRobinScheduler :=
  mk (addProcess p (base s)) (timeQuantum s) (readyQueue s) (ganttChart s).

(** One turn of "add newly ready processes to the queue" for the process at
    index [i]; [skip] is the process excluded by [p != process] (none in the
    loop at the top of the body). *)
Definition enqueueOne (skip : ProcessPtr) (now : Z)
    (acc : list Process * list nat) (i : nat) : list Process * list nat :=
  match acc.1 !! i with
  | Some p =>
      if state_is READY p && negb (ptr_eqb (Some i) skip)
         && (lastScheduledTime p <? now)
      then if inQueue i acc.2 then acc
           else (alter (setLastScheduledTime now) i acc.1, acc.2 ++ [i])
      else acc
  | None => acc
  end.

Definition enqueueReady (skip : ProcessPtr) (now : Z)
    (ps : list Process) (q : list nat) : list Process * list nat :=
  fold_left (enqueueOne skip now) (seq 0 (length ps)) (ps, q).

(** What follows the [pop]: the slice given to the process at index [i],
    from base state [b] and the rest [q] of the queue. *)
Definition dispatch (s : RoundRobinScheduler) (b : Scheduler) (i : nat)
    (q : list nat) : LoopResult RoundRobinScheduler :=
  let b1 := contextSwitch (currentProcess b) (Some i) b in
  match processes b1 !! i with
  | None => Crash
  | Some p =>
      let '(executionTime, p1) := execute (timeQuantum s) p in
      let chart := push_slots executionTime (name p1) (ganttChart s) in
      let now := currentTime b1 + executionTime in
      let ps1 := chargeWaiting (Some i) executionTime
                   (<[i := p1]> (processes b1)) in
      let '(ps2, q2) :=
        if isComplete p1
        then (alter (finish now) i ps1, q)
        else
          let ps3 := alter (setState READY) i ps1 in
          let b3 := (admitArrivingProcesses
                       (set_currentTime now (set_processes ps3 b1))).2 in
          let '(ps4, q4) := enqueueReady (Some i) now (processes b3) q in
          (alter (setLastScheduledTime now) i ps4, q4 ++ [i]) in
      let b5 := set_currentProcess None
                  (set_currentTime now (set_processes ps2 b1)) in
      let s' := mk b5 (timeQuantum s) q2 chart in
      if allTerminated ps2 then Exit s' else Next s'
  end.

(** The body of [while (!allComplete)]. *)
Definition body (s : RoundRobinScheduler) : LoopResult RoundRobinScheduler :=
  let b1 := (admitArrivingProcesses (base s)).2 in
  let '(ps2, q2) :=
    enqueueReady None (currentTime b1) (processes b1) (readyQueue s) in
  let b2 := set_processes ps2 b1 in
  match q2 with
  | [] =>
      let next := nextArrival ps2 in
      if bool_decide (next ≠ INT_MAX)
      then
        let b3 := updateWaitingTimes (next - currentTime b2) b2 in
        Next (mk (set_currentTime next b3) (timeQuantum s) []
                 (ganttChart s ++ ["IDLE"]))
      else Exit (mk b2 (timeQuantum s) [] (ganttChart s))
  | i :: q3 => dispatch s b2 i q3
  end.

(** The statements of [schedule()] before the loop. *)
Definition start (s : RoundRobinScheduler) : RoundRobinScheduler :=
  mk (set_currentTime (earliestArrival (processes (base s))) (base s))
     (timeQuantum s) (readyQueue s) [].

(** [RoundRobinScheduler::schedule] *)
Definition schedule (fuel : nat) (s : RoundRobinScheduler)
  : option (LoopResult RoundRobinScheduler) :=
  run_loop body fuel (start s).

End RoundRobin.

(** ** PriorityScheduler.h / PriorityScheduler.cpp *)

Module Priority.

(** [readyQueue] lists the pointers held by the [std::priority_queue] in
    the order they were pushed; [runningProcess] is the local variable of
    [schedule()] that lives across passes of the loop. *)
Record PriorityScheduler := mk {
  base : Scheduler;
  preemptive : bool;
  agingEnabled : bool;
  agingInterval : Z;
  ganttChart : list string;
  readyQueue : list nat;
  runningProcess : ProcessPtr
}.

(** [PriorityScheduler::PriorityScheduler] *)
Definition new (preemptive enableAging : bool)
    (agingInterval contextSwitchOverhead : Z) : PriorityScheduler :=
  mk (Scheduler_new contextSwitchOverhead) preemptive enableAging
     agingInterval [] [] None.

Definition add (p : Process) (s : PriorityScheduler) : PriorityScheduler :=
  mk (addProcess p (base s)) (preemptive s) (agingEnabled s)
     (agingInterval s) (ganttChart s) (readyQueue s) (runningProcess s).

Definition with_base (b : Scheduler) (s : PriorityScheduler)
  : PriorityScheduler :=
  mk b (preemptive s) (agingEnabled s) (agingInterval s) (ganttChart s)
     (readyQueue s) (runningProcess s).

(** [PriorityComparator::operator()]: [a] is ordered below [b]. *)
Definition PriorityComparator (a b : Process) : bool :=
  if negb (priority a =? priority b) then priority b <? priority a
  else arrivalTime b <? arrivalTime a.

(** [readyQueue.top()] after the pushes [q]: [std::push_heap] moves a new
    entry to the root only if the comparator orders the root strictly below
    it, so the root is the first pushed among the best entries. *)
Definition top (ps : list Process) (q : list nat) : ProcessPtr :=
  fold_left
    (λ best i,
       match best with
       | None => Some i
       | Some r =>
           match ps !! r, ps !! i with
           | Some pr, Some pi =>
               if PriorityComparator pr pi then Some i else best
           | _, _ => best
           end
       end) q None.

(** [readyQueue.pop()]: the top entry leaves the queue. *)
Definition pop (ps : list Process) (q : list nat) : list nat :=
  match top ps q with
  | Some r => List.filter (λ i, negb (Nat.eqb i r)) q
  | None => q
  end.

(** The decision taken for one process inside [applyAging]. *)
Definition age (now interval : Z) (p : Process) : Process :=
  if state_is READY p
  then
    let waited := now - lastScheduledTime p in
    if (interval <=? waited) && (0 <? priority p)
    then setPriority (priority p - 1) p
    else p
  else p.

(** [PriorityScheduler::applyAging] *)
Definition applyAging (s : PriorityScheduler) : PriorityScheduler :=
  if negb (agingEnabled s) then s
  else with_base
         (set_processes
            (age (currentTime (base s)) (agingInterval s)
               <$> processes (base s)) (base s)) s.

(** "Build priority queue with all ready processes" *)
Definition readyPointers (ps : list Process) : list nat :=
  List.filter (λ i, match ps !! i with
                    | Some p => state_is READY p
                    | None => false
                    end) (seq 0 (length ps)).

(** The lines [if (currentTime % agingInterval == 0) applyAging();]. *)
Definition agingStep (s : PriorityScheduler) : LoopResult PriorityScheduler :=
  if agingInterval s =? 0 then Crash
  else if Z.rem (currentTime (base s)) (agingInterval s) =? 0
       then Next (applyAging s)
       else Next s.

(** The branch taken when the rebuilt queue is empty. *)
Definition emptyQueue (s : PriorityScheduler) : LoopResult PriorityScheduler :=
  let b := base s in
  let keepRunning :=
    match runningProcess s with
    | Some r =>
        match processes b !! r with
        | Some p => negb (isComplete p) && negb (preemptive s)
        | None => false
        end
    | None => false
    end in
  if keepRunning
  then
    match runningProcess s with
    | Some r =>
        match processes b !! r with
        | Some p =>
            let p1 := (execute 1 p).2 in
            let now := currentTime b + 1 in
            let '(p2, running) :=
              if isComplete p1 then (finish now p1, None)
              else (p1, Some r) in
            Next (mk (set_currentTime now
                        (set_processes (<[r := p2]> (processes b)) b))
                     (preemptive s) (agingEnabled s) (agingInterval s)
                     (ganttChart s ++ [name p1]) [] running)
        | None => Crash
        end
    | None => Crash
    end
  else
    let next := nextArrival (processes b) in
    if bool_decide (next ≠ INT_MAX)
    then Next (mk (set_currentTime next b) (preemptive s) (agingEnabled s)
                  (agingInterval s) (ganttChart s ++ ["IDLE"]) []
                  (runningProcess s))
    else Exit (mk b (preemptive s) (agingEnabled s) (agingInterval s)
                  (ganttChart s) [] (runningProcess s)).

(** The preemptive branch, [nextProcess] being the pointer [n]. *)
Definition runPreemptive (s : PriorityScheduler) (q : list nat) (n : nat)
  : LoopResult PriorityScheduler :=
  let b := base s in
  let '(b1, running) :=
    match runningProcess s with
    | Some r =>
        if negb (Nat.eqb r n)
        then
          match processes b !! r, processes b !! n with
          | Some pr, Some pn =>
              if priority pn <? priority pr
              then (contextSwitch (Some r) (Some n)
                      (set_processes (alter (setState READY) r (processes b)) b),
                    Some n)
              else (b, Some r)
          | _, _ => (b, Some r)
          end
        else (b, Some r)
    | None => (contextSwitch None (Some n) b, Some n)
    end in
  let q1 := pop (processes b1) q in
  match running with
  | None => Crash
  | Some r =>
      match processes b1 !! r with
      | None => Crash
      | Some p =>
          let p1 := (execute 1 p).2 in
          let ps1 := chargeWaiting (Some r) 1 (<[r := p1]> (processes b1)) in
          let now := currentTime b1 + 1 in
          let '(ps2, running') :=
            if isComplete p1 then (alter (finish now) r ps1, None)
            else (ps1, Some r) in
          let s' := mk (set_currentTime now (set_processes ps2 b1))
                       (preemptive s) (agingEnabled s) (agingInterval s)
                       (ganttChart s ++ [name p1]) q1 running' in
          if allTerminated ps2 then Exit s' else Next s'
      end
  end.

(** The non-preemptive branch. *)
Definition runToCompletion (s : PriorityScheduler) (q : list nat) (n : nat)
  : LoopResult PriorityScheduler :=
  let b := base s in
  let q1 := pop (processes b) q in
  let b1 := contextSwitch (runningProcess s) (Some n) b in
  match processes b1 !! n with
  | None => Crash
  | Some p =>
      let burst := remainingTime p in
      let p1 := (execute burst p).2 in
      let chart := push_slots burst (name p1) (ganttChart s) in
      let ps1 := chargeWaiting (Some n) burst (<[n := p1]> (processes b1)) in
      let now := currentTime b1 + burst in
      let ps2 := alter (finish now) n ps1 in
      let s' := mk (set_currentTime now (set_processes ps2 b1))
                   (preemptive s) (agingEnabled s) (agingInterval s)
                   chart q1 None in
      if allTerminated ps2 then Exit s' else Next s'
  end.

(** The body of [while (!allComplete)]. *)
Definition body (s : PriorityScheduler) : LoopResult PriorityScheduler :=
  let s1 := with_base (admitArrivingProcesses (base s)).2 s in
  match agingStep s1 with
  | Next s2 =>
      let q := readyPointers (processes (base s2)) in
      match top (processes (base s2)) q with
      | None => emptyQueue s2
      | Some n =>
          if preemptive s2 then runPreemptive s2 q n
          else runToCompletion s2 q n
      end
  | r => r
  end.

(** The statements of [schedule()] before the loop. *)
Definition start (s : PriorityScheduler) : PriorityScheduler :=
  mk (set_currentTime (earliestArrival (processes (base s))) (base s))
     (preemptive s) (agingEnabled s) (agingInterval s) []
     (readyQueue s) None.

(** [PriorityScheduler::schedule] *)
Definition schedule (fuel : nat) (s : PriorityScheduler)
  : option (LoopResult PriorityScheduler) :=
  run_loop body fuel (start s).

End Priority.

(** ** MultilevelQueueScheduler.h / MultilevelQueueScheduler.cpp *)

Module MultilevelQueue.

Inductive QueueSchedulingAlgorithm := FCFS | ROUND_ROBIN.

(** The fields [priority] and [timeQuantum] of the struct carry a [q] here,
    [priority] being the projection of [Process]. *)
Record QueueConfig := mkConfig {
  qpriority : Z;
  algorithm : QueueSchedulingAlgorithm;
  qtimeQuantum : Z
}.

(** [QueueConfig::QueueConfig()], the value [operator[]] would create. *)
Definition QueueConfig_default : QueueConfig := mkConfig 0 FCFS 0.

(** [queueConfigs] is a [std::map<int, QueueConfig>], walked in key order:
    an association list kept sorted by key.  [queues] is only read and
    written by key: a [gmap]; a key that is absent reads as the empty queue
    that [operator[]] would create. *)
Record MultilevelQueueScheduler := mk {
  base : Scheduler;
  queueConfigs : list (Z * QueueConfig);
  queues : gmap Z (list nat);
  ganttChart : list string
}.

(** [MultilevelQueueScheduler::MultilevelQueueScheduler] *)
Definition new (contextSwitchOverhead : Z) : MultilevelQueueScheduler :=
  mk (Scheduler_new contextSwitchOverhead) [] ∅ [].

Definition add (p : Process) (s : MultilevelQueueScheduler)
  : MultilevelQueueScheduler :=
  mk (addProcess p (base s)) (queueConfigs s) (queues s) (ganttChart s).

(** [m[k] = v] on the sorted association list. *)
Fixpoint assign {V : Type} (k : Z) (v : V) (m : list (Z * V)) : list (Z * V) :=
  match m with
  | [] => [(k, v)]
  | (k', v') :: m' =>
      if k <? k' then (k, v) :: m
      else if k =? k' then (k, v) :: m'
      else (k', v') :: assign k v m'
  end.

(** [MultilevelQueueScheduler::addQueueConfig] *)
Definition addQueueConfig (config : QueueConfig) (s : MultilevelQueueScheduler)
  : MultilevelQueueScheduler :=
  mk (base s) (assign (qpriority config) config (queueConfigs s))
     (<[qpriority config := []]> (queues s)) (ganttChart s).

Definition queue_at (k : Z) (qs : gmap Z (list nat)) : list nat :=
  default [] (qs !! k).

Definition config_at (k : Z) (cs : list (Z * QueueConfig)) : QueueConfig :=
  default QueueConfig_default (snd <$> List.find (λ kv, kv.1 =? k) cs).

(** [MultilevelQueueScheduler::getHighestPriorityQueue], [-1] for none. *)
Definition getHighestPriorityQueue (cs : list (Z * QueueConfig))
    (qs : gmap Z (list nat)) : Z :=
  match List.find (λ kv, negb (bool_decide (queue_at kv.1 qs = []))) cs with
  | Some kv => kv.1
  | None => -1
  end.

(** "Find which queue this process belongs to", with the fall-back to the
    last queue; [-1] is the code's marker for "none". *)
Definition targetQueue (cs : list (Z * QueueConfig)) (p : Process) : Z :=
  let found :=
    match List.find (λ kv, priority p <=? kv.1) cs with
    | Some kv => kv.1
    | None => -1
    end in
  if (found =? -1) && negb (bool_decide (cs = []))
  then match last cs with Some kv => kv.1 | None => found end
  else found.

Definition enqueueOne (cs : list (Z * QueueConfig)) (skip : ProcessPtr)
    (now : Z) (acc : list Process * gmap Z (list nat)) (i : nat)
  : list Process * gmap Z (list nat) :=
  match acc.1 !! i with
  | Some p =>
      if state_is READY p && negb (ptr_eqb (Some i) skip)
         && (lastScheduledTime p <? now)
      then
        let t := targetQueue cs p in
        if negb (t =? -1)
        then if inQueue i (queue_at t acc.2) then acc
             else (alter (setLastScheduledTime now) i acc.1,
                   <[t := queue_at t acc.2 ++ [i]]> acc.2)
        else acc
      else acc
  | None => acc
  end.

Definition enqueueReady (cs : list (Z * QueueConfig)) (skip : ProcessPtr)
    (now : Z) (ps : list Process) (qs : gmap Z (list nat))
  : list Process * gmap Z (list nat) :=
  fold_left (enqueueOne cs skip now) (seq 0 (length ps)) (ps, qs).

(** [MultilevelQueueScheduler::scheduleFromQueue] on the process at index
    [i]: the new store, clock and chart. *)
Definition scheduleFromQueue (config : QueueConfig) (i : nat) (p : Process)
    (ps : list Process) (now : Z) (chart : list string)
  : list Process * Z * list string :=
  let request :=
    match algorithm config with
    | FCFS => remainingTime p
    | ROUND_ROBIN => qtimeQuantum config
    end in
  let '(executionTime, p1) := execute request p in
  let slots :=
    match algorithm config with
    | FCFS => remainingTime p
    | ROUND_ROBIN => executionTime
    end in
  (chargeWaiting (Some i) slots (<[i := p1]> ps), now + slots,
   push_slots slots (name p1) chart).

(** What follows the [pop] from queue [k]. *)
Definition dispatch (s : MultilevelQueueScheduler) (b : Scheduler)
    (qs : gmap Z (list nat)) (k : Z) (i : nat)
  : LoopResult MultilevelQueueScheduler :=
  let b1 := contextSwitch (currentProcess b) (Some i) b in
  match processes b1 !! i with
  | None => Crash
  | Some p =>
      let config := config_at k (queueConfigs s) in
      let '(ps1, now, chart) :=
        scheduleFromQueue config i p (processes b1) (currentTime b1)
                          (ganttChart s) in
      let complete :=
        match ps1 !! i with Some p1 => isComplete p1 | None => false end in
      let '(ps2, qs2) :=
        if complete then (alter (finish now) i ps1, qs)
        else
          match algorithm config with
          | ROUND_ROBIN =>
              let ps3 := alter (setState READY) i ps1 in
              let b3 := (admitArrivingProcesses
                           (set_currentTime now (set_processes ps3 b1))).2 in
              let '(ps4, qs4) :=
                enqueueReady (queueConfigs s) (Some i) now (processes b3) qs in
              (alter (setLastScheduledTime now) i ps4,
               <[k := queue_at k qs4 ++ [i]]> qs4)
          | FCFS => (ps1, qs)
          end in
      let b5 := set_currentProcess None
                  (set_currentTime now (set_processes ps2 b1)) in
      let s' := mk b5 (queueConfigs s) qs2 chart in
      if allTerminated ps2 then Exit s' else Next s'
  end.

(** The body of [while (!allComplete)]. *)
Definition body (s : MultilevelQueueScheduler)
  : LoopResult MultilevelQueueScheduler :=
  let b1 := (admitArrivingProcesses (base s)).2 in
  let '(ps2, qs2) :=
    enqueueReady (queueConfigs s) None (currentTime b1) (processes b1)
                 (queues s) in
  let b2 := set_processes ps2 b1 in
  let k := getHighestPriorityQueue (queueConfigs s) qs2 in
  if k =? -1
  then
    let next := nextArrival ps2 in
    if bool_decide (next ≠ INT_MAX)
    then Next (mk (set_currentTime next b2) (queueConfigs s) qs2
                  (ganttChart s ++ ["IDLE"]))
    else Exit (mk b2 (queueConfigs s) qs2 (ganttChart s))
  else
    match queue_at k qs2 with
    | [] => Crash
    | i :: rest => dispatch s b2 (<[k := rest]> qs2) k i
    end.

Definition start (s : MultilevelQueueScheduler) : MultilevelQueueScheduler :=
  mk (set_currentTime (earliestArrival (processes (base s))) (base s))
     (queueConfigs s) (queues s) [].

(** [MultilevelQueueScheduler::schedule] *)
Definition schedule (fuel : nat) (s : MultilevelQueueScheduler)
  : option (LoopResult MultilevelQueueScheduler) :=
  run_loop body fuel (start s).

End MultilevelQueue.

(** ** MultilevelFeedbackQueueScheduler.h / .cpp *)

Module Feedback.

(** [processQueueLevel] and [timeInQueue] are [std::map<int, int>] keyed by
    pid; [operator[]] on an absent key reads 0. *)
Record MultilevelFeedbackQueueScheduler := mk {
  base : Scheduler;
  numQueues : Z;
  timeQuantums : list Z;
  queues : list (list nat);
  processQueueLevel : gmap Z Z;
  ganttChart : list string;
  agingEnabled : bool;
  agingThreshold : Z;
  timeInQueue : gmap Z Z
}.

(** [MultilevelFeedbackQueueScheduler::MultilevelFeedbackQueueScheduler];
    [resize] with a negative count throws, which is [None]. *)
Definition new (numQueues : Z) (enableAging : bool)
    (agingThreshold contextSwitchOverhead : Z)
  : option MultilevelFeedbackQueueScheduler :=
  if numQueues <? 0 then None
  else Some (mk (Scheduler_new contextSwitchOverhead) numQueues
                ((λ i, 2 * (Z.of_nat i + 1)) <$> seq 0 (Z.to_nat numQueues))
                (replicate (Z.to_nat numQueues) [])
                ∅ [] enableAging agingThreshold ∅).

Definition add (p : Process) (s : MultilevelFeedbackQueueScheduler)
  : MultilevelFeedbackQueueScheduler :=
  mk (addProcess p (base s)) (numQueues s) (timeQuantums s) (queues s)
     (processQueueLevel s) (ganttChart s) (agingEnabled s) (agingThreshold s)
     (timeInQueue s).

(** [MultilevelFeedbackQueueScheduler::setTimeQuantum] *)
Definition setTimeQuantum (queueIndex quantum : Z)
    (s : MultilevelFeedbackQueueScheduler) : MultilevelFeedbackQueueScheduler :=
  if (0 <=? queueIndex) && (queueIndex <? numQueues s)
  then mk (base s) (numQueues s)
          (<[Z.to_nat queueIndex := quantum]> (timeQuantums s)) (queues s)
          (processQueueLevel s) (ganttChart s) (agingEnabled s)
          (agingThreshold s) (timeInQueue s)
  else s.

Definition read (m : gmap Z Z) (k : Z) : Z := default 0 (m !! k).

(** A vector subscript with an [int]: [None] outside the vector. *)
Definition subscript {A : Type} (v : list A) (i : Z) : option A :=
  if i <? 0 then None else v !! Z.to_nat i.

(** [getHighestPriorityQueue]: the first non-empty level, [None] for -1. *)
Definition getHighestPriorityQueue (numQueues : Z) (qs : list (list nat))
  : option nat :=
  List.find (λ i, match qs !! i with
                  | Some (_ :: _) => true
                  | _ => false
                  end) (seq 0 (Z.to_nat numQueues)).

(** [demoteProcess], on the two maps. *)
Definition demoteProcess (numQueues : Z) (pid : Z)
    (levels counters : gmap Z Z) : gmap Z Z * gmap Z Z :=
  let currentLevel := read levels pid in
  if currentLevel <? numQueues - 1
  then (<[pid := currentLevel + 1]> levels, <[pid := 0]> counters)
  else (levels, counters).

(** [promoteProcess] *)
Definition promoteProcess (pid : Z) (levels counters : gmap Z Z)
  : gmap Z Z * gmap Z Z :=
  let currentLevel := read levels pid in
  if 0 <? currentLevel
  then (<[pid := currentLevel - 1]> levels, <[pid := 0]> counters)
  else (levels, counters).

(** [applyAging], on the two maps. *)
Definition applyAging (enabled : bool) (threshold : Z) (ps : list Process)
    (levels counters : gmap Z Z) : gmap Z Z * gmap Z Z :=
  if negb enabled then (levels, counters)
  else
    fold_left
      (λ acc p,
         if state_is READY p
         then
           let counters1 := <[pid p := read acc.2 (pid p) + 1]> acc.2 in
           if threshold <=? read counters1 (pid p)
           then promoteProcess (pid p) acc.1 counters1
           else (acc.1, counters1)
         else acc)
      ps (levels, counters).

Definition enqueueOne (levels : gmap Z Z) (skip : ProcessPtr) (now : Z)
    (acc : option (list Process * list (list nat))) (i : nat)
  : option (list Process * list (list nat)) :=
  match acc with
  | None => None
  | Some (ps, qs) =>
      match ps !! i with
      | Some p =>
          if state_is READY p && negb (ptr_eqb (Some i) skip)
             && (lastScheduledTime p <? now)
          then
            let queueLevel := read levels (pid p) in
            match subscript qs queueLevel with
            | None => None
            | Some q =>
                if inQueue i q then acc
                else Some (alter (setLastScheduledTime now) i ps,
                           <[Z.to_nat queueLevel := q ++ [i]]> qs)
            end
          else acc
      | None => acc
      end
  end.

(** The queueing loop; [None] when a level falls outside [queues]. *)
Definition enqueueReady (levels : gmap Z Z) (skip : ProcessPtr) (now : Z)
    (ps : list Process) (qs : list (list nat))
  : option (list Process * list (list nat)) :=
  fold_left (enqueueOne levels skip now) (seq 0 (length ps)) (Some (ps, qs)).

Definition with_run (b : Scheduler) (qs : list (list nat))
    (levels counters : gmap Z Z) (chart : list string)
    (s : MultilevelFeedbackQueueScheduler) : MultilevelFeedbackQueueScheduler :=
  mk b (numQueues s) (timeQuantums s) qs levels chart (agingEnabled s)
     (agingThreshold s) counters.

(** The re-queueing of a process that did not finish: demotion if the whole
    quantum was used, arrivals, the other ready processes, then the process
    itself at its (possibly new) level. *)
Definition requeue (s : MultilevelFeedbackQueueScheduler) (b : Scheduler)
    (qs : list (list nat)) (i : nat) (p1 : Process)
    (executionTime quantum now : Z) (ps1 : list Process)
  : option (list Process * list (list nat) * gmap Z Z * gmap Z Z) :=
  let ps3 := alter (setState READY) i ps1 in
  let '(levels, counters) :=
    if executionTime =? quantum
    then demoteProcess (numQueues s) (pid p1) (processQueueLevel s)
                       (timeInQueue s)
    else (processQueueLevel s, timeInQueue s) in
  let b3 := (admitArrivingProcesses
               (set_currentTime now (set_processes ps3 b))).2 in
  match enqueueReady levels (Some i) now (processes b3) qs with
  | None => None
  | Some (ps4, qs4) =>
      let newLevel := read levels (pid p1) in
      match subscript qs4 newLevel with
      | None => None
      | Some q =>
          Some (alter (setLastScheduledTime now) i ps4,
                <[Z.to_nat newLevel := q ++ [i]]> qs4, levels, counters)
      end
  end.

(** What follows the [pop] from level [k]: the slice given to the process at
    index [i]. *)
Definition dispatch (s : MultilevelFeedbackQueueScheduler) (b : Scheduler)
    (qs : list (list nat)) (k : nat) (i : nat)
  : LoopResult MultilevelFeedbackQueueScheduler :=
  let b1 := contextSwitch (currentProcess b) (Some i) b in
  match processes b1 !! i, timeQuantums s !! k with
  | Some p, Some quantum =>
      let '(executionTime, p1) := execute quantum p in
      let chart := push_slots executionTime (name p1) (ganttChart s) in
      let ps1 := chargeWaiting (Some i) executionTime
                   (<[i := p1]> (processes b1)) in
      let now := currentTime b1 + executionTime in
      let outcome :=
        if isComplete p1
        then Some (alter (finish now) i ps1, qs, processQueueLevel s,
                   timeInQueue s)
        else requeue s b1 qs i p1 executionTime quantum now ps1 in
      match outcome with
      | None => Crash
      | Some (ps2, qs2, levels, counters) =>
          let b5 := set_currentProcess None
                      (set_currentTime now (set_processes ps2 b1)) in
          let s' := with_run b5 qs2 levels counters chart s in
          if allTerminated ps2 then Exit s' else Next s'
      end
  | _, _ => Crash
  end.

(** The body of [while (!allComplete)]. *)
Definition body (s : MultilevelFeedbackQueueScheduler)
  : LoopResult MultilevelFeedbackQueueScheduler :=
  let b1 := (admitArrivingProcesses (base s)).2 in
  if agingThreshold s =? 0 then Crash
  else
    let '(levels, counters) :=
      if Z.rem (currentTime b1) (agingThreshold s) =? 0
      then applyAging (agingEnabled s) (agingThreshold s) (processes b1)
                      (processQueueLevel s) (timeInQueue s)
      else (processQueueLevel s, timeInQueue s) in
    match enqueueReady levels None (currentTime b1) (processes b1) (queues s)
    with
    | None => Crash
    | Some (ps2, qs2) =>
        let b2 := set_processes ps2 b1 in
        match getHighestPriorityQueue (numQueues s) qs2 with
        | None =>
            let next := nextArrival ps2 in
            if bool_decide (next ≠ INT_MAX)
            then Next (with_run (set_currentTime next b2) qs2 levels counters
                                (ganttChart s ++ ["IDLE"]) s)
            else Exit (with_run b2 qs2 levels counters (ganttChart s) s)
        | Some k =>
            match qs2 !! k with
            | Some (i :: rest) =>
                dispatch (with_run b2 qs2 levels counters (ganttChart s) s)
                         b2 (<[k := rest]> qs2) k i
            | _ => Crash
            end
        end
    end.

(** The statements of [schedule()] before the loop. *)
Definition start (s : MultilevelFeedbackQueueScheduler)
  : MultilevelFeedbackQueueScheduler :=
  let zeros : gmap Z Z :=
    fold_left (λ m p, <[pid p := 0]> m) (processes (base s)) ∅ in
  with_run (set_currentTime (earliestArrival (processes (base s))) (base s))
           (queues s) zeros zeros [] s.

(** [MultilevelFeedbackQueueScheduler::schedule] *)
Definition schedule (fuel : nat) (s : MultilevelFeedbackQueueScheduler)
  : option (LoopResult MultilevelFeedbackQueueScheduler) :=
  run_loop body fuel (start s).

End Feedback.

(** ** Workloads of the test suite and of the documented scenarios *)

Module Workloads.

(** Round Robin, quantum 2, no overhead, [P1(0,4)] and [P2(0,4)]
    (also [test_context_switch_overhead], first scheduler). *)
Definition rr_two_equal : RoundRobin.RoundRobinScheduler :=
  RoundRobin.add (Process_new 2 "P2" 0 4 0)
    (RoundRobin.add (Process_new 1 "P1" 0 4 0) (RoundRobin.new 2 0)).

(** [test_round_robin_basic] *)
Definition rr_basic : RoundRobin.RoundRobinScheduler :=
  RoundRobin.add (Process_new 3 "P3" 0 2 0)
    (RoundRobin.add (Process_new 2 "P2" 0 4 0)
       (RoundRobin.add (Process_new 1 "P1" 0 8 0) (RoundRobin.new 4 0))).

(** [test_priority_non_preemptive] *)
Definition priority_three : Priority.PriorityScheduler :=
  Priority.add (Process_new 3 "P3" 2 2 2)
    (Priority.add (Process_new 2 "P2" 1 3 1)
       (Priority.add (Process_new 1 "P1" 0 5 3)
          (Priority.new false false 5 0))).

(** [test_priority_preemptive] *)
Definition priority_preemptive : Priority.PriorityScheduler :=
  Priority.add (Process_new 3 "P3" 5 2 2)
    (Priority.add (Process_new 2 "P2" 1 4 1)
       (Priority.add (Process_new 1 "P1" 0 8 3)
          (Priority.new true false 5 0))).

(** [test_priority_aging] *)
Definition priority_aging : Priority.PriorityScheduler :=
  Priority.add (Process_new 3 "P3" 2 2 1)
    (Priority.add (Process_new 2 "P2" 1 2 1)
       (Priority.add (Process_new 1 "P1" 0 10 5)
          (Priority.new false true 3 0))).

(** [test_multilevel_queue] *)
Definition mlq_three : MultilevelQueue.MultilevelQueueScheduler :=
  MultilevelQueue.add (Process_new 3 "P3" 0 2 2)
    (MultilevelQueue.add (Process_new 2 "P2" 0 4 1)
       (MultilevelQueue.add (Process_new 1 "P1" 0 6 0)
          (MultilevelQueue.addQueueConfig
             (MultilevelQueue.mkConfig 2 MultilevelQueue.FCFS 0)
             (MultilevelQueue.addQueueConfig
                (MultilevelQueue.mkConfig 1 MultilevelQueue.ROUND_ROBIN 4)
                (MultilevelQueue.addQueueConfig
                   (MultilevelQueue.mkConfig 0 MultilevelQueue.ROUND_ROBIN 2)
                   (MultilevelQueue.new 0)))))).


(** A feedback queue with a single level, aging on with threshold 1, on
    [P1(0,5)] and [P2(1,1)]. *)
Definition mlfq_single_level
  : option Feedback.MultilevelFeedbackQueueScheduler :=
  Feedback.add (Process_new 2 "P2" 1 1 0)
    <$> (Feedback.add (Process_new 1 "P1" 0 5 0)
           <$> Feedback.new 1 true 1 0).

End Workloads.

(** [test_round_robin_arrivals] *)
Definition rr_arrivals : RoundRobin.RoundRobinScheduler :=
  RoundRobin.add (Process_new 3 "P3" 4 2 0)
    (RoundRobin.add (Process_new 2 "P2" 2 4 0)
       (RoundRobin.add (Process_new 1 "P1" 0 6 0) (RoundRobin.new 3 0))).

(** The state of the [test_priority_aging] run when the aging check of the
    first pass is reached (clock 0, [P1] just admitted). *)
Definition aging_check_at_start : Priority.PriorityScheduler :=
  let s := Priority.start Workloads.priority_aging in
  Priority.with_base (admitArrivingProcesses (Priority.base s)).2 s.

(** A state at clock 12 with aging interval 3 in which [P3], which arrived
    at 2, is [READY] with priority 1. *)
Definition aging_check_at_twelve : Priority.PriorityScheduler :=
  Priority.mk
    (mkScheduler [setState READY (Process_new 3 "P3" 2 2 1)] 12 0 0 None)
    false true 3 [] [] None.

(** A feedback queue of three levels with the default quanta, holding one
    [READY] process at level 0. *)
Definition feedback_three_levels : Feedback.MultilevelFeedbackQueueScheduler :=
  Feedback.mk
    (mkScheduler [setState READY (Process_new 1 "P1" 0 10 0)] 1 0 0 None)
    3 [2; 4; 6] [[]; []; []] ∅ [] false 10 ∅.

(** The state in which the second pass of the run of
    [Workloads.mlfq_single_level] dispatches [P1]: clock 1, both processes
    [READY], [P1] at the head of the only queue, its counter at 2 after the
    aging steps of the first two passes. *)
Definition single_level_at_dispatch
  : Feedback.MultilevelFeedbackQueueScheduler :=
  Feedback.mk
    (mkScheduler
       [setLastScheduledTime 1 (setState READY (Process_new 1 "P1" 0 5 0));
        setState READY (Process_new 2 "P2" 1 1 0)] 1 0 0 None)
    1 [2] [[0%nat]] (<[2 := 0]> (<[1 := 0]> ∅)) ["IDLE"] true 1
    (<[2 := 1]> (<[1 := 2]> ∅)).

(** ** Vocabulary of the statements *)

(** The states of the processes, in the order of the vector. *)
Definition states_of (s : Scheduler) : list ProcessState :=
  state <$> processes s.

(** A property holds of the state that a pass, or a number of passes, leaves
    behind. *)
Definition result_holds {S : Type} (P : S → Prop) (r : LoopResult S) : Prop :=
  match r with
  | Next s | Exit s => P s
  | Crash => True
  end.

Definition result_map {S : Type} (f : S → S) (r : LoopResult S)
  : LoopResult S :=
  match r with
  | Next s => Next (f s)
  | Exit s => Exit (f s)
  | Crash => Crash
  end.

Definition priority_nonneg (p : Process) : Prop := 0 <= priority p.

Definition priorities_nonneg (s : Priority.PriorityScheduler) : Prop :=
  Forall priority_nonneg (processes (Priority.base s)).



(** No switch has been counted and no process is recorded as current: the
    state of a scheduler between runs. *)
Definition idle_base (b : Scheduler) : Prop :=
  totalContextSwitches b = 0 ∧ currentProcess b = None.

(** What a run reports about context switches: the counter and the field
    of the metrics are both 0, and no process is recorded as current. *)
Definition reports_no_switch (b : Scheduler) : Prop :=
  idle_base b
  ∧ metricsContextSwitches (Scheduler_calculateMetrics b) = 0.

(** The same scheduler with another context-switch overhead. *)
Definition rr_with_overhead (o : Z) (s : RoundRobin.RoundRobinScheduler)
  : RoundRobin.RoundRobinScheduler :=
  RoundRobin.mk (set_contextSwitchOverhead o (RoundRobin.base s))
                (RoundRobin.timeQuantum s) (RoundRobin.readyQueue s)
                (RoundRobin.ganttChart s).

Definition mlq_with_overhead (o : Z)
    (s : MultilevelQueue.MultilevelQueueScheduler)
  : MultilevelQueue.MultilevelQueueScheduler :=
  MultilevelQueue.mk (set_contextSwitchOverhead o (MultilevelQueue.base s))
                     (MultilevelQueue.queueConfigs s)
                     (MultilevelQueue.queues s)
                     (MultilevelQueue.ganttChart s).

Definition mlfq_with_overhead (o : Z)
    (s : Feedback.MultilevelFeedbackQueueScheduler)
  : Feedback.MultilevelFeedbackQueueScheduler :=
  Feedback.mk (set_contextSwitchOverhead o (Feedback.base s))
              (Feedback.numQueues s) (Feedback.timeQuantums s)
              (Feedback.queues s) (Feedback.processQueueLevel s)
              (Feedback.ganttChart s) (Feedback.agingEnabled s)
              (Feedback.agingThreshold s) (Feedback.timeInQueue s).

(** The operations on the store stay folded under [simpl]; proofs unfold
    them where they need to. *)
Arguments set_remainingTime : simpl never.
Arguments setState : simpl never.
Arguments setPriority : simpl never.
Arguments setStartTime : simpl never.
Arguments setCompletionTime : simpl never.
Arguments setLastScheduledTime : simpl never.
Arguments setFirstSchedule : simpl never.
Arguments addWaitingTime : simpl never.
Arguments calculateMetrics : simpl never.
Arguments reset : simpl never.
Arguments execute : simpl never.
Arguments finish : simpl never.
Arguments mark_running : simpl never.
Arguments demote_if_running : simpl never.
Arguments update_at : simpl never.
Arguments contextSwitch : simpl never.
Arguments admitArrivingProcesses : simpl never.
Arguments updateWaitingTimes : simpl never.
Arguments chargeWaiting : simpl never.

(** ** Vocabulary of the further properties *)


(** [a] comes before [b] in the order of the ready collection: a lower
    priority value, or the same value and an earlier arrival. *)
Definition precedes (a b : Process) : Prop :=
  priority a < priority b
  ∨ (priority a = priority b ∧ arrivalTime a < arrivalTime b).

(** The keys of a [std::map<int, QueueConfig>], in the order of the walk. *)
Definition config_keys (cs : list (Z * MultilevelQueue.QueueConfig)) : list Z :=
  fst <$> cs.

(** The keys come in strictly ascending order, as in a [std::map]. *)
Definition keys_ascending (cs : list (Z * MultilevelQueue.QueueConfig)) : Prop :=
  StronglySorted Z.lt (config_keys cs).

(** What identifies a process and its workload, and the same with the
    priority. *)
Definition identity_of (p : Process) : Z * string * Z * Z :=
  (pid p, name p, arrivalTime p, burstTime p).

Definition workload_of (p : Process) : Z * string * Z * Z * Z :=
  (pid p, name p, arrivalTime p, burstTime p, priority p).

(** A view of the process record that none of the operations applied during
    a run, other than [setPriority], changes. *)
Definition stable_view {A : Type} (f : Process → A) : Prop :=
  (∀ v p, f (set_remainingTime v p) = f p)
  ∧ (∀ v p, f (setState v p) = f p)
  ∧ (∀ v p, f (setStartTime v p) = f p)
  ∧ (∀ v p, f (setCompletionTime v p) = f p)
  ∧ (∀ v p, f (setLastScheduledTime v p) = f p)
  ∧ (∀ v p, f (setFirstSchedule v p) = f p)
  ∧ (∀ v p, f (addWaitingTime v p) = f p)
  ∧ (∀ p, f (calculateMetrics p) = f p).

(** ** Time accounting *)

(** A process as [Process::Process] and [Process::reset] leave it, with a
    burst time that is not negative. *)
Definition fresh (p : Process) : Prop :=
  state p = NEW ∧ remainingTime p = burstTime p ∧ waitingTime p = 0
  ∧ firstSchedule p = true ∧ 0 <= burstTime p.



Definition admitted (ps : list Process) (i : nat) : Prop :=
  ∃ p, ps !! i = Some p ∧ state p ≠ NEW.

(** The process holds the CPU. *)
Definition running (p : Process) : Prop :=
  state p = RUNNING ∧ firstSchedule p = false.

(** The outcome of a pass, or of a run, is defined and satisfies [P]. *)
Definition result_safe {S : Type} (P : S → Prop) (r : LoopResult S) : Prop :=
  match r with
  | Next s | Exit s => P s
  | Crash => False
  end.


(** The same for the priority scheduler: the aging interval can be divided
    by, and the process kept across passes, if any, is one that preemptive
    mode left running. *)
Definition holds_cpu (ps : list Process) (r : nat) : Prop :=
  ∃ p, ps !! r = Some p ∧ running p.





(** ** Termination of the non-preemptive priority scheduler *)







(** ** The ready queue of the Round Robin scheduler *)

Definition ready_at (ps : list Process) (i : nat) : Prop :=
  ∃ p, ps !! i = Some p ∧ state p = READY.

(** No process is queued twice, and what is queued is [READY]. *)
Definition rr_queue_ok (s : RoundRobin.RoundRobinScheduler) : Prop :=
  NoDup (RoundRobin.readyQueue s)
  ∧ Forall (ready_at (processes (RoundRobin.base s)))
           (RoundRobin.readyQueue s).

(** ** The Gantt chart of the Round Robin scheduler *)

(** The number of slots of the chart that carry [label]. *)
Definition slots_of (label : string) (chart : list string) : nat :=
  length (List.filter (String.eqb label) chart).

(** The chart shows the time the process has executed. *)
Definition charted (chart : list string) (p : Process) : Prop :=
  0 <= remainingTime p <= burstTime p
  ∧ slots_of (name p) chart = Z.to_nat (burstTime p - remainingTime p).

Definition rr_charted (names : list string)
    (s : RoundRobin.RoundRobinScheduler) : Prop :=
  0 <= RoundRobin.timeQuantum s
  ∧ name <$> processes (RoundRobin.base s) = names
  ∧ Forall (charted (RoundRobin.ganttChart s))
           (processes (RoundRobin.base s)).

(** * Properties *)

(** ** The process record *)

Ltac unfold_setters :=
  unfold set_remainingTime, setState, setPriority, setStartTime,
    setCompletionTime, setLastScheduledTime, setFirstSchedule,
    addWaitingTime, calculateMetrics, reset, finish in *;
  simpl in *.

Lemma execute_fst (units : Z) (p : Process) :
  (execute units p).1 = Z.min units (remainingTime p).
Proof. reflexivity. Qed.

Lemma execute_remaining (units : Z) (p : Process) :
  remainingTime (execute units p).2 = remainingTime p - (execute units p).1.
Proof. reflexivity. Qed.

Lemma applyOp_keeps_bounds (p : Process) (op : ProcessOp) :
  remaining_in_bounds p → op_contract op → remaining_in_bounds (applyOp p op).
Proof.
  unfold remaining_in_bounds.
  destruct op; simpl; intros Hp Hop; try exact Hp; lia.
Qed.

(** C8. [execute(units)] with [units >= 0] returns
    [min(units, remainingTime)] and lowers [remainingTime] by exactly that
    amount; and [0 <= remainingTime <= burstTime] holds after construction
    (of a process with a non-negative burst) and after every operation and
    every sequence of operations in which [execute] is only given
    non-negative arguments. *)
Theorem execute_consumes_min_and_keeps_bounds :
  (∀ (p : Process) (units : Z), 0 <= units →
     (execute units p).1 = Z.min units (remainingTime p)
     ∧ remainingTime (execute units p).2
       = remainingTime p - (execute units p).1)
  ∧ (∀ (pid : Z) (name : string) (arrival burst prio : Z), 0 <= burst →
       remaining_in_bounds (Process_new pid name arrival burst prio))
  ∧ (∀ (p : Process) (op : ProcessOp),
       remaining_in_bounds p → op_contract op →
       remaining_in_bounds (applyOp p op))
  ∧ (∀ (ops : list ProcessOp) (p : Process),
       remaining_in_bounds p → Forall op_contract ops →
       remaining_in_bounds (fold_left applyOp ops p)).
Proof.
  split; [|split; [|split]].
  - intros p units _. split; [apply execute_fst | apply execute_remaining].
  - intros ? ? ? burst ? Hb. unfold remaining_in_bounds. simpl. lia.
  - apply applyOp_keeps_bounds.
  - induction ops as [|op ops IH]; intros p Hp Hops; simpl; [exact Hp|].
    inversion Hops; subst. apply IH; [|assumption].
    by apply applyOp_keeps_bounds.
Qed.

Lemma execute_consumes_min_and_keeps_bounds_witness :
  let p := Process_new 1 "P1" 0 5 2 in
  ((execute 10 p).1 = 5 ∧ remainingTime (execute 10 p).2 = 0)
  ∧ remaining_in_bounds p
  ∧ remaining_in_bounds (applyOp p (OpExecute 3))
  ∧ remaining_in_bounds
      (fold_left applyOp [OpExecute 3; OpSetState READY; OpReset; OpExecute 9] p).
Proof.
  destruct execute_consumes_min_and_keeps_bounds as (H1 & H2 & H3 & H4).
  assert (Hp : remaining_in_bounds (Process_new 1 "P1" 0 5 2))
    by (apply H2; lia).
  simpl. split; [|split; [|split]].
  - apply (H1 (Process_new 1 "P1" 0 5 2) 10). lia.
  - exact Hp.
  - apply (H3 _ (OpExecute 3) Hp). simpl. lia.
  - apply (H4 [OpExecute 3; OpSetState READY; OpReset; OpExecute 9] _ Hp).
    repeat constructor; simpl; lia.
Defined.

(** ** The scheduler base class *)

Lemma is_real_switch_true (from to : ProcessPtr) :
  is_real_switch from to = true
  ↔ ∃ i j, from = Some i ∧ to = Some j ∧ i ≠ j.
Proof.
  unfold is_real_switch, ptr_eqb. split.
  - intros H. destruct from as [i|], to as [j|];
      repeat case_bool_decide; simpl in H; try discriminate; try congruence.
    exists i, j. split; [done|]. split; [done|]. congruence.
  - intros (i & j & -> & -> & Hij).
    repeat case_bool_decide; simpl; congruence.
Qed.

Lemma contextSwitch_processes (from to : ProcessPtr) (s : Scheduler) :
  processes (contextSwitch from to s)
  = update_at to
      (mark_running (currentTime (contextSwitch from to s)))
      (update_at from demote_if_running (processes s)).
Proof. unfold contextSwitch. destruct (is_real_switch from to); reflexivity. Qed.

Lemma contextSwitch_clock (from to : ProcessPtr) (s : Scheduler) :
  currentTime (contextSwitch from to s)
  = (if is_real_switch from to
     then currentTime s + contextSwitchOverhead s else currentTime s)
  ∧ totalContextSwitches (contextSwitch from to s)
    = (if is_real_switch from to
       then totalContextSwitches s + 1 else totalContextSwitches s)
  ∧ contextSwitchOverhead (contextSwitch from to s) = contextSwitchOverhead s
  ∧ currentProcess (contextSwitch from to s) = to.
Proof.
  unfold contextSwitch.
  destruct (is_real_switch from to); repeat split; reflexivity.
Qed.


(** C7. [contextSwitch(from, to)]: the counter goes up by one and the clock
    by [contextSwitchOverhead] exactly when [from] and [to] are distinct and
    both non-null, and neither changes otherwise; a [from] that is [RUNNING]
    ends [READY] ([to] itself ends [RUNNING], also when it is [from]); and on
    [to]'s first selection its [startTime] is the clock after the overhead.
    No other process and no other field of [from] or [to] changes. *)
Theorem contextSwitch_spec (s : Scheduler) (from to : ProcessPtr) :
  let s' := contextSwitch from to s in
  (∀ i j, from = Some i → to = Some j → i ≠ j →
     totalContextSwitches s' = totalContextSwitches s + 1
     ∧ currentTime s' = currentTime s + contextSwitchOverhead s)
  ∧ (from = None ∨ to = None ∨ from = to →
     totalContextSwitches s' = totalContextSwitches s
     ∧ currentTime s' = currentTime s)
  ∧ (∀ i p, from = Some i → to ≠ Some i → processes s !! i = Some p →
     processes s' !! i
     = Some (if bool_decide (state p = RUNNING) then setState READY p else p))
  ∧ (∀ j p, to = Some j → processes s !! j = Some p →
     ∃ p', processes s' !! j = Some p'
       ∧ state p' = RUNNING
       ∧ firstSchedule p' = false
       ∧ startTime p'
         = (if firstSchedule p then currentTime s' else startTime p)
       ∧ setState (state p) (setStartTime (startTime p)
           (setFirstSchedule (firstSchedule p) p')) = p)
  ∧ (∀ k, from ≠ Some k → to ≠ Some k →
     processes s' !! k = processes s !! k)
  ∧ length (processes s') = length (processes s)
  ∧ contextSwitchOverhead s' = contextSwitchOverhead s
  ∧ currentProcess s' = to.
Proof.
  intros s'. subst s'.
  destruct (contextSwitch_clock from to s) as (Ht & Hc & Ho & Hp).
  split; [|split; [|split; [|split; [|split; [|split; [|split]]]]]].
  - intros i j Hf Hto Hij. rewrite Hc, Ht.
    assert (is_real_switch from to = true) as ->; [|done].
    apply is_real_switch_true. eauto.
  - intros H. rewrite Hc, Ht.
    destruct (is_real_switch from to) eqn:E; [|done].
    apply is_real_switch_true in E as (i & j & -> & -> & Hij).
    destruct H as [H|[H|H]]; congruence.
  - intros i p -> Hto Hi. rewrite contextSwitch_processes.
    assert (update_at (Some i) demote_if_running (processes s) !! i
            = Some (if bool_decide (state p = RUNNING)
                    then setState READY p else p)) as Hd.
    { unfold update_at. rewrite list_lookup_alter_eq, Hi. reflexivity. }
    destruct to as [j|]; [|exact Hd].
    unfold update_at at 1. rewrite list_lookup_alter_ne; [exact Hd|congruence].
  - intros j p -> Hj. rewrite contextSwitch_processes.
    unfold update_at at 1. rewrite list_lookup_alter_eq.
    assert (∃ q, update_at from demote_if_running (processes s) !! j = Some q
                 ∧ setState (state p) q = p) as (q & -> & Hq).
    { assert (setState (state p) p = p) as Hid by (destruct p; reflexivity).
      unfold update_at. destruct from as [i|]; [|by exists p].
      destruct (decide (i = j)) as [->|Hne].
      - rewrite list_lookup_alter_eq, Hj. simpl. eexists; split; [done|].
        unfold demote_if_running.
        destruct (state_is RUNNING p); [|exact Hid].
        destruct p; reflexivity.
      - rewrite list_lookup_alter_ne, Hj by done. by exists p. }
    set (now := currentTime (contextSwitch from (Some j) s)).
    exists (mark_running now q). split; [reflexivity|].
    clear Hj.
    destruct p as [? ? ? ? ? ? ? ? ? ? ? ? ? first], q.
    injection Hq as -> -> -> -> -> -> -> -> -> -> -> -> ->.
    destruct first; repeat split; reflexivity.
  - intros k Hf Ht'. rewrite contextSwitch_processes. unfold update_at.
    destruct to as [j|], from as [i|];
      rewrite ?list_lookup_alter_ne by congruence; done.
  - rewrite contextSwitch_processes. unfold update_at.
    destruct to, from; by rewrite ?length_alter.
  - exact Ho.
  - exact Hp.
Qed.

Lemma contextSwitch_spec_witness :
  let running := setState RUNNING (Process_new 1 "P1" 0 5 0) in
  let waiting := setState READY (Process_new 2 "P2" 1 3 0) in
  let s := mkScheduler [running; waiting] 4 2 0 (Some 0%nat) in
  let s' := contextSwitch (Some 0%nat) (Some 1%nat) s in
  (totalContextSwitches s' = 1 ∧ currentTime s' = 6)
  ∧ processes s' !! 0%nat = Some (setState READY running)
  ∧ ∃ p', processes s' !! 1%nat = Some p'
       ∧ state p' = RUNNING ∧ firstSchedule p' = false ∧ startTime p' = 6.
Proof.
  intros running waiting s s'.
  destruct (contextSwitch_spec s (Some 0%nat) (Some 1%nat))
    as (H1 & _ & H3 & H4 & _).
  split; [|split].
  - apply (H1 0%nat 1%nat); [reflexivity|reflexivity|lia].
  - apply (H3 0%nat running); [reflexivity|discriminate|reflexivity].
  - destruct (H4 1%nat waiting) as (p' & Hp' & Hs & Hf & Ht & _);
      [reflexivity|reflexivity|].
    exists p'. repeat split; assumption.
Defined.

(** ** Runs of the documented scenarios *)

(** C1. Round Robin, quantum 2, no overhead, [P1(0,4)] and [P2(0,4)]: the
    code leaves [schedule()] in its first pass.  Both processes were admitted
    but neither was queued, because [lastScheduledTime] (their arrival time,
    0) is not below the clock (0): the trace is empty, both processes are
    still [READY] with [completionTime = -1], and the average waiting time
    reported is 0.  The trace [P1 P1 P2 P2 P1 P1 P2 P2], completion at 8 and
    average waiting time 2 are not produced. *)
Theorem rr_two_equal_arrivals_run (fuel : nat) :
  ∃ s, RoundRobin.schedule (S fuel) Workloads.rr_two_equal = Some (Exit s)
    ∧ RoundRobin.ganttChart s = []
    ∧ states_of (RoundRobin.base s) = [READY; READY]
    ∧ (remainingTime <$> processes (RoundRobin.base s)) = [4; 4]
    ∧ (completionTime <$> processes (RoundRobin.base s)) = [-1; -1]
    ∧ averageWaitingTime (Scheduler_calculateMetrics (RoundRobin.base s))
      = Qmake 0 1.
Proof. eexists. vm_compute. repeat split. Qed.

(** C2. Runs of the test suite's workloads that return from [schedule()]
    with processes that are not [TERMINATED]: Round Robin on three processes
    arriving at 0 (nothing is queued, all stay [READY]); the multilevel queue
    on three processes arriving at 0 (the same); preemptive Priority, where
    [P1] is left [RUNNING] with 6 units remaining once it is the only
    process, the rebuilt queue of [READY] processes being empty. *)
Theorem schedule_returns_with_unfinished_processes (fuel : nat) :
  (∃ s, RoundRobin.schedule (S fuel) Workloads.rr_basic = Some (Exit s)
     ∧ states_of (RoundRobin.base s) = [READY; READY; READY]
     ∧ RoundRobin.ganttChart s = [])
  ∧ (∃ s, MultilevelQueue.schedule (S fuel) Workloads.mlq_three = Some (Exit s)
     ∧ states_of (MultilevelQueue.base s) = [READY; READY; READY]
     ∧ MultilevelQueue.ganttChart s = [])
  ∧ (∃ s, Priority.schedule (9 + fuel) Workloads.priority_preemptive
          = Some (Exit s)
     ∧ states_of (Priority.base s) = [RUNNING; TERMINATED; TERMINATED]
     ∧ (remainingTime <$> processes (Priority.base s)) = [6; 0; 0]).
Proof.
  split; [|split]; eexists; (split; [vm_compute; reflexivity|]);
    vm_compute; repeat split.
Qed.

(** C3. Non-preemptive Priority, no aging, no overhead, on [P1(0,5,3)],
    [P2(1,3,1)], [P3(2,2,2)]: the run executes [P1] over 0-5, [P2] over 5-8
    and [P3] over 8-10 and terminates all three, but the waiting times it
    records are [P1 = 0], [P2 = 0], [P3 = 3]: a process is charged only
    while [READY], and [P2] and [P3], which arrive during [P1]'s slice, are
    admitted at time 5 only. *)
Theorem priority_three_run (fuel : nat) :
  ∃ s, Priority.schedule (3 + fuel) Workloads.priority_three = Some (Exit s)
    ∧ Priority.ganttChart s
      = ["P1"; "P1"; "P1"; "P1"; "P1"; "P2"; "P2"; "P2"; "P3"; "P3"]
    ∧ states_of (Priority.base s) = [TERMINATED; TERMINATED; TERMINATED]
    ∧ (startTime <$> processes (Priority.base s)) = [0; 5; 8]
    ∧ (completionTime <$> processes (Priority.base s)) = [5; 8; 10]
    ∧ (waitingTime <$> processes (Priority.base s)) = [0; 0; 3]
    ∧ ((λ p, turnaroundTime p - burstTime p) <$> processes (Priority.base s))
      = [0; 4; 6].
Proof. eexists. split; [vm_compute; reflexivity|]. vm_compute. repeat split. Qed.

(** Whatever happened to a process, [reset] gives back the record as it was
    constructed, except for [priority], which keeps its current value. *)
Lemma reset_after_op (p0 q : Process) (op : ProcessOp) :
  reset q = setPriority (priority q) (reset p0) →
  reset (applyOp q op) = setPriority (priority (applyOp q op)) (reset p0).
Proof.
  destruct q, p0, op; unfold applyOp, execute; unfold_setters;
    intros H; injection H as -> -> -> ->; reflexivity.
Qed.

Lemma reset_restores_all_but_priority
    (pid : Z) (name : string) (arrival burst prio : Z) (ops : list ProcessOp) :
  let p0 := Process_new pid name arrival burst prio in
  reset (fold_left applyOp ops p0)
  = setPriority (priority (fold_left applyOp ops p0)) p0.
Proof.
  intros p0.
  assert (∀ q, reset q = setPriority (priority q) (reset p0) →
               reset (fold_left applyOp ops q)
               = setPriority (priority (fold_left applyOp ops q)) (reset p0))
    as H.
  { induction ops as [|op ops IH]; intros q Hq; simpl; [exact Hq|].
    apply IH. by apply reset_after_op. }
  apply (H p0). reflexivity.
Qed.

(** C5. The workload of [test_priority_aging], run and then reset through
    [Scheduler::reset]: [P3] was constructed with priority 1, was aged to 0
    at time 12, and keeps priority 0 after [reset()]; every other field of
    every process is back to its constructed value. *)
Theorem reset_after_aging_run (fuel : nat) :
  ∃ s, Priority.schedule (3 + fuel) Workloads.priority_aging = Some (Exit s)
    ∧ states_of (Priority.base s) = [TERMINATED; TERMINATED; TERMINATED]
    ∧ (priority <$> processes (Priority.base Workloads.priority_aging))
      = [5; 1; 1]
    ∧ (priority <$> processes (Scheduler_reset (Priority.base s))) = [5; 1; 0]
    ∧ (setPriority 0 <$> processes (Scheduler_reset (Priority.base s)))
      = (setPriority 0 <$> processes (Priority.base Workloads.priority_aging)).
Proof. eexists. split; [vm_compute; reflexivity|]. vm_compute. repeat split. Qed.

(** ** Generic facts about the loops and the store *)

Lemma after_passes_invariant {S : Type} (body : S → LoopResult S)
    (P : S → Prop) :
  (∀ s, P s → result_holds P (body s)) →
  ∀ n s, P s → result_holds P (after_passes body n s).
Proof.
  intros Hbody. induction n as [|n IH]; intros s Hs; simpl; [exact Hs|].
  specialize (Hbody s Hs). destruct (body s) as [s'| |]; simpl in *; auto.
Qed.

Section Keep.
Context (P : Process → Prop).

Lemma Forall_fmap_keep (f : Process → Process) (l : list Process) :
  (∀ p, P p → P (f p)) → Forall P l → Forall P (f <$> l).
Proof.
  intros Hf Hl. apply Forall_fmap. eapply Forall_impl; [exact Hl|].
  intros p Hp. by apply Hf.
Qed.

Lemma Forall_alter_keep (f : Process → Process) (i : nat) (l : list Process) :
  (∀ p, P p → P (f p)) → Forall P l → Forall P (alter f i l).
Proof. intros Hf Hl. apply Forall_alter; [exact Hl|]. intros p _. apply Hf. Qed.

Lemma Forall_update_at_keep (ptr : ProcessPtr) (f : Process → Process)
    (l : list Process) :
  (∀ p, P p → P (f p)) → Forall P l → Forall P (update_at ptr f l).
Proof. destruct ptr; unfold update_at; [apply Forall_alter_keep|auto]. Qed.

Lemma Forall_imap_keep (f : nat → Process → Process) (l : list Process) :
  (∀ i p, P p → P (f i p)) → Forall P l → Forall P (imap f l).
Proof.
  intros Hf Hl. apply Forall_lookup. intros i x.
  rewrite list_lookup_imap. destruct (l !! i) as [p|] eqn:E; [|done].
  intros [= <-]. apply Hf. eapply Forall_lookup_1; eauto.
Qed.
End Keep.

(** ** Priorities never go below zero in a Priority run *)

Ltac keep_priority :=
  intros;
  repeat match goal with
         | |- context [if ?c then _ else _] => destruct c
         end;
  assumption.

Lemma admit_keeps_priority (b : Scheduler) :
  Forall priority_nonneg (processes b) →
  Forall priority_nonneg (processes (admitArrivingProcesses b).2).
Proof.
  intros H. unfold admitArrivingProcesses. simpl.
  apply Forall_fmap_keep; [keep_priority|exact H].
Qed.

Lemma contextSwitch_keeps_priority (from to : ProcessPtr) (b : Scheduler) :
  Forall priority_nonneg (processes b) →
  Forall priority_nonneg (processes (contextSwitch from to b)).
Proof.
  intros H. rewrite contextSwitch_processes.
  apply Forall_update_at_keep; [unfold mark_running; keep_priority|].
  apply Forall_update_at_keep; [unfold demote_if_running; keep_priority|].
  exact H.
Qed.

Lemma chargeWaiting_keeps_priority (r : ProcessPtr) (t : Z) (l : list Process) :
  Forall priority_nonneg l → Forall priority_nonneg (chargeWaiting r t l).
Proof. apply Forall_imap_keep. keep_priority. Qed.

Lemma age_keeps_priority (now interval : Z) (p : Process) :
  priority_nonneg p → priority_nonneg (Priority.age now interval p).
Proof.
  unfold Priority.age, priority_nonneg. intros H.
  destruct (state_is READY p); [|exact H].
  destruct ((interval <=? now - lastScheduledTime p) && (0 <? priority p))
    eqn:E; [|exact H].
  apply andb_prop in E as [_ E]. simpl. lia.
Qed.

Lemma agingStep_keeps_priority (s : Priority.PriorityScheduler) :
  priorities_nonneg s → result_holds priorities_nonneg (Priority.agingStep s).
Proof.
  intros H. unfold Priority.agingStep.
  destruct (Priority.agingInterval s =? 0); [exact I|].
  destruct (_ =? 0); [|exact H].
  unfold Priority.applyAging. destruct (negb _); [exact H|].
  simpl. apply Forall_fmap_keep; [apply age_keeps_priority|exact H].
Qed.

Lemma lookup_priority_nonneg (l : list Process) (i : nat) (p : Process) :
  Forall priority_nonneg l → l !! i = Some p → priority_nonneg p.
Proof. intros H E. eapply Forall_lookup_1; eauto. Qed.

(** Goals [Forall priority_nonneg l] for a store [l] built from one that
    satisfies it by the operations of the loops. *)
Ltac forall_keep :=
  repeat first
    [ assumption
    | apply contextSwitch_keeps_priority
    | apply admit_keeps_priority
    | apply chargeWaiting_keeps_priority
    | apply Forall_alter_keep; [keep_priority|]
    | apply Forall_insert;
      [|match goal with
        | E : ?l !! _ = Some ?p |- priority_nonneg ?q =>
            let H := fresh in
            assert (priority_nonneg p) as H
              by (eapply lookup_priority_nonneg; [|exact E]; forall_keep);
            exact H
        end] ].

(** Reduce the projections of a freshly built scheduler state, nothing
    else. *)
Ltac expose :=
  cbn [result_holds processes currentTime totalContextSwitches
       currentProcess contextSwitchOverhead set_processes set_currentTime
       set_currentProcess set_totalContextSwitches set_contextSwitchOverhead
       Priority.base Priority.with_base RoundRobin.base MultilevelQueue.base
       Feedback.base Feedback.with_run Feedback.processQueueLevel
       Feedback.timeInQueue Feedback.numQueues Feedback.timeQuantums
       Feedback.queues Feedback.ganttChart Feedback.agingEnabled
       Feedback.agingThreshold fst snd] in *.

Lemma emptyQueue_keeps_priority (s : Priority.PriorityScheduler) :
  priorities_nonneg s → result_holds priorities_nonneg (Priority.emptyQueue s).
Proof.
  unfold priorities_nonneg. intros H. unfold Priority.emptyQueue.
  repeat case_match; expose; try exact I; try exact H; simplify_eq;
    forall_keep.
Qed.

Lemma runToCompletion_keeps_priority (s : Priority.PriorityScheduler)
    (q : list nat) (n : nat) :
  priorities_nonneg s →
  result_holds priorities_nonneg (Priority.runToCompletion s q n).
Proof.
  unfold priorities_nonneg. intros H. unfold Priority.runToCompletion.
  repeat case_match; expose; try exact I; forall_keep.
Qed.

Lemma runPreemptive_keeps_priority (s : Priority.PriorityScheduler)
    (q : list nat) (n : nat) :
  priorities_nonneg s →
  result_holds priorities_nonneg (Priority.runPreemptive s q n).
Proof.
  unfold priorities_nonneg. intros H. unfold Priority.runPreemptive.
  repeat case_match; expose; try exact I; simplify_eq; forall_keep.
Qed.

Lemma body_keeps_priority (s : Priority.PriorityScheduler) :
  priorities_nonneg s → result_holds priorities_nonneg (Priority.body s).
Proof.
  intros H. unfold Priority.body.
  set (s1 := Priority.with_base _ s).
  assert (priorities_nonneg s1) as H1 by (by apply admit_keeps_priority).
  pose proof (agingStep_keeps_priority s1 H1) as H2.
  destruct (Priority.agingStep s1) as [s2| |]; try exact H2.
  destruct (Priority.top _ _).
  - destruct (Priority.preemptive s2);
      [by apply runPreemptive_keeps_priority
      |by apply runToCompletion_keeps_priority].
  - by apply emptyQueue_keeps_priority.
Qed.

Lemma agingStep_fires (s : Priority.PriorityScheduler) :
  Priority.agingEnabled s = true →
  Priority.agingInterval s ≠ 0 →
  Z.rem (currentTime (Priority.base s)) (Priority.agingInterval s) = 0 →
  Priority.agingStep s
  = Next (Priority.with_base
            (set_processes
               (Priority.age (currentTime (Priority.base s))
                             (Priority.agingInterval s)
                  <$> processes (Priority.base s))
               (Priority.base s)) s).
Proof.
  intros He Hi Hr. unfold Priority.agingStep, Priority.applyAging.
  rewrite He, Hr. simpl.
  destruct (Priority.agingInterval s =? 0) eqn:E; [lia|reflexivity].
Qed.

Lemma age_spec (now interval : Z) (p : Process) :
  Priority.age now interval p
  = if bool_decide (state p = READY
                    ∧ interval <= now - lastScheduledTime p
                    ∧ 0 < priority p)
    then setPriority (priority p - 1) p else p.
Proof.
  unfold Priority.age, state_is.
  repeat case_bool_decide; try reflexivity.
  - destruct (interval <=? now - lastScheduledTime p) eqn:E1,
      (0 <? priority p) eqn:E2; simpl; try reflexivity; lia.
  - destruct (interval <=? now - lastScheduledTime p) eqn:E1,
      (0 <? priority p) eqn:E2; simpl; try reflexivity.
    exfalso. apply H0. repeat split; [assumption|lia|lia].
  - tauto.
Qed.

(** C6, as amended.  With aging enabled, when the cadence fires
    ([currentTime mod agingInterval == 0]), the priority value goes down by
    one for exactly the processes that are [READY], have a positive priority
    value and for which [currentTime - lastScheduledTime >= agingInterval];
    every other process is left as it is.  And in a run that starts with no
    negative priority value, no priority value is ever below 0. *)
Theorem aging_decrements_waited_ready :
  (∀ s : Priority.PriorityScheduler,
     Priority.agingEnabled s = true →
     Priority.agingInterval s ≠ 0 →
     Z.rem (currentTime (Priority.base s)) (Priority.agingInterval s) = 0 →
     ∃ s', Priority.agingStep s = Next s'
       ∧ ∀ i p, processes (Priority.base s) !! i = Some p →
           processes (Priority.base s') !! i
           = Some (if bool_decide
                        (state p = READY
                         ∧ Priority.agingInterval s
                           <= currentTime (Priority.base s)
                              - lastScheduledTime p
                         ∧ 0 < priority p)
                   then setPriority (priority p - 1) p else p))
  ∧ (∀ (s0 : Priority.PriorityScheduler) (n : nat),
       priorities_nonneg s0 →
       result_holds priorities_nonneg
         (after_passes Priority.body n (Priority.start s0))).
Proof.
  split.
  - intros s He Hi Hr. eexists. split; [by apply agingStep_fires|].
    intros i p Hp. expose. rewrite list_lookup_fmap, Hp. simpl.
    by rewrite age_spec.
  - intros s0 n H0.
    apply after_passes_invariant; [apply body_keeps_priority|exact H0].
Qed.

Lemma aging_decrements_waited_ready_witness :
  (∃ s', Priority.agingStep aging_check_at_twelve = Next s'
     ∧ processes (Priority.base s') !! 0%nat
       = Some (setPriority 0 (setState READY (Process_new 3 "P3" 2 2 1))))
  ∧ result_holds priorities_nonneg
      (after_passes Priority.body 3 (Priority.start Workloads.priority_aging)).
Proof.
  destruct aging_decrements_waited_ready as [H1 H2]. split.
  - destruct (H1 aging_check_at_twelve) as (s' & Hs & Hp);
      [reflexivity|discriminate|reflexivity|].
    exists s'. split; [exact Hs|].
    exact (Hp 0%nat (setState READY (Process_new 3 "P3" 2 2 1)) eq_refl).
  - apply H2. unfold priorities_nonneg, priority_nonneg.
    repeat constructor; simpl; lia.
Defined.

(** C6 as stated fails: in the first pass of the [test_priority_aging] run
    the cadence fires (clock 0, interval 3) and [P1] is [READY] with priority
    value 5, yet the aging step leaves its priority value at 5, since
    [currentTime - lastScheduledTime] is 0. *)
Lemma aging_skips_process_that_has_not_waited :
  (Priority.agingEnabled aging_check_at_start = true
   ∧ Z.rem (currentTime (Priority.base aging_check_at_start))
           (Priority.agingInterval aging_check_at_start) = 0)
  ∧ ¬ (∀ i p, processes (Priority.base aging_check_at_start) !! i = Some p →
         state p = READY → 0 < priority p →
         ∃ s' p', Priority.agingStep aging_check_at_start = Next s'
           ∧ processes (Priority.base s') !! i = Some p'
           ∧ priority p' = priority p - 1).
Proof.
  split; [split; reflexivity|].
  intros H.
  destruct (H 0%nat (setState READY (Process_new 1 "P1" 0 10 5)))
    as (s' & p' & Hs & Hp & Hpr); [reflexivity|reflexivity|reflexivity|].
  vm_compute in Hs. injection Hs as <-.
  vm_compute in Hp. injection Hp as <-.
  vm_compute in Hpr. discriminate.
Qed.

(** ** The feedback queue: what a dispatch does to level and counter *)

Lemma contextSwitch_lookup_to (from : ProcessPtr) (j : nat) (b : Scheduler)
    (p : Process) :
  processes b !! j = Some p →
  ∃ p', processes (contextSwitch from (Some j) b) !! j = Some p'
    ∧ pid p' = pid p ∧ name p' = name p
    ∧ remainingTime p' = remainingTime p.
Proof.
  intros Hj. rewrite contextSwitch_processes. unfold update_at at 1.
  rewrite list_lookup_alter_eq.
  assert (∃ q, update_at from demote_if_running (processes b) !! j = Some q
               ∧ pid q = pid p ∧ name q = name p
               ∧ remainingTime q = remainingTime p) as (q & -> & H1 & H2 & H3).
  { unfold update_at. destruct from as [i|]; [|by exists p].
    destruct (decide (i = j)) as [->|Hne].
    - rewrite list_lookup_alter_eq, Hj. simpl. eexists; split; [done|].
      unfold demote_if_running. by destruct (state_is RUNNING p).
    - rewrite list_lookup_alter_ne, Hj by done. by exists p. }
  simpl. eexists; split; [done|].
  unfold mark_running. by destruct (firstSchedule _).
Qed.

Lemma subscript_in_range {A : Type} (v : list A) (i : Z) :
  0 <= i < Z.of_nat (length v) → is_Some (Feedback.subscript v i).
Proof.
  intros H. unfold Feedback.subscript.
  destruct (i <? 0) eqn:E; [lia|]. apply lookup_lt_is_Some. lia.
Qed.

Lemma feedback_enqueueOne_some (levels : gmap Z Z) (skip : ProcessPtr)
    (now : Z) (ps : list Process) (qs : list (list nat)) (i : nat) :
  (∀ pid, 0 <= Feedback.read levels pid < Z.of_nat (length qs)) →
  ∃ ps' qs', Feedback.enqueueOne levels skip now (Some (ps, qs)) i
             = Some (ps', qs')
    ∧ length qs' = length qs.
Proof.
  intros Hr. unfold Feedback.enqueueOne.
  destruct (ps !! i) as [p|]; [|by eauto].
  destruct (_ && _); [|by eauto].
  destruct (subscript_in_range qs (Feedback.read levels (pid p)) (Hr _))
    as [q ->].
  destruct (inQueue i q); [by eauto|].
  eexists _, _. split; [reflexivity|]. by rewrite length_insert.
Qed.

Lemma feedback_enqueueReady_some (levels : gmap Z Z) (skip : ProcessPtr)
    (now : Z) (ps : list Process) (qs : list (list nat)) :
  (∀ pid, 0 <= Feedback.read levels pid < Z.of_nat (length qs)) →
  ∃ ps' qs', Feedback.enqueueReady levels skip now ps qs = Some (ps', qs')
    ∧ length qs' = length qs.
Proof.
  unfold Feedback.enqueueReady. generalize (seq 0 (length ps)) as idx.
  intros idx. revert ps qs.
  induction idx as [|i idx IH]; intros ps qs Hr; cbn [fold_left];
    [by eauto|].
  destruct (feedback_enqueueOne_some levels skip now ps qs i Hr)
    as (ps1 & qs1 & -> & Hlen).
  destruct (IH ps1 qs1) as (ps' & qs' & -> & Hlen');
    [by rewrite Hlen|].
  eexists _, _. split; [reflexivity|]. by rewrite Hlen'.
Qed.

Lemma read_insert_eq (m : gmap Z Z) (k v : Z) :
  Feedback.read (<[k := v]> m) k = v.
Proof. unfold Feedback.read. by rewrite lookup_insert_eq. Qed.

Lemma read_insert_ne (m : gmap Z Z) (k k' v : Z) :
  k ≠ k' → Feedback.read (<[k := v]> m) k' = Feedback.read m k'.
Proof. intros H. unfold Feedback.read. by rewrite lookup_insert_ne. Qed.

Lemma demoteProcess_spec (n pid : Z) (levels counters : gmap Z Z) :
  Feedback.read (Feedback.demoteProcess n pid levels counters).1 pid
  = (if bool_decide (Feedback.read levels pid < n - 1)
     then Feedback.read levels pid + 1 else Feedback.read levels pid)
  ∧ Feedback.read (Feedback.demoteProcess n pid levels counters).2 pid
    = (if bool_decide (Feedback.read levels pid < n - 1)
       then 0 else Feedback.read counters pid)
  ∧ ((∀ k, 0 <= Feedback.read levels k < n) →
     ∀ k, 0 <= Feedback.read
                 (Feedback.demoteProcess n pid levels counters).1 k < n).
Proof.
  unfold Feedback.demoteProcess.
  case_bool_decide as Hlt.
  - assert ((Feedback.read levels pid <? n - 1) = true) as -> by lia. simpl.
    rewrite !read_insert_eq. split; [done|]. split; [done|].
    intros H k. destruct (decide (pid = k)) as [->|Hne];
      rewrite ?read_insert_eq, ?read_insert_ne by done;
      [specialize (H k); lia|apply H].
  - assert ((Feedback.read levels pid <? n - 1) = false) as -> by lia. simpl.
    split; [done|]. split; [done|]. intros H. exact H.
Qed.

Lemma feedback_requeue_some (s : Feedback.MultilevelFeedbackQueueScheduler)
    (b : Scheduler) (qs : list (list nat)) (i : nat) (p1 : Process)
    (executionTime quantum now : Z) (ps1 : list Process) :
  Z.of_nat (length qs) = Feedback.numQueues s →
  (∀ pid, 0 <= Feedback.read (Feedback.processQueueLevel s) pid
          < Feedback.numQueues s) →
  ∃ ps' qs',
    Feedback.requeue s b qs i p1 executionTime quantum now ps1
    = Some (ps', qs',
            (if executionTime =? quantum
             then Feedback.demoteProcess (Feedback.numQueues s) (pid p1)
                    (Feedback.processQueueLevel s) (Feedback.timeInQueue s)
             else (Feedback.processQueueLevel s, Feedback.timeInQueue s)).1,
            (if executionTime =? quantum
             then Feedback.demoteProcess (Feedback.numQueues s) (pid p1)
                    (Feedback.processQueueLevel s) (Feedback.timeInQueue s)
             else (Feedback.processQueueLevel s, Feedback.timeInQueue s)).2).
Proof.
  intros Hlen Hr. unfold Feedback.requeue.
  set (d := if executionTime =? quantum then _ else _).
  assert (∀ k, 0 <= Feedback.read d.1 k < Z.of_nat (length qs)) as Hd.
  { rewrite Hlen. subst d. destruct (executionTime =? quantum); [|exact Hr].
    by apply demoteProcess_spec. }
  destruct d as [levels counters]. simpl in Hd. cbv beta iota zeta.
  destruct (feedback_enqueueReady_some levels (Some i) now
              (processes (admitArrivingProcesses
                 (set_currentTime now
                    (set_processes (alter (setState READY) i ps1) b))).2)
              qs Hd) as (ps4 & qs4 & -> & Hlen4).
  destruct (subscript_in_range qs4 (Feedback.read levels (pid p1)))
    as [q ->]; [rewrite Hlen4; apply Hd|].
  by eauto.
Qed.

(** C9, as amended.  A dispatch in the feedback queue of a process whose
    level is [L] (levels within [0 .. N-1], one queue per level): if the
    process used its whole quantum without finishing, its level becomes
    [min(L+1, N-1)], and its time-in-level counter is set to 0 when
    [L < N-1] and is left as it is when [L = N-1]; a process that finishes
    (at the quantum boundary or before it) is [TERMINATED] and neither its
    level nor its counter changes. *)
Theorem feedback_dispatch_level_and_counter
    (s : Feedback.MultilevelFeedbackQueueScheduler) (b : Scheduler)
    (qs : list (list nat)) (k i : nat) (p : Process) (quantum : Z) :
  Z.of_nat (length qs) = Feedback.numQueues s →
  (∀ pid, 0 <= Feedback.read (Feedback.processQueueLevel s) pid
          < Feedback.numQueues s) →
  processes b !! i = Some p →
  Feedback.timeQuantums s !! k = Some quantum →
  let L := Feedback.read (Feedback.processQueueLevel s) (pid p) in
  ∃ s', (Feedback.dispatch s b qs k i = Next s'
         ∨ Feedback.dispatch s b qs k i = Exit s')
    ∧ (quantum < remainingTime p →
       Feedback.read (Feedback.processQueueLevel s') (pid p)
       = Z.min (L + 1) (Feedback.numQueues s - 1)
       ∧ Feedback.read (Feedback.timeInQueue s') (pid p)
         = (if bool_decide (L < Feedback.numQueues s - 1) then 0
            else Feedback.read (Feedback.timeInQueue s) (pid p)))
    ∧ (remainingTime p <= quantum →
       Feedback.processQueueLevel s' = Feedback.processQueueLevel s
       ∧ Feedback.timeInQueue s' = Feedback.timeInQueue s
       ∧ (state <$> processes (Feedback.base s') !! i) = Some TERMINATED).
Proof.
  intros Hlen Hr Hp Hq L. unfold Feedback.dispatch.
  destruct (contextSwitch_lookup_to (currentProcess b) i b p Hp)
    as (p' & Hp' & Hpid & _ & Hrem).
  rewrite Hp', Hq. unfold execute. cbv beta iota zeta.
  set (b1 := contextSwitch (currentProcess b) (Some i) b) in *.
  set (e := Z.min quantum (remainingTime p')).
  set (p1 := set_remainingTime (remainingTime p' - e) p').
  assert (i < length (processes b1))%nat as Hi by (by eapply lookup_lt_Some).
  destruct (Z_le_gt_dec (remainingTime p) quantum) as [Hle|Hgt].
  - assert (isComplete p1 = true) as ->.
    { unfold isComplete, p1, e. simpl. lia. }
    cbv beta iota zeta.
    set (ps2 := alter _ i _).
    assert ((state <$> ps2 !! i) = Some TERMINATED) as Hst.
    { unfold ps2, chargeWaiting.
      rewrite list_lookup_alter_eq, list_lookup_imap,
        list_lookup_insert_eq by done.
      reflexivity. }
    destruct (allTerminated ps2); eexists; (split; [eauto|]);
      (split; [intros; lia|]); intros _; expose; done.
  - assert (isComplete p1 = false) as ->.
    { unfold isComplete, p1, e. simpl. lia. }
    destruct (feedback_requeue_some s b1 qs i p1 e quantum
                (currentTime b1 + e)
                (chargeWaiting (Some i) e (<[i:=p1]> (processes b1)))
                Hlen Hr) as (ps' & qs' & ->).
    assert ((e =? quantum) = true) as -> by (unfold e; lia).
    assert (pid p1 = pid p) as -> by exact Hpid.
    destruct (demoteProcess_spec (Feedback.numQueues s) (pid p)
                (Feedback.processQueueLevel s) (Feedback.timeInQueue s))
      as (HL & HC & _).
    cbv beta iota zeta.
    destruct (allTerminated ps'); eexists; (split; [eauto|]);
      (split; [|intros; lia]); intros _; expose;
      rewrite HL, HC; subst L; specialize (Hr (pid p));
      (split; [case_bool_decide; lia|done]).
Qed.

Lemma feedback_dispatch_level_and_counter_witness :
  ∃ s', (Feedback.dispatch feedback_three_levels
           (Feedback.base feedback_three_levels) [[]; []; []] 0 0 = Next s'
         ∨ Feedback.dispatch feedback_three_levels
             (Feedback.base feedback_three_levels) [[]; []; []] 0 0 = Exit s')
    ∧ Feedback.read (Feedback.processQueueLevel s') 1 = 1
    ∧ Feedback.read (Feedback.timeInQueue s') 1 = 0.
Proof.
  destruct (feedback_dispatch_level_and_counter feedback_three_levels
              (Feedback.base feedback_three_levels) [[]; []; []] 0 0
              (setState READY (Process_new 1 "P1" 0 10 0)) 2)
    as (s' & Hs & Hused & _).
  - reflexivity.
  - intros pid. unfold Feedback.read. simpl. rewrite lookup_empty. simpl. lia.
  - reflexivity.
  - reflexivity.
  - exists s'. split; [exact Hs|]. apply Hused. simpl. lia.
Defined.

(** C9 as stated fails at the last level: in the second pass of the run of a
    single-level feedback queue (aging on, threshold 1) on [P1(0,5)] and
    [P2(1,1)], [P1] is dispatched at level [0 = N-1] with quantum 2, uses the
    whole quantum without finishing, and its time-in-level counter is still
    2 afterwards, not 0. *)
Lemma demotion_at_last_level_keeps_counter :
  (∃ s0 s1, Workloads.mlfq_single_level = Some s0
     ∧ after_passes Feedback.body 1 (Feedback.start s0) = Next s1
     ∧ Feedback.body s1
       = Feedback.dispatch single_level_at_dispatch
           (Feedback.base single_level_at_dispatch) [[]] 0 0)
  ∧ ¬ (∀ s' p quantum,
         processes (Feedback.base single_level_at_dispatch) !! 0%nat = Some p →
         Feedback.timeQuantums single_level_at_dispatch !! 0%nat
         = Some quantum →
         Feedback.dispatch single_level_at_dispatch
           (Feedback.base single_level_at_dispatch) [[]] 0 0 = Next s' →
         quantum < remainingTime p →
         Feedback.read (Feedback.processQueueLevel s') (pid p)
         = Z.min
             (Feedback.read
                (Feedback.processQueueLevel single_level_at_dispatch) (pid p)
              + 1)
             (Feedback.numQueues single_level_at_dispatch - 1)
         ∧ Feedback.read (Feedback.timeInQueue s') (pid p) = 0).
Proof.
  split.
  - eexists _, _. split; [vm_compute; reflexivity|].
    split; vm_compute; reflexivity.
  - intros H.
    assert (∃ s', Feedback.dispatch single_level_at_dispatch
                    (Feedback.base single_level_at_dispatch) [[]] 0 0 = Next s'
                  ∧ Feedback.read (Feedback.timeInQueue s') 1 = 2)
      as (s' & Hd & Hc2) by (eexists; split; vm_compute; reflexivity).
    destruct (H s'
                (setLastScheduledTime 1
                   (setState READY (Process_new 1 "P1" 0 5 0)))
                2 eq_refl eq_refl Hd) as [_ Hc]; [reflexivity|].
    assert (2 = 0) as Habs by (rewrite <- Hc2; exact Hc).
    discriminate Habs.
Qed.

(** ** Dispatches switch from no process *)

Lemma contextSwitch_from_null (to : ProcessPtr) (b : Scheduler) :
  contextSwitch None to b
  = set_currentProcess to
      (set_processes (update_at to (mark_running (currentTime b)) (processes b))
                     b).
Proof.
  unfold contextSwitch.
  assert (is_real_switch None to = false) as -> by (by destruct to).
  reflexivity.
Qed.

Lemma rr_body_overhead (o : Z) (s : RoundRobin.RoundRobinScheduler) :
  currentProcess (RoundRobin.base s) = None →
  RoundRobin.body (rr_with_overhead o s)
  = result_map (rr_with_overhead o) (RoundRobin.body s)
  ∧ result_holds
      (λ s', totalContextSwitches (RoundRobin.base s')
             = totalContextSwitches (RoundRobin.base s)
             ∧ currentProcess (RoundRobin.base s') = None)
      (RoundRobin.body s).
Proof.
  destruct s as [[ps t o0 c cp] quantum rq chart]. simpl. intros ->.
  unfold RoundRobin.body, RoundRobin.dispatch, rr_with_overhead.
  cbn [RoundRobin.base RoundRobin.timeQuantum RoundRobin.readyQueue
       RoundRobin.ganttChart].
  unfold admitArrivingProcesses, updateWaitingTimes.
  expose.
  destruct (RoundRobin.enqueueReady _ _ _ _) as [ps2 [|i q3]].
  - expose. destruct (bool_decide _);
      (split; [reflexivity|expose; split; reflexivity]).
  - expose. rewrite !contextSwitch_from_null. expose.
    repeat case_match; simplify_eq;
      (split; [reflexivity|expose; try split; done]).
Qed.

Lemma mlq_body_overhead (o : Z) (s : MultilevelQueue.MultilevelQueueScheduler) :
  currentProcess (MultilevelQueue.base s) = None →
  MultilevelQueue.body (mlq_with_overhead o s)
  = result_map (mlq_with_overhead o) (MultilevelQueue.body s)
  ∧ result_holds
      (λ s', totalContextSwitches (MultilevelQueue.base s')
             = totalContextSwitches (MultilevelQueue.base s)
             ∧ currentProcess (MultilevelQueue.base s') = None)
      (MultilevelQueue.body s).
Proof.
  destruct s as [[ps t o0 c cp] configs qs chart]. simpl. intros ->.
  unfold MultilevelQueue.body, MultilevelQueue.dispatch, mlq_with_overhead.
  cbn [MultilevelQueue.base MultilevelQueue.queueConfigs
       MultilevelQueue.queues MultilevelQueue.ganttChart].
  unfold admitArrivingProcesses. expose.
  destruct (MultilevelQueue.enqueueReady _ _ _ _ _) as [ps2 qs2].
  destruct (_ =? -1).
  - destruct (bool_decide _);
      (split; [reflexivity|expose; split; reflexivity]).
  - destruct (MultilevelQueue.queue_at _ _) as [|i rest]; [by split|].
    expose. rewrite !contextSwitch_from_null. expose.
    repeat case_match; simplify_eq;
      (split; [reflexivity|expose; try split; done]).
Qed.

Lemma mlfq_body_overhead (o : Z)
    (s : Feedback.MultilevelFeedbackQueueScheduler) :
  currentProcess (Feedback.base s) = None →
  Feedback.body (mlfq_with_overhead o s)
  = result_map (mlfq_with_overhead o) (Feedback.body s)
  ∧ result_holds
      (λ s', totalContextSwitches (Feedback.base s')
             = totalContextSwitches (Feedback.base s)
             ∧ currentProcess (Feedback.base s') = None)
      (Feedback.body s).
Proof.
  destruct s as [[ps t o0 c cp] n quanta qs levels chart aging threshold
                 counters].
  simpl. intros ->.
  unfold Feedback.body, Feedback.dispatch, Feedback.requeue,
    mlfq_with_overhead.
  cbn [Feedback.base Feedback.numQueues Feedback.timeQuantums Feedback.queues
       Feedback.processQueueLevel Feedback.ganttChart Feedback.agingEnabled
       Feedback.agingThreshold Feedback.timeInQueue].
  unfold admitArrivingProcesses. expose.
  destruct (threshold =? 0); [by split|].
  destruct (if Z.rem t threshold =? 0 then _ else _) as [levels1 counters1].
  destruct (Feedback.enqueueReady _ _ _ _ _) as [[ps2 qs2]|]; [|by split].
  destruct (Feedback.getHighestPriorityQueue _ _) as [k|].
  - destruct (qs2 !! k) as [[|i rest]|]; [by split| |by split].
    expose. rewrite !contextSwitch_from_null. expose.
    repeat case_match; simplify_eq;
      (split; [reflexivity|expose; try split; done]).
  - destruct (bool_decide _);
      (split; [reflexivity|expose; split; reflexivity]).
Qed.

Lemma passes_commute {S : Type} (body : S → LoopResult S) (f : S → S)
    (Inv : S → Prop) :
  (∀ s, Inv s →
        body (f s) = result_map f (body s) ∧ result_holds Inv (body s)) →
  ∀ n s, Inv s →
    after_passes body n (f s) = result_map f (after_passes body n s)
    ∧ result_holds Inv (after_passes body n s)
    ∧ run_loop body n (f s) = (result_map f <$> run_loop body n s).
Proof.
  intros Hbody. induction n as [|n IH]; intros s Hs; simpl; [done|].
  destruct (Hbody s Hs) as [-> Hinv].
  destruct (body s) as [s'| |]; simpl in *; [by apply IH|done|done].
Qed.

Lemma idle_reports_no_switch (b : Scheduler) :
  idle_base b → reports_no_switch b.
Proof. intros H. split; [exact H|]. apply H. Qed.

Lemma result_holds_impl {S : Type} (P Q : S → Prop) (r : LoopResult S) :
  (∀ s, P s → Q s) → result_holds P r → result_holds Q r.
Proof. intros H. destruct r; simpl; auto. Qed.

(** C10. In the Round Robin, multilevel queue and feedback queue
    schedulers, started from a scheduler that has counted no switch and has
    no current process (as after construction, [reset()] or a previous run),
    for every workload and every [contextSwitchOverhead]: after any number of
    passes of the loop the context-switch counter, and the count reported by
    the metrics, is 0 and no process is recorded as current, so that every
    dispatch calls [contextSwitch] with a null [from]; and the run is, pass
    for pass and in its result, the run with overhead 0 with only the stored
    overhead changed, so the overhead never advances the clock. *)
Theorem dispatch_never_charges_a_switch (o : Z) (n : nat) :
  (∀ s0 : RoundRobin.RoundRobinScheduler,
     idle_base (RoundRobin.base s0) →
     result_holds (λ s, reports_no_switch (RoundRobin.base s))
       (after_passes RoundRobin.body n (RoundRobin.start s0))
     ∧ after_passes RoundRobin.body n
         (RoundRobin.start (rr_with_overhead o s0))
       = result_map (rr_with_overhead o)
           (after_passes RoundRobin.body n (RoundRobin.start s0))
     ∧ RoundRobin.schedule n (rr_with_overhead o s0)
       = (result_map (rr_with_overhead o) <$> RoundRobin.schedule n s0))
  ∧ (∀ s0 : MultilevelQueue.MultilevelQueueScheduler,
       idle_base (MultilevelQueue.base s0) →
       result_holds (λ s, reports_no_switch (MultilevelQueue.base s))
         (after_passes MultilevelQueue.body n (MultilevelQueue.start s0))
       ∧ after_passes MultilevelQueue.body n
           (MultilevelQueue.start (mlq_with_overhead o s0))
         = result_map (mlq_with_overhead o)
             (after_passes MultilevelQueue.body n (MultilevelQueue.start s0))
       ∧ MultilevelQueue.schedule n (mlq_with_overhead o s0)
         = (result_map (mlq_with_overhead o)
              <$> MultilevelQueue.schedule n s0))
  ∧ (∀ s0 : Feedback.MultilevelFeedbackQueueScheduler,
       idle_base (Feedback.base s0) →
       result_holds (λ s, reports_no_switch (Feedback.base s))
         (after_passes Feedback.body n (Feedback.start s0))
       ∧ after_passes Feedback.body n
           (Feedback.start (mlfq_with_overhead o s0))
         = result_map (mlfq_with_overhead o)
             (after_passes Feedback.body n (Feedback.start s0))
       ∧ Feedback.schedule n (mlfq_with_overhead o s0)
         = (result_map (mlfq_with_overhead o) <$> Feedback.schedule n s0)).
Proof.
  split; [|split]; intros s0 Hidle.
  - destruct (passes_commute RoundRobin.body (rr_with_overhead o)
                (λ s, idle_base (RoundRobin.base s))) with n (RoundRobin.start s0)
      as (H1 & H2 & H3); [|exact Hidle|].
    { intros s [Hc Hp]. destruct (rr_body_overhead o s Hp) as [He Hr].
      split; [exact He|]. eapply result_holds_impl; [|exact Hr].
      intros s' [Hc' Hp']. split; [congruence|exact Hp']. }
    split; [|split; [exact H1|exact H3]].
    eapply result_holds_impl; [|exact H2].
    intros s. apply idle_reports_no_switch.
  - destruct (passes_commute MultilevelQueue.body (mlq_with_overhead o)
                (λ s, idle_base (MultilevelQueue.base s)))
      with n (MultilevelQueue.start s0) as (H1 & H2 & H3); [|exact Hidle|].
    { intros s [Hc Hp]. destruct (mlq_body_overhead o s Hp) as [He Hr].
      split; [exact He|]. eapply result_holds_impl; [|exact Hr].
      intros s' [Hc' Hp']. split; [congruence|exact Hp']. }
    split; [|split; [exact H1|exact H3]].
    eapply result_holds_impl; [|exact H2].
    intros s. apply idle_reports_no_switch.
  - destruct (passes_commute Feedback.body (mlfq_with_overhead o)
                (λ s, idle_base (Feedback.base s)))
      with n (Feedback.start s0) as (H1 & H2 & H3); [|exact Hidle|].
    { intros s [Hc Hp]. destruct (mlfq_body_overhead o s Hp) as [He Hr].
      split; [exact He|]. eapply result_holds_impl; [|exact Hr].
      intros s' [Hc' Hp']. split; [congruence|exact Hp']. }
    split; [|split; [exact H1|exact H3]].
    eapply result_holds_impl; [|exact H2].
    intros s. apply idle_reports_no_switch.
Qed.

Lemma dispatch_never_charges_a_switch_witness :
  (result_holds (λ s, reports_no_switch (RoundRobin.base s))
     (after_passes RoundRobin.body 6 (RoundRobin.start rr_arrivals))
   ∧ RoundRobin.schedule 6 (rr_with_overhead 1 rr_arrivals)
     = (result_map (rr_with_overhead 1) <$> RoundRobin.schedule 6 rr_arrivals))
  ∧ (result_holds (λ s, reports_no_switch (MultilevelQueue.base s))
       (after_passes MultilevelQueue.body 6
          (MultilevelQueue.start Workloads.mlq_three))
     ∧ MultilevelQueue.schedule 6 (mlq_with_overhead 1 Workloads.mlq_three)
       = (result_map (mlq_with_overhead 1)
            <$> MultilevelQueue.schedule 6 Workloads.mlq_three))
  ∧ (result_holds (λ s, reports_no_switch (Feedback.base s))
       (after_passes Feedback.body 6 (Feedback.start feedback_three_levels))
     ∧ Feedback.schedule 6 (mlfq_with_overhead 1 feedback_three_levels)
       = (result_map (mlfq_with_overhead 1)
            <$> Feedback.schedule 6 feedback_three_levels)).
Proof.
  destruct (dispatch_never_charges_a_switch 1 6) as (Hrr & Hmlq & Hmlfq).
  split; [|split].
  - destruct (Hrr rr_arrivals) as (H1 & _ & H3);
      [split; reflexivity|]. split; [exact H1|exact H3].
  - destruct (Hmlq Workloads.mlq_three) as (H1 & _ & H3);
      [split; reflexivity|]. split; [exact H1|exact H3].
  - destruct (Hmlfq feedback_three_levels) as (H1 & _ & H3);
      [split; reflexivity|]. split; [exact H1|exact H3].
Defined.

(** ** Round Robin with a non-positive quantum *)


Lemma rr_enqueueReady_keep (P : Process → Prop) (skip : ProcessPtr) (now : Z)
    (ps : list Process) (q : list nat) :
  (∀ p, P p → P (setLastScheduledTime now p)) →
  Forall P ps → Forall P (RoundRobin.enqueueReady skip now ps q).1.
Proof.
  intros Hset. unfold RoundRobin.enqueueReady.
  generalize (seq 0 (length ps)) as idx. intros idx. revert ps q.
  induction idx as [|i idx IH]; intros ps q Hps; cbn [fold_left]; [exact Hps|].
  unfold RoundRobin.enqueueOne at 2. cbn [fst snd].
  destruct (ps !! i) as [p|]; [|by apply IH].
  destruct (_ && _); [|by apply IH].
  destruct (inQueue i q); [by apply IH|].
  apply IH. by apply Forall_alter_keep.
Qed.








(** * Further properties of the process record and of the base class *)

(** ** [Process::execute] *)

(** A request may be split: for non-negative amounts on a process whose
    remaining time is not negative, executing [a] and then [b] consumes in
    total what executing [a + b] consumes, and leaves the same record. *)
Theorem execute_split (a b : Z) (p : Process) :
  0 <= a → 0 <= b → 0 <= remainingTime p →
  (execute a p).1 + (execute b (execute a p).2).1 = (execute (a + b) p).1
  ∧ (execute b (execute a p).2).2 = (execute (a + b) p).2.
Proof.
  intros Ha Hb Hr. destruct p as [? ? ? ? r ? ? ? ? ? ? ? ? ?].
  unfold execute, set_remainingTime. simpl in *. split; [lia|].
  f_equal. lia.
Qed.

Lemma execute_split_witness :
  let p := Process_new 1 "P1" 0 5 0 in
  (execute 2 p).1 + (execute 4 (execute 2 p).2).1 = (execute 6 p).1
  ∧ (execute 4 (execute 2 p).2).2 = (execute 6 p).2.
Proof.
  intros p. apply (execute_split 2 4 p); simpl; lia.
Defined.

(** ** [Scheduler::admitArrivingProcesses] *)





Lemma admit_leaves_late_new (s : Scheduler) :
  Forall (λ p, state p = NEW → currentTime s < arrivalTime p)
         (processes (admitArrivingProcesses s).2).
Proof.
  unfold admitArrivingProcesses. cbn [snd processes set_processes].
  apply Forall_fmap, Forall_forall. intros p _. simpl.
  destruct (arrives (currentTime s) p) eqn:E.
  - unfold setState; simpl. discriminate.
  - unfold arrives, state_is in E. intros Hn.
    rewrite bool_decide_eq_true_2 in E by done. simpl in E. lia.
Qed.


(** ** [Scheduler::updateWaitingTimes] *)

(** Charging [a] and then [b] is charging [a + b]; charging 0 changes
    nothing; and only the waiting time of [READY] processes is touched. *)
Theorem updateWaitingTimes_adds (a b : Z) (s : Scheduler) :
  updateWaitingTimes b (updateWaitingTimes a s) = updateWaitingTimes (a + b) s
  ∧ updateWaitingTimes 0 s = s
  ∧ ∀ i p, processes s !! i = Some p →
      processes (updateWaitingTimes a s) !! i
      = Some (if bool_decide (state p = READY)
              then addWaitingTime a p else p).
Proof.
  unfold updateWaitingTimes, set_processes. destruct s as [ps t o c cp].
  cbn [processes currentTime contextSwitchOverhead totalContextSwitches
       currentProcess].
  split; [|split].
  - f_equal. rewrite <- list_fmap_compose. apply list_fmap_ext.
    intros i p _. simpl. unfold state_is.
    destruct p as [? ? ? ? ? ? st ? ? w ? ? ? ?].
    unfold addWaitingTime. simpl.
    destruct (bool_decide (st = READY)) eqn:E; simpl; rewrite ?E;
      [f_equal; lia|reflexivity].
  - f_equal. rewrite <- (list_fmap_id ps) at 2. apply list_fmap_ext.
    intros i p _. simpl. destruct (state_is READY p); [|done].
    destruct p. unfold addWaitingTime. simpl. f_equal. lia.
  - intros i p Hp. rewrite list_lookup_fmap, Hp. reflexivity.
Qed.

(** ** [Scheduler::calculateMetrics] *)

Lemma filter_none (f : Process → bool) (ps : list Process) :
  Forall (λ p, f p = false) ps → List.filter f ps = [].
Proof.
  induction 1 as [|p ps Hp _ IH]; [done|]. cbn [List.filter]. by rewrite Hp.
Qed.

(** With no [TERMINATED] process (an empty scheduler, or a run that finished
    nothing) the averages, the utilization and the throughput are 0, and the
    total time reported is [0 - INT_MAX]: the maximum of the completion times
    starts at 0 and the minimum of the arrival times at [INT_MAX]. *)
Theorem calculateMetrics_without_terminated (s : Scheduler) :
  Forall (λ p, state p ≠ TERMINATED) (processes s) →
  Scheduler_calculateMetrics s
  = mkMetrics (Qmake 0 1) (Qmake 0 1) (Qmake 0 1) (Qmake 0 1) (Qmake 0 1)
              (totalContextSwitches s) (-2147483647).
Proof.
  intros H. unfold Scheduler_calculateMetrics.
  rewrite filter_none; [reflexivity|].
  eapply Forall_impl; [exact H|]. intros p Hp. by apply bool_decide_eq_false.
Qed.

Lemma calculateMetrics_without_terminated_witness :
  Scheduler_calculateMetrics
    (addProcess (Process_new 1 "P1" 0 4 0) (Scheduler_new 2))
  = mkMetrics (Qmake 0 1) (Qmake 0 1) (Qmake 0 1) (Qmake 0 1) (Qmake 0 1)
              0 (-2147483647).
Proof.
  apply (calculateMetrics_without_terminated
           (addProcess (Process_new 1 "P1" 0 4 0) (Scheduler_new 2))).
  repeat constructor. discriminate.
Defined.

(** ** The searches for the earliest and the next arrival *)

Lemma fold_min_arrivals (c : Process → bool) (ps : list Process) (m0 : Z) :
  let r := fold_left (λ m p, if c p then Z.min m (arrivalTime p) else m)
                     ps m0 in
  r <= m0
  ∧ Forall (λ p, c p = true → r <= arrivalTime p) ps
  ∧ (r = m0 ∨ ∃ p, p ∈ ps ∧ c p = true ∧ arrivalTime p = r).
Proof.
  cbv zeta. revert m0.
  induction ps as [|p ps IH]; intros m0; cbn [fold_left].
  { split; [lia|]. split; [constructor|by left]. }
  set (m1 := if c p then Z.min m0 (arrivalTime p) else m0).
  destruct (IH m1) as (H1 & H2 & H3).
  assert (m1 <= m0) as Hm by (unfold m1; destruct (c p); lia).
  split; [lia|]. split.
  - constructor; [|exact H2]. intros Hc.
    assert (m1 <= arrivalTime p) by (unfold m1; rewrite Hc; lia). lia.
  - destruct H3 as [H3|(q & Hq & Hc & Ha)].
    + rewrite H3. unfold m1. destruct (c p) eqn:Hc; [|by left].
      destruct (Z.min_spec m0 (arrivalTime p)) as [[_ ->]|[_ ->]];
        [by left|].
      right. exists p. split; [apply list_elem_of_here|done].
    + right. exists q. split; [by apply list_elem_of_further|done].
Qed.

(** [earliestArrival] is [INT_MAX] for an empty vector; otherwise it is at
    most [INT_MAX], a lower bound of all arrival times, and either
    [INT_MAX] itself or the arrival time of one of the processes. *)
Theorem earliestArrival_spec (ps : list Process) :
  earliestArrival [] = INT_MAX
  ∧ earliestArrival ps <= INT_MAX
  ∧ Forall (λ p, earliestArrival ps <= arrivalTime p) ps
  ∧ (earliestArrival ps = INT_MAX
     ∨ ∃ p, p ∈ ps ∧ arrivalTime p = earliestArrival ps).
Proof.
  pose proof (fold_min_arrivals (λ _, true) ps INT_MAX) as H.
  cbv zeta in H. destruct H as (H1 & H2 & H3).
  split; [reflexivity|]. split; [exact H1|]. split.
  - eapply Forall_impl; [exact H2|]. intros p Hp. by apply Hp.
  - destruct H3 as [H3|(p & Hp & _ & Ha)]; [by left|right; eauto].
Qed.

(** After admission, a next arrival that is found lies strictly after the
    clock and is the arrival time of a [NEW] process, so that the idle jump
    to it moves the clock forward and the admission that follows admits at
    least one process; and when none is found, no [NEW] process arrives
    before [INT_MAX]. *)
Theorem idle_jump_moves_clock_forward (s : Scheduler) :
  let b := (admitArrivingProcesses s).2 in
  let next := nextArrival (processes b) in
  (next ≠ INT_MAX →
   currentTime s < next
   ∧ (∃ p, p ∈ processes b ∧ state p = NEW ∧ arrivalTime p = next)
   ∧ 1 <= (admitArrivingProcesses (set_currentTime next b)).1)
  ∧ (next = INT_MAX →
     Forall (λ p, state p = NEW → INT_MAX <= arrivalTime p) (processes b)).
Proof.
  intros b next.
  pose proof (fold_min_arrivals (state_is NEW) (processes b) INT_MAX) as H.
  cbv zeta in H. destruct H as (H1 & H2 & H3).
  fold (nextArrival (processes b)) in H1, H2, H3. fold next in H1, H2, H3.
  pose proof (admit_leaves_late_new s) as Hnew.
  fold b in Hnew. split.
  - intros Hne. destruct H3 as [H3|(p & Hp & Hc & Ha)]; [done|].
    apply bool_decide_eq_true in Hc.
    assert (currentTime s < arrivalTime p) as Hlt.
    { rewrite Forall_forall in Hnew. by apply Hnew. }
    split; [lia|]. split; [by exists p|].
    unfold admitArrivingProcesses.
    cbn [fst processes set_currentTime currentTime].
    apply list_elem_of_In in Hp.
    assert (In p (List.filter (arrives next) (processes b))) as Hin.
    { apply filter_In. split; [exact Hp|]. unfold arrives, state_is.
      rewrite bool_decide_eq_true_2 by done. simpl. lia. }
    destruct (List.filter (arrives next) (processes b)); [done|].
    cbn [length]. lia.
  - intros He. rewrite He in H2. eapply Forall_impl; [exact H2|].
    intros p Hp Hs. apply Hp. by apply bool_decide_eq_true.
Qed.

Lemma idle_jump_moves_clock_forward_witness :
  let s := addProcess (Process_new 2 "P2" 7 1 0)
             (addProcess (Process_new 1 "P1" 3 2 0) (Scheduler_new 0)) in
  let b := (admitArrivingProcesses s).2 in
  currentTime s < nextArrival (processes b)
  ∧ 1 <= (admitArrivingProcesses
            (set_currentTime (nextArrival (processes b)) b)).1.
Proof.
  intros s b.
  destruct (idle_jump_moves_clock_forward s) as [H _].
  destruct H as (H1 & _ & H3); [vm_compute; discriminate|].
  split; [exact H1|exact H3].
Defined.

(** * Further properties of the Priority scheduler *)

Lemma PriorityComparator_precedes (a b : Process) :
  Priority.PriorityComparator a b = true ↔ precedes b a.
Proof.
  unfold Priority.PriorityComparator, precedes.
  destruct (priority a =? priority b) eqn:E; simpl; lia.
Qed.

Lemma PriorityComparator_false (a b : Process) :
  Priority.PriorityComparator a b = false ↔ ¬ precedes b a.
Proof.
  rewrite <- PriorityComparator_precedes.
  destruct (Priority.PriorityComparator a b); split; congruence.
Qed.

(** [PriorityComparator] is a strict weak ordering, as [std::priority_queue]
    requires: irreflexive, asymmetric, transitive, with a transitive
    incomparability; it orders [a] below [b] exactly when [b] has the lower
    priority value, or the same value and the earlier arrival. *)
Theorem PriorityComparator_strict_weak_order :
  (∀ a, Priority.PriorityComparator a a = false)
  ∧ (∀ a b, Priority.PriorityComparator a b = true →
            Priority.PriorityComparator b a = false)
  ∧ (∀ a b c, Priority.PriorityComparator a b = true →
              Priority.PriorityComparator b c = true →
              Priority.PriorityComparator a c = true)
  ∧ (∀ a b c,
       Priority.PriorityComparator a b = false →
       Priority.PriorityComparator b a = false →
       Priority.PriorityComparator b c = false →
       Priority.PriorityComparator c b = false →
       Priority.PriorityComparator a c = false
       ∧ Priority.PriorityComparator c a = false)
  ∧ (∀ a b, Priority.PriorityComparator a b = true ↔ precedes b a).
Proof.
  split; [|split; [|split; [|split]]].
  - intros a. apply PriorityComparator_false. unfold precedes. lia.
  - intros a b H. apply PriorityComparator_precedes in H.
    apply PriorityComparator_false. unfold precedes in *. lia.
  - intros a b c H1 H2. apply PriorityComparator_precedes in H1, H2.
    apply PriorityComparator_precedes. unfold precedes in *. lia.
  - intros a b c H1 H2 H3 H4.
    apply PriorityComparator_false in H1, H2, H3, H4.
    split; apply PriorityComparator_false; unfold precedes in *; lia.
  - apply PriorityComparator_precedes.
Qed.

Lemma PriorityComparator_strict_weak_order_witness :
  let a := Process_new 1 "P1" 0 5 3 in
  let b := Process_new 2 "P2" 1 3 1 in
  let c := Process_new 3 "P3" 2 2 0 in
  Priority.PriorityComparator b a = false
  ∧ Priority.PriorityComparator a c = true.
Proof.
  intros a b c.
  destruct PriorityComparator_strict_weak_order as (_ & H2 & H3 & _).
  split.
  - apply (H2 a b). reflexivity.
  - apply (H3 a b c); reflexivity.
Defined.

(** The fold behind [top], started from a current best [r0]. *)
Lemma top_fold_best (ps : list Process) (q : list nat) (r0 : nat)
    (p0 : Process) :
  ps !! r0 = Some p0 →
  Forall (λ i, is_Some (ps !! i)) q →
  ∃ r pr,
    fold_left
      (λ best i,
         match best with
         | None => Some i
         | Some r =>
             match ps !! r, ps !! i with
             | Some pr, Some pi =>
                 if Priority.PriorityComparator pr pi then Some i else best
             | _, _ => best
             end
         end) q (Some r0) = Some r
    ∧ ps !! r = Some pr
    ∧ (r = r0 ∨ r ∈ q)
    ∧ ¬ precedes p0 pr
    ∧ Forall (λ i, ∀ pi, ps !! i = Some pi → ¬ precedes pi pr) q.
Proof.
  revert r0 p0. induction q as [|i q IH]; intros r0 p0 H0 Hq;
    cbn [fold_left].
  { exists r0, p0. split; [done|]. split; [done|]. split; [by left|].
    split; [unfold precedes; lia|constructor]. }
  inversion Hq as [|? ? [pi Hi] Hq']; subst. rewrite H0, Hi.
  destruct (Priority.PriorityComparator p0 pi) eqn:E.
  - apply PriorityComparator_precedes in E.
    destruct (IH i pi Hi Hq') as (r & pr & Hf & Hr & Hin & Hb & Hall).
    exists r, pr. split; [exact Hf|]. split; [exact Hr|].
    split; [right; destruct Hin as [->|Hin];
            [apply list_elem_of_here|by apply list_elem_of_further]|].
    split; [unfold precedes in *; lia|].
    constructor; [|exact Hall]. intros pi' Hi'. by simplify_eq.
  - apply PriorityComparator_false in E.
    destruct (IH r0 p0 H0 Hq') as (r & pr & Hf & Hr & Hin & Hb & Hall).
    exists r, pr. split; [exact Hf|]. split; [exact Hr|].
    split; [destruct Hin as [->|Hin];
            [by left|right; by apply list_elem_of_further]|].
    split; [exact Hb|].
    constructor; [|exact Hall]. intros pi' Hi'. simplify_eq.
    unfold precedes in *. lia.
Qed.

Lemma readyPointers_elem (ps : list Process) (i : nat) :
  i ∈ Priority.readyPointers ps
  ↔ ∃ p, ps !! i = Some p ∧ state p = READY.
Proof.
  unfold Priority.readyPointers. rewrite list_elem_of_In, filter_In.
  rewrite <- list_elem_of_In, elem_of_seq. split.
  - intros [_ H]. destruct (ps !! i) as [p|]; [|done].
    exists p. split; [done|]. by apply bool_decide_eq_true in H.
  - intros (p & Hp & Hs). split.
    + apply lookup_lt_Some in Hp. lia.
    + rewrite Hp. by apply bool_decide_eq_true.
Qed.

(** The choice of the Priority scheduler: with no [READY] process the
    rebuilt queue has no top; otherwise the top is a [READY] process that no
    other [READY] process precedes (none has a lower priority value, nor the
    same value and an earlier arrival). *)
Theorem top_of_ready_is_best (ps : list Process) :
  match Priority.top ps (Priority.readyPointers ps) with
  | None => Forall (λ p, state p ≠ READY) ps
  | Some r =>
      ∃ pr, ps !! r = Some pr ∧ state pr = READY
        ∧ ∀ i p, ps !! i = Some p → state p = READY → ¬ precedes p pr
  end.
Proof.
  unfold Priority.top.
  destruct (Priority.readyPointers ps) as [|i q] eqn:Eq; cbn [fold_left].
  - apply Forall_lookup. intros i p Hp Hs.
    assert (i ∈ Priority.readyPointers ps) as Hin
      by (apply readyPointers_elem; eauto).
    rewrite Eq in Hin. by apply elem_of_nil in Hin.
  - assert (∀ j, j ∈ i :: q → ∃ p, ps !! j = Some p ∧ state p = READY) as Hq.
    { intros j Hj. apply readyPointers_elem. by rewrite Eq. }
    destruct (Hq i) as (pi & Hi & Hsi); [apply list_elem_of_here|].
    destruct (top_fold_best ps q i pi Hi) as (r & pr & -> & Hr & Hin & Hb & Hall).
    { apply Forall_forall. intros j Hj.
      destruct (Hq j) as (p & -> & _); [by apply list_elem_of_further|done]. }
    exists pr. split; [exact Hr|]. split.
    + destruct (Hq r) as (p & Hp & Hs); [|by simplify_eq].
      destruct Hin as [->|Hin];
        [apply list_elem_of_here|by apply list_elem_of_further].
    + intros j p Hp Hs.
      assert (j ∈ i :: q) as Hj by (rewrite <- Eq; apply readyPointers_elem; eauto).
      apply elem_of_cons in Hj as [->|Hj]; [by simplify_eq|].
      rewrite Forall_forall in Hall. by apply (Hall j).
Qed.

(** * Further properties of the multilevel queue *)

Lemma assign_keys {V : Type} (k : Z) (v : V) (m : list (Z * V)) (k' : Z) :
  k' ∈ (MultilevelQueue.assign k v m).*1 ↔ k' = k ∨ k' ∈ m.*1.
Proof.
  induction m as [|[k0 v0] m IH]; cbn [MultilevelQueue.assign].
  { rewrite list_elem_of_fmap. split.
    - intros (x & -> & Hx). apply list_elem_of_singleton in Hx as ->. by left.
    - intros [->|H]; [|by apply elem_of_nil in H].
      exists (k, v). split; [done|apply list_elem_of_here]. }
  destruct (k <? k0) eqn:E1; [|destruct (k =? k0) eqn:E2].
  - rewrite fmap_cons, elem_of_cons. cbn [fst]. tauto.
  - apply Z.eqb_eq in E2 as ->. rewrite !fmap_cons, !elem_of_cons.
    cbn [fst]. tauto.
  - rewrite !fmap_cons, !elem_of_cons, IH. cbn [fst]. tauto.
Qed.

Lemma assign_sorted {V : Type} (k : Z) (v : V) (m : list (Z * V)) :
  StronglySorted Z.lt m.*1 →
  StronglySorted Z.lt (MultilevelQueue.assign k v m).*1.
Proof.
  induction m as [|[k0 v0] m IH]; cbn [MultilevelQueue.assign]; intros Hs.
  { repeat constructor. }
  rewrite fmap_cons in Hs. cbn [fst] in Hs.
  apply StronglySorted_inv in Hs as [Hs Hall].
  destruct (k <? k0) eqn:E1; [|destruct (k =? k0) eqn:E2].
  - rewrite !fmap_cons. cbn [fst].
    constructor; [by constructor|].
    constructor; [lia|]. eapply Forall_impl; [exact Hall|].
    intros x Hx. simpl in Hx. lia.
  - apply Z.eqb_eq in E2 as ->. rewrite fmap_cons. cbn [fst].
    by constructor.
  - rewrite fmap_cons. cbn [fst]. constructor; [by apply IH|].
    apply Forall_forall. intros x Hx. apply assign_keys in Hx as [->|Hx].
    + lia.
    + rewrite Forall_forall in Hall. by apply Hall.
Qed.

Lemma assign_find {V : Type} (k : Z) (v : V) (m : list (Z * V)) (k' : Z) :
  List.find (λ kv, kv.1 =? k') (MultilevelQueue.assign k v m)
  = if bool_decide (k' = k) then Some (k, v)
    else List.find (λ kv, kv.1 =? k') m.
Proof.
  induction m as [|[k0 v0] m IH]; cbn [MultilevelQueue.assign List.find fst].
  { case_bool_decide as H; [subst; by rewrite Z.eqb_refl|].
    assert ((k =? k') = false) as -> by lia. done. }
  destruct (k <? k0) eqn:E1; [|destruct (k =? k0) eqn:E2];
    cbn [List.find fst].
  - case_bool_decide as H; [subst; by rewrite Z.eqb_refl|].
    assert ((k =? k') = false) as -> by lia. done.
  - apply Z.eqb_eq in E2 as ->.
    case_bool_decide as H; [subst; by rewrite Z.eqb_refl|].
    assert ((k0 =? k') = false) as -> by lia. done.
  - rewrite IH. case_bool_decide as H; [|done]. subst.
    assert ((k0 =? k) = false) as -> by lia. done.
Qed.

(** [addQueueConfig]: the descriptor is the one found afterwards under its
    priority, replacing any earlier descriptor of that priority; the queue of
    that priority is emptied (processes queued there are dropped); the other
    descriptors and queues are as before; the keys are the old keys and the
    new one, and stay in ascending order. *)
Theorem addQueueConfig_spec (c : MultilevelQueue.QueueConfig)
    (s : MultilevelQueue.MultilevelQueueScheduler) :
  let s' := MultilevelQueue.addQueueConfig c s in
  MultilevelQueue.config_at (MultilevelQueue.qpriority c)
    (MultilevelQueue.queueConfigs s') = c
  ∧ MultilevelQueue.queue_at (MultilevelQueue.qpriority c)
      (MultilevelQueue.queues s') = []
  ∧ (∀ k, k ≠ MultilevelQueue.qpriority c →
       MultilevelQueue.config_at k (MultilevelQueue.queueConfigs s')
       = MultilevelQueue.config_at k (MultilevelQueue.queueConfigs s)
       ∧ MultilevelQueue.queue_at k (MultilevelQueue.queues s')
         = MultilevelQueue.queue_at k (MultilevelQueue.queues s))
  ∧ (∀ k, k ∈ config_keys (MultilevelQueue.queueConfigs s')
          ↔ k = MultilevelQueue.qpriority c
            ∨ k ∈ config_keys (MultilevelQueue.queueConfigs s))
  ∧ (keys_ascending (MultilevelQueue.queueConfigs s) →
     keys_ascending (MultilevelQueue.queueConfigs s'))
  ∧ MultilevelQueue.base s' = MultilevelQueue.base s.
Proof.
  intros s'. subst s'. unfold MultilevelQueue.addQueueConfig.
  cbn [MultilevelQueue.queueConfigs MultilevelQueue.queues
       MultilevelQueue.base].
  unfold MultilevelQueue.config_at, MultilevelQueue.queue_at.
  split; [|split; [|split; [|split; [|split]]]].
  - rewrite assign_find. by rewrite bool_decide_eq_true_2.
  - by rewrite lookup_insert_eq.
  - intros k Hk. rewrite assign_find, bool_decide_eq_false_2 by done.
    by rewrite lookup_insert_ne.
  - intros k. apply assign_keys.
  - apply assign_sorted.
  - reflexivity.
Qed.

Lemma addQueueConfig_spec_witness :
  keys_ascending (MultilevelQueue.queueConfigs Workloads.mlq_three)
  ∧ config_keys (MultilevelQueue.queueConfigs Workloads.mlq_three) = [0; 1; 2].
Proof.
  split; [|reflexivity].
  assert (∀ s, keys_ascending (MultilevelQueue.queueConfigs s) →
               ∀ c, keys_ascending
                      (MultilevelQueue.queueConfigs
                         (MultilevelQueue.addQueueConfig c s))) as Hadd.
  { intros s Hs c. by apply (addQueueConfig_spec c s). }
  unfold Workloads.mlq_three, MultilevelQueue.add.
  cbn [MultilevelQueue.queueConfigs].
  do 3 apply Hadd. constructor.
Defined.







(** * Further properties of the feedback queue *)

(** The constructor fails exactly for a negative number of levels;
    otherwise it builds that many empty queues and the quanta 2, 4, 6, ...;
    [setTimeQuantum] with an index outside [0 .. numQueues-1] changes
    nothing, and inside it replaces that quantum only; the lengths of the
    two vectors stay equal to [numQueues]. *)
Theorem feedback_configuration (n : Z) (aging : bool) (threshold overhead : Z) :
  (n < 0 → Feedback.new n aging threshold overhead = None)
  ∧ (0 <= n →
     ∃ s, Feedback.new n aging threshold overhead = Some s
       ∧ Feedback.numQueues s = n
       ∧ Z.of_nat (length (Feedback.queues s)) = n
       ∧ Z.of_nat (length (Feedback.timeQuantums s)) = n
       ∧ (∀ i : nat, Z.of_nat i < n →
            Feedback.queues s !! i = Some []
            ∧ Feedback.timeQuantums s !! i = Some (2 * (Z.of_nat i + 1)))
       ∧ processes (Feedback.base s) = [])
  ∧ (∀ (s : Feedback.MultilevelFeedbackQueueScheduler) (i q : Z),
       Z.of_nat (length (Feedback.timeQuantums s)) = Feedback.numQueues s →
       let s' := Feedback.setTimeQuantum i q s in
       Z.of_nat (length (Feedback.timeQuantums s')) = Feedback.numQueues s'
       ∧ Feedback.numQueues s' = Feedback.numQueues s
       ∧ Feedback.queues s' = Feedback.queues s
       ∧ (i < 0 ∨ Feedback.numQueues s <= i → s' = s)
       ∧ (0 <= i < Feedback.numQueues s →
          Feedback.timeQuantums s' !! Z.to_nat i = Some q
          ∧ ∀ j, j ≠ Z.to_nat i →
              Feedback.timeQuantums s' !! j = Feedback.timeQuantums s !! j)).
Proof.
  split; [|split].
  - intros Hn. unfold Feedback.new.
    by assert ((n <? 0) = true) as -> by lia.
  - intros Hn. unfold Feedback.new.
    assert ((n <? 0) = false) as -> by lia.
    eexists. split; [reflexivity|].
    cbn [Feedback.numQueues Feedback.queues Feedback.timeQuantums
         Feedback.base].
    split; [done|]. split; [rewrite length_replicate; lia|].
    split; [rewrite length_fmap, length_seq; lia|].
    split; [|done]. intros i Hi. split.
    + apply lookup_replicate_2. lia.
    + rewrite list_lookup_fmap, lookup_seq_lt by lia. reflexivity.
  - intros s i q Hlen s'. subst s'. unfold Feedback.setTimeQuantum.
    destruct ((0 <=? i) && (i <? Feedback.numQueues s)) eqn:E.
    + apply andb_prop in E as [E1 E2].
      cbn [Feedback.numQueues Feedback.queues Feedback.timeQuantums].
      split; [rewrite length_insert; exact Hlen|].
      split; [done|]. split; [done|]. split; [lia|]. intros _. split.
      * apply list_lookup_insert_eq. lia.
      * intros j Hj. by apply list_lookup_insert_ne.
    + split; [exact Hlen|]. split; [done|]. split; [done|].
      split; [done|]. intros H. apply andb_false_iff in E. lia.
Qed.

Lemma feedback_configuration_witness :
  ∃ s, Feedback.new 3 true 10 0 = Some s
    ∧ Feedback.timeQuantums s !! 2%nat = Some 6
    ∧ Feedback.timeQuantums (Feedback.setTimeQuantum 1 5 s) !! 1%nat = Some 5
    ∧ Feedback.setTimeQuantum 3 5 s = s.
Proof.
  destruct (feedback_configuration 3 true 10 0) as (_ & H2 & H3).
  destruct H2 as (s & Hs & Hn & _ & Hlen & Hq & _); [lia|].
  exists s. split; [exact Hs|]. split.
  - apply (Hq 2%nat). lia.
  - rewrite <- Hn in Hlen. destruct (H3 s 1 5 Hlen) as (_ & _ & _ & _ & Hin).
    destruct (H3 s 3 5 Hlen) as (_ & _ & _ & Hout & _).
    split; [apply Hin; lia|apply Hout; lia].
Defined.

Lemma promoteProcess_spec (pid : Z) (levels counters : gmap Z Z) :
  Feedback.read (Feedback.promoteProcess pid levels counters).1 pid
  = (if bool_decide (0 < Feedback.read levels pid)
     then Feedback.read levels pid - 1 else Feedback.read levels pid)
  ∧ Feedback.read (Feedback.promoteProcess pid levels counters).2 pid
    = (if bool_decide (0 < Feedback.read levels pid)
       then 0 else Feedback.read counters pid)
  ∧ (∀ k, k ≠ pid →
       Feedback.read (Feedback.promoteProcess pid levels counters).1 k
       = Feedback.read levels k
       ∧ Feedback.read (Feedback.promoteProcess pid levels counters).2 k
         = Feedback.read counters k).
Proof.
  unfold Feedback.promoteProcess. case_bool_decide as Hlt.
  - assert ((0 <? Feedback.read levels pid) = true) as -> by lia. simpl.
    rewrite !read_insert_eq. split; [done|]. split; [done|].
    intros k Hk. by rewrite !read_insert_ne.
  - assert ((0 <? Feedback.read levels pid) = false) as -> by lia. simpl.
    done.
Qed.

Lemma demoteProcess_others (n pid : Z) (levels counters : gmap Z Z) (k : Z) :
  k ≠ pid →
  Feedback.read (Feedback.demoteProcess n pid levels counters).1 k
  = Feedback.read levels k
  ∧ Feedback.read (Feedback.demoteProcess n pid levels counters).2 k
    = Feedback.read counters k.
Proof.
  intros Hk. unfold Feedback.demoteProcess.
  destruct (_ <? _); simpl; [|done]. by rewrite !read_insert_ne.
Qed.

(** Promotion and demotion move one process by one level and never leave
    [0 .. N-1]: a demotion at the last level and a promotion at level 0 change
    nothing; a move sets the counter to 0; the other processes are not
    touched; and a promotion undoes a demotion that moved (and the other way
    round). *)
Theorem promote_demote_levels (n pid : Z) (levels counters : gmap Z Z) :
  let L := Feedback.read levels pid in
  let d := Feedback.demoteProcess n pid levels counters in
  let u := Feedback.promoteProcess pid levels counters in
  Feedback.read d.1 pid = (if bool_decide (L < n - 1) then L + 1 else L)
  ∧ Feedback.read u.1 pid = (if bool_decide (0 < L) then L - 1 else L)
  ∧ (L < n - 1 → Feedback.read d.2 pid = 0)
  ∧ (0 < L → Feedback.read u.2 pid = 0)
  ∧ (n - 1 <= L → d = (levels, counters))
  ∧ (L <= 0 → u = (levels, counters))
  ∧ (∀ k, k ≠ pid →
       Feedback.read d.1 k = Feedback.read levels k
       ∧ Feedback.read u.1 k = Feedback.read levels k
       ∧ Feedback.read d.2 k = Feedback.read counters k
       ∧ Feedback.read u.2 k = Feedback.read counters k)
  ∧ (0 <= L < n - 1 →
     Feedback.read (Feedback.promoteProcess pid d.1 d.2).1 pid = L)
  ∧ (0 < L < n →
     Feedback.read (Feedback.demoteProcess n pid u.1 u.2).1 pid = L)
  ∧ (0 <= L < n →
     0 <= Feedback.read d.1 pid < n ∧ 0 <= Feedback.read u.1 pid < n).
Proof.
  intros L d u. subst L d u.
  destruct (demoteProcess_spec n pid levels counters) as (D1 & D2 & _).
  destruct (promoteProcess_spec pid levels counters) as (U1 & U2 & U3).
  split; [exact D1|]. split; [exact U1|].
  split; [intros H; by rewrite D2, bool_decide_eq_true_2|].
  split; [intros H; by rewrite U2, bool_decide_eq_true_2|].
  split.
  { intros H. unfold Feedback.demoteProcess.
    by assert ((Feedback.read levels pid <? n - 1) = false) as -> by lia. }
  split.
  { intros H. unfold Feedback.promoteProcess.
    by assert ((0 <? Feedback.read levels pid) = false) as -> by lia. }
  split.
  { intros k Hk. destruct (demoteProcess_others n pid levels counters k Hk).
    destruct (U3 k Hk). done. }
  split.
  { intros H.
    destruct (promoteProcess_spec pid
                (Feedback.demoteProcess n pid levels counters).1
                (Feedback.demoteProcess n pid levels counters).2) as (P1 & _).
    rewrite P1, D1. repeat case_bool_decide; lia. }
  split.
  { intros H.
    destruct (demoteProcess_spec n pid
                (Feedback.promoteProcess pid levels counters).1
                (Feedback.promoteProcess pid levels counters).2) as (P1 & _).
    rewrite P1, U1. repeat case_bool_decide; lia. }
  intros H. rewrite D1, U1. repeat case_bool_decide; lia.
Qed.

Lemma promote_demote_levels_witness :
  let levels : gmap Z Z := <[7 := 1]> ∅ in
  let counters : gmap Z Z := <[7 := 4]> ∅ in
  Feedback.read
    (Feedback.promoteProcess 7
       (Feedback.demoteProcess 3 7 levels counters).1
       (Feedback.demoteProcess 3 7 levels counters).2).1 7 = 1
  ∧ Feedback.read (Feedback.demoteProcess 3 7 levels counters).2 7 = 0.
Proof.
  intros levels counters.
  destruct (promote_demote_levels 3 7 levels counters)
    as (_ & _ & H3 & _ & _ & _ & _ & H8 & _).
  split; [apply H8|apply H3]; vm_compute; split; congruence.
Defined.

(** * What a run leaves untouched *)

Lemma identity_of_stable : stable_view identity_of.
Proof. repeat split. Qed.

Lemma workload_of_stable : stable_view workload_of.
Proof. repeat split. Qed.

Section Stable.
Context {A : Type} (f : Process → A) (Hf : stable_view f).

Lemma stable_execute (q : Z) (p : Process) : f (execute q p).2 = f p.
Proof. unfold execute. cbn [snd]. apply Hf. Qed.

Lemma stable_finish (now : Z) (p : Process) : f (finish now p) = f p.
Proof.
  destruct Hf as (_ & H2 & _ & H4 & _ & _ & _ & H8).
  unfold finish. by rewrite H2, H8, H4.
Qed.

Lemma stable_mark_running (now : Z) (p : Process) :
  f (mark_running now p) = f p.
Proof.
  destruct Hf as (_ & H2 & H3 & _ & _ & H6 & _).
  unfold mark_running. destruct (firstSchedule _); by rewrite ?H6, ?H3, ?H2.
Qed.

Lemma stable_demote_if_running (p : Process) : f (demote_if_running p) = f p.
Proof.
  destruct Hf as (_ & H2 & _).
  unfold demote_if_running. destruct (state_is _ _); by rewrite ?H2.
Qed.

Lemma fmap_fmap_keep (g : Process → Process) (l : list Process) :
  (∀ p, f (g p) = f p) → f <$> (g <$> l) = f <$> l.
Proof.
  intros Hg. rewrite <- list_fmap_compose. apply list_fmap_ext.
  intros i p _. apply Hg.
Qed.

Lemma fmap_alter_keep (g : Process → Process) (i : nat) (l : list Process) :
  (∀ p, f (g p) = f p) → f <$> alter g i l = f <$> l.
Proof.
  intros Hg. apply list_eq. intros j. rewrite !list_lookup_fmap.
  destruct (decide (i = j)) as [->|Hne].
  - rewrite list_lookup_alter_eq. destruct (l !! j); simpl; by rewrite ?Hg.
  - by rewrite list_lookup_alter_ne.
Qed.

Lemma fmap_insert_keep (i : nat) (x p : Process) (l : list Process) :
  l !! i = Some p → f x = f p → f <$> <[i:=x]> l = f <$> l.
Proof.
  intros Hl Hx. rewrite list_insert_alter. apply list_eq. intros j.
  rewrite !list_lookup_fmap.
  destruct (decide (i = j)) as [->|Hne].
  - rewrite list_lookup_alter_eq, Hl. simpl. by rewrite Hx.
  - by rewrite list_lookup_alter_ne.
Qed.

Lemma fmap_imap_keep (g : nat → Process → Process) (l : list Process) :
  (∀ i p, f (g i p) = f p) → f <$> imap g l = f <$> l.
Proof.
  intros Hg. apply list_eq. intros j.
  rewrite !list_lookup_fmap, list_lookup_imap.
  destruct (l !! j); simpl; by rewrite ?Hg.
Qed.

Lemma stable_update_at (ptr : ProcessPtr) (g : Process → Process)
    (l : list Process) :
  (∀ p, f (g p) = f p) → f <$> update_at ptr g l = f <$> l.
Proof. intros Hg. destruct ptr; [by apply fmap_alter_keep|done]. Qed.

Lemma stable_admit (b : Scheduler) :
  f <$> processes (admitArrivingProcesses b).2 = f <$> processes b.
Proof.
  unfold admitArrivingProcesses. cbn [snd processes set_processes].
  apply fmap_fmap_keep. intros p. destruct (arrives _ _); [apply Hf|done].
Qed.

Lemma stable_updateWaitingTimes (t : Z) (b : Scheduler) :
  f <$> processes (updateWaitingTimes t b) = f <$> processes b.
Proof.
  unfold updateWaitingTimes. cbn [processes set_processes].
  apply fmap_fmap_keep. intros p. destruct (state_is _ _); [apply Hf|done].
Qed.

Lemma stable_contextSwitch (from to : ProcessPtr) (b : Scheduler) :
  f <$> processes (contextSwitch from to b) = f <$> processes b.
Proof.
  rewrite contextSwitch_processes.
  rewrite stable_update_at by apply stable_mark_running.
  apply stable_update_at, stable_demote_if_running.
Qed.

Lemma stable_chargeWaiting (r : ProcessPtr) (t : Z) (l : list Process) :
  f <$> chargeWaiting r t l = f <$> l.
Proof.
  apply fmap_imap_keep. intros i p. destruct (_ && _); [apply Hf|done].
Qed.

Lemma stable_slice (i : nat) (p : Process) (q e : Z) (l : list Process) :
  l !! i = Some p →
  f <$> chargeWaiting (Some i) e (<[i:=(execute q p).2]> l) = f <$> l.
Proof.
  intros Hl. rewrite stable_chargeWaiting.
  eapply fmap_insert_keep; [exact Hl|apply stable_execute].
Qed.

Lemma stable_rr_enqueueReady (skip : ProcessPtr) (now : Z)
    (ps : list Process) (q : list nat) :
  f <$> (RoundRobin.enqueueReady skip now ps q).1 = f <$> ps.
Proof.
  unfold RoundRobin.enqueueReady.
  generalize (seq 0 (length ps)) as idx. intros idx. revert ps q.
  induction idx as [|i idx IH]; intros ps q; cbn [fold_left]; [done|].
  unfold RoundRobin.enqueueOne at 2. cbn [fst snd].
  destruct (ps !! i) as [p|]; [|by apply IH].
  destruct (_ && _); [|by apply IH].
  destruct (inQueue i q); [by apply IH|].
  rewrite IH. apply fmap_alter_keep. apply Hf.
Qed.

Lemma stable_rr_body (s : RoundRobin.RoundRobinScheduler) :
  result_holds
    (λ s', f <$> processes (RoundRobin.base s')
           = f <$> processes (RoundRobin.base s))
    (RoundRobin.body s).
Proof.
  unfold RoundRobin.body.
  pose proof (stable_admit (RoundRobin.base s)) as H1.
  set (b1 := (admitArrivingProcesses (RoundRobin.base s)).2) in *.
  pose proof (stable_rr_enqueueReady None (currentTime b1) (processes b1)
                (RoundRobin.readyQueue s)) as H2.
  destruct (RoundRobin.enqueueReady _ _ _ _) as [ps2 [|i q3]];
    cbn [fst] in H2.
  - destruct (bool_decide _); expose.
    + by rewrite stable_updateWaitingTimes; expose; rewrite H2.
    + by rewrite H2.
  - unfold RoundRobin.dispatch.
    pose proof (stable_contextSwitch (currentProcess (set_processes ps2 b1))
                  (Some i) (set_processes ps2 b1)) as H3.
    set (b3 := contextSwitch _ _ _) in *. expose.
    destruct (processes b3 !! i) as [p|] eqn:Hp; [|exact I].
    pose proof (stable_slice i p (RoundRobin.timeQuantum s)
                  (execute (RoundRobin.timeQuantum s) p).1 _ Hp) as H4.
    destruct (execute (RoundRobin.timeQuantum s) p) as [e p1].
    cbn [fst snd] in H4.
    destruct (isComplete p1).
    + destruct (allTerminated _); expose;
        rewrite fmap_alter_keep by apply stable_finish; congruence.
    + match goal with
      | |- context [RoundRobin.enqueueReady ?a ?b ?c ?d] =>
          pose proof (stable_rr_enqueueReady a b c d) as H5;
          destruct (RoundRobin.enqueueReady a b c d) as [ps4 q4]
      end.
      cbn [fst] in H5. rewrite stable_admit in H5. expose.
      rewrite fmap_alter_keep in H5 by apply Hf.
      destruct (allTerminated _); expose;
        rewrite fmap_alter_keep by apply Hf; congruence.
Qed.


Lemma stable_agingStep (s : Priority.PriorityScheduler) :
  Priority.agingEnabled s = false ∨ (∀ v p, f (setPriority v p) = f p) →
  result_holds
    (λ s', f <$> processes (Priority.base s')
           = f <$> processes (Priority.base s)
           ∧ Priority.agingEnabled s' = Priority.agingEnabled s)
    (Priority.agingStep s).
Proof.
  intros Hage. unfold Priority.agingStep.
  destruct (_ =? 0); [exact I|].
  destruct (_ =? 0); [|done]. unfold Priority.applyAging.
  destruct (Priority.agingEnabled s) eqn:He; cbn [negb]; [|done].
  destruct Hage as [?|Hp]; [done|]. expose. split; [|exact He].
  apply fmap_fmap_keep. intros p. unfold Priority.age.
  destruct (state_is _ _); [|done]. destruct (_ && _); [apply Hp|done].
Qed.

Lemma stable_emptyQueue (s : Priority.PriorityScheduler) :
  result_holds
    (λ s', f <$> processes (Priority.base s')
           = f <$> processes (Priority.base s)
           ∧ Priority.agingEnabled s' = Priority.agingEnabled s)
    (Priority.emptyQueue s).
Proof.
  unfold Priority.emptyQueue.
  destruct (Priority.runningProcess s) as [r|].
  - destruct (processes (Priority.base s) !! r) as [p|] eqn:Hp.
    + destruct (_ && _).
      * destruct (isComplete _); expose; (split; [|done]);
          (eapply fmap_insert_keep; [exact Hp|]);
          by rewrite ?stable_finish, stable_execute.
      * destruct (bool_decide _); done.
    + destruct (bool_decide _); done.
  - destruct (bool_decide _); done.
Qed.

Lemma stable_runToCompletion (s : Priority.PriorityScheduler) (q : list nat)
    (n : nat) :
  result_holds
    (λ s', f <$> processes (Priority.base s')
           = f <$> processes (Priority.base s)
           ∧ Priority.agingEnabled s' = Priority.agingEnabled s)
    (Priority.runToCompletion s q n).
Proof.
  unfold Priority.runToCompletion.
  pose proof (stable_contextSwitch (Priority.runningProcess s) (Some n)
                (Priority.base s)) as H1.
  set (b1 := contextSwitch _ _ _) in *.
  destruct (processes b1 !! n) as [p|] eqn:Hp; [|exact I].
  pose proof (stable_slice n p (remainingTime p) (remainingTime p) _ Hp) as H2.
  destruct (allTerminated _); expose; (split; [|done]);
    rewrite fmap_alter_keep by apply stable_finish; congruence.
Qed.

Lemma stable_runPreemptive (s : Priority.PriorityScheduler) (q : list nat)
    (n : nat) :
  result_holds
    (λ s', f <$> processes (Priority.base s')
           = f <$> processes (Priority.base s)
           ∧ Priority.agingEnabled s' = Priority.agingEnabled s)
    (Priority.runPreemptive s q n).
Proof.
  unfold Priority.runPreemptive.
  set (choice := match Priority.runningProcess s with
                 | Some r => _ | None => _ end).
  assert (f <$> processes choice.1 = f <$> processes (Priority.base s)) as H1.
  { subst choice. destruct (Priority.runningProcess s) as [r|]; cbn [fst].
    - destruct (negb _); [|done].
      destruct (processes _ !! r); [|done].
      destruct (processes _ !! n); [|done].
      destruct (_ <? _); [|done]. cbn [fst].
      rewrite stable_contextSwitch. expose.
      apply fmap_alter_keep, Hf.
    - apply stable_contextSwitch. }
  destruct choice as [b1 [r|]]; [|exact I]. cbn [fst] in H1.
  destruct (processes b1 !! r) as [p|] eqn:Hp; [|exact I].
  pose proof (stable_slice r p 1 1 _ Hp) as H2.
  destruct (isComplete _).
  - destruct (allTerminated _); expose; (split; [|done]);
      rewrite fmap_alter_keep by apply stable_finish; congruence.
  - destruct (allTerminated _); expose; (split; [|done]); congruence.
Qed.

Lemma stable_priority_body (s : Priority.PriorityScheduler) :
  Priority.agingEnabled s = false ∨ (∀ v p, f (setPriority v p) = f p) →
  result_holds
    (λ s', f <$> processes (Priority.base s')
           = f <$> processes (Priority.base s)
           ∧ Priority.agingEnabled s' = Priority.agingEnabled s)
    (Priority.body s).
Proof.
  intros Hage. unfold Priority.body.
  pose proof (stable_admit (Priority.base s)) as H1.
  set (s1 := Priority.with_base _ s).
  assert (result_holds
            (λ s', f <$> processes (Priority.base s')
                   = f <$> processes (Priority.base s)
                   ∧ Priority.agingEnabled s' = Priority.agingEnabled s)
            (Priority.agingStep s1)) as H2.
  { eapply result_holds_impl; [|apply (stable_agingStep s1 Hage)].
    cbn beta. subst s1. unfold Priority.with_base.
    cbn [Priority.base Priority.agingEnabled]. intros s' [? ?].
    split; congruence. }
  destruct (Priority.agingStep s1) as [s2| |]; [|exact H2|exact I].
  cbn [result_holds] in H2. destruct H2 as [H2 H3].
  destruct (Priority.top _ _) as [n|].
  - destruct (Priority.preemptive s2);
      (eapply result_holds_impl;
       [|first [apply stable_runPreemptive|apply stable_runToCompletion]]);
      cbn beta; intros s' [? ?]; split; congruence.
  - eapply result_holds_impl; [|apply stable_emptyQueue].
    cbn beta; intros s' [? ?]; split; congruence.
Qed.

Lemma stable_mlq_enqueueReady (cs : list (Z * MultilevelQueue.QueueConfig))
    (skip : ProcessPtr) (now : Z) (ps : list Process)
    (qs : gmap Z (list nat)) :
  f <$> (MultilevelQueue.enqueueReady cs skip now ps qs).1 = f <$> ps.
Proof.
  unfold MultilevelQueue.enqueueReady.
  generalize (seq 0 (length ps)) as idx. intros idx. revert ps qs.
  induction idx as [|i idx IH]; intros ps qs; cbn [fold_left]; [done|].
  unfold MultilevelQueue.enqueueOne at 2. cbn [fst snd].
  destruct (ps !! i) as [p|]; [|by apply IH].
  destruct (_ && _); [|by apply IH].
  destruct (negb _); [|by apply IH].
  destruct (inQueue i _); [by apply IH|].
  rewrite IH. apply fmap_alter_keep. apply Hf.
Qed.

Lemma stable_scheduleFromQueue (config : MultilevelQueue.QueueConfig)
    (i : nat) (p : Process) (ps : list Process) (now : Z)
    (chart : list string) :
  ps !! i = Some p →
  f <$> (MultilevelQueue.scheduleFromQueue config i p ps now chart).1.1
  = f <$> ps.
Proof.
  intros Hp. unfold MultilevelQueue.scheduleFromQueue.
  destruct (execute _ p) as [e p1] eqn:He. cbn [fst].
  assert (p1 = (execute
                  match MultilevelQueue.algorithm config with
                  | MultilevelQueue.FCFS => remainingTime p
                  | MultilevelQueue.ROUND_ROBIN =>
                      MultilevelQueue.qtimeQuantum config
                  end p).2) as -> by (by rewrite He).
  by apply stable_slice.
Qed.

Lemma stable_mlq_body (s : MultilevelQueue.MultilevelQueueScheduler) :
  result_holds
    (λ s', f <$> processes (MultilevelQueue.base s')
           = f <$> processes (MultilevelQueue.base s)
           ∧ MultilevelQueue.queueConfigs s' = MultilevelQueue.queueConfigs s)
    (MultilevelQueue.body s).
Proof.
  unfold MultilevelQueue.body.
  pose proof (stable_admit (MultilevelQueue.base s)) as H1.
  set (b1 := (admitArrivingProcesses (MultilevelQueue.base s)).2) in *.
  pose proof (stable_mlq_enqueueReady (MultilevelQueue.queueConfigs s) None
                (currentTime b1) (processes b1) (MultilevelQueue.queues s))
    as H2.
  destruct (MultilevelQueue.enqueueReady _ _ _ _ _) as [ps2 qs2].
  cbn [fst] in H2.
  destruct (_ =? -1).
  - destruct (bool_decide _); expose; (split; [congruence|done]).
  - destruct (MultilevelQueue.queue_at _ _) as [|i rest]; [exact I|].
    unfold MultilevelQueue.dispatch.
    pose proof (stable_contextSwitch (currentProcess (set_processes ps2 b1))
                  (Some i) (set_processes ps2 b1)) as H3.
    set (b3 := contextSwitch _ _ _) in *. expose.
    destruct (processes b3 !! i) as [p|] eqn:Hp; [|exact I].
    match goal with
    | |- context [MultilevelQueue.scheduleFromQueue ?c i p ?l ?t ?g] =>
        pose proof (stable_scheduleFromQueue c i p l t g Hp) as H4;
        destruct (MultilevelQueue.scheduleFromQueue c i p l t g)
          as [[ps1 now] chart]
    end.
    cbn [fst] in H4.
    match goal with
    | |- context [if ?c then (alter (finish now) i ps1, ?q) else ?e] =>
        set (choice := if c then (alter (finish now) i ps1, q) else e)
    end.
    assert (f <$> choice.1 = f <$> ps1) as H5.
    { subst choice.
      destruct (match ps1 !! i with Some _ => _ | None => _ end); cbn [fst].
      - apply fmap_alter_keep, stable_finish.
      - destruct (MultilevelQueue.algorithm _); [done|].
        match goal with
        | |- context [MultilevelQueue.enqueueReady ?a ?b ?c ?d ?e] =>
            pose proof (stable_mlq_enqueueReady a b c d e) as H6;
            destruct (MultilevelQueue.enqueueReady a b c d e) as [ps4 qs4]
        end.
        cbn [fst] in *. rewrite stable_admit in H6. expose.
        rewrite fmap_alter_keep in H6 by apply Hf.
        rewrite fmap_alter_keep by apply Hf. done. }
    destruct choice as [ps5 qs5]. cbn [fst] in H5.
    destruct (allTerminated _); expose; (split; [congruence|done]).
Qed.

Lemma stable_mlfq_enqueueReady (levels : gmap Z Z) (skip : ProcessPtr)
    (now : Z) (ps : list Process) (qs : list (list nat)) :
  match Feedback.enqueueReady levels skip now ps qs with
  | Some r => f <$> r.1 = f <$> ps
  | None => True
  end.
Proof.
  unfold Feedback.enqueueReady.
  generalize (seq 0 (length ps)) as idx. intros idx.
  assert (∀ acc : option (list Process * list (list nat)),
            match acc with Some r => f <$> r.1 = f <$> ps | None => True end →
            match fold_left (Feedback.enqueueOne levels skip now) idx acc with
            | Some r => f <$> r.1 = f <$> ps
            | None => True
            end) as H; [|by apply H].
  induction idx as [|i idx IH]; intros acc Hacc; cbn [fold_left]; [done|].
  apply IH. unfold Feedback.enqueueOne.
  destruct acc as [[ps1 qs1]|]; [|done]. cbn [fst] in Hacc.
  destruct (ps1 !! i) as [p|]; [|done].
  destruct (_ && _); [|done].
  destruct (Feedback.subscript _ _); [|done].
  destruct (inQueue i _); [done|]. cbn [fst].
  rewrite fmap_alter_keep by apply Hf. done.
Qed.

Lemma stable_mlfq_requeue (s : Feedback.MultilevelFeedbackQueueScheduler)
    (b : Scheduler) (qs : list (list nat)) (i : nat) (p1 : Process)
    (e quantum now : Z) (ps1 : list Process) :
  match Feedback.requeue s b qs i p1 e quantum now ps1 with
  | Some r => f <$> r.1.1.1 = f <$> ps1
  | None => True
  end.
Proof.
  unfold Feedback.requeue.
  destruct (if e =? quantum then _ else _) as [levels counters].
  match goal with
  | |- context [Feedback.enqueueReady ?a ?b ?c ?d ?e] =>
      pose proof (stable_mlfq_enqueueReady a b c d e) as H6;
      destruct (Feedback.enqueueReady a b c d e) as [[ps4 qs4]|]; [|done]
  end.
  cbn [fst] in H6. rewrite stable_admit in H6. expose.
  rewrite fmap_alter_keep in H6 by apply Hf.
  destruct (Feedback.subscript _ _); [|done]. cbn [fst].
  rewrite fmap_alter_keep by apply Hf. done.
Qed.

Lemma stable_mlfq_dispatch (s : Feedback.MultilevelFeedbackQueueScheduler)
    (b : Scheduler) (qs : list (list nat)) (k i : nat) :
  result_holds
    (λ s', f <$> processes (Feedback.base s') = f <$> processes b)
    (Feedback.dispatch s b qs k i).
Proof.
  unfold Feedback.dispatch.
  pose proof (stable_contextSwitch (currentProcess b) (Some i) b) as H3.
  set (b3 := contextSwitch _ _ _) in *.
  destruct (processes b3 !! i) as [p|] eqn:Hp; [|exact I].
  destruct (Feedback.timeQuantums s !! k) as [quantum|]; [|exact I].
  pose proof (stable_slice i p quantum (execute quantum p).1 _ Hp) as H4.
  destruct (execute quantum p) as [e p1]. cbn [fst snd] in H4.
  destruct (isComplete p1).
  - destruct (allTerminated _); expose;
      rewrite fmap_alter_keep by apply stable_finish; congruence.
  - match goal with
    | |- context [Feedback.requeue ?a ?b ?c ?d ?e ?g ?h ?j ?k] =>
        pose proof (stable_mlfq_requeue a b c d e g h j k) as H5;
        destruct (Feedback.requeue a b c d e g h j k)
          as [[[[ps2 qs2] levels] counters]|]; [|exact I]
    end.
    cbn [fst] in H5.
    destruct (allTerminated _); expose; congruence.
Qed.

Lemma stable_mlfq_body (s : Feedback.MultilevelFeedbackQueueScheduler) :
  result_holds
    (λ s', f <$> processes (Feedback.base s')
           = f <$> processes (Feedback.base s))
    (Feedback.body s).
Proof.
  unfold Feedback.body.
  pose proof (stable_admit (Feedback.base s)) as H1.
  set (b1 := (admitArrivingProcesses (Feedback.base s)).2) in *.
  destruct (_ =? 0); [exact I|].
  destruct (if _ =? 0 then _ else _) as [levels counters].
  pose proof (stable_mlfq_enqueueReady levels None (currentTime b1)
                (processes b1) (Feedback.queues s)) as H2.
  destruct (Feedback.enqueueReady _ _ _ _ _) as [[ps2 qs2]|]; [|exact I].
  cbn [fst] in H2.
  destruct (Feedback.getHighestPriorityQueue _ _) as [k|].
  - destruct (qs2 !! k) as [[|i rest]|]; [exact I| |exact I].
    eapply result_holds_impl; [|apply stable_mlfq_dispatch].
    cbn beta. intros s' Hs'. expose. congruence.
  - destruct (bool_decide _); expose; congruence.
Qed.

End Stable.

Lemma run_loop_invariant {S : Type} (body : S → LoopResult S)
    (P : S → Prop) :
  (∀ s, P s → result_holds P (body s)) →
  ∀ fuel s r, P s → run_loop body fuel s = Some r → result_holds P r.
Proof.
  intros Hbody. induction fuel as [|fuel IH]; intros s r Hs; simpl; [done|].
  specialize (Hbody s Hs).
  destruct (body s) as [s'| |]; simpl in *; [by apply IH| |];
    intros [= <-]; done.
Qed.

(** In the Round Robin, multilevel queue and feedback queue schedulers a run
    never changes what was submitted: after any number of passes of the
    loop, and in whatever [schedule()] returns, the list of
    (pid, name, arrival time, burst time, priority) of the processes is the
    one the run started from, in the same order. *)
Theorem run_keeps_the_workload :
  (∀ s n,
     result_holds
       (λ s', workload_of <$> processes (RoundRobin.base s')
              = workload_of <$> processes (RoundRobin.base s))
       (after_passes RoundRobin.body n (RoundRobin.start s)))
  ∧ (∀ s fuel r, RoundRobin.schedule fuel s = Some r →
       result_holds
         (λ s', workload_of <$> processes (RoundRobin.base s')
                = workload_of <$> processes (RoundRobin.base s)) r)
  ∧ (∀ s n,
       result_holds
         (λ s', workload_of <$> processes (MultilevelQueue.base s')
                = workload_of <$> processes (MultilevelQueue.base s)
                ∧ MultilevelQueue.queueConfigs s'
                  = MultilevelQueue.queueConfigs s)
         (after_passes MultilevelQueue.body n (MultilevelQueue.start s)))
  ∧ (∀ s fuel r, MultilevelQueue.schedule fuel s = Some r →
       result_holds
         (λ s', workload_of <$> processes (MultilevelQueue.base s')
                = workload_of <$> processes (MultilevelQueue.base s)
                ∧ MultilevelQueue.queueConfigs s'
                  = MultilevelQueue.queueConfigs s) r)
  ∧ (∀ s n,
       result_holds
         (λ s', workload_of <$> processes (Feedback.base s')
                = workload_of <$> processes (Feedback.base s))
         (after_passes Feedback.body n (Feedback.start s)))
  ∧ (∀ s fuel r, Feedback.schedule fuel s = Some r →
       result_holds
         (λ s', workload_of <$> processes (Feedback.base s')
                = workload_of <$> processes (Feedback.base s)) r).
Proof.
  assert (∀ s0 s : RoundRobin.RoundRobinScheduler,
            workload_of <$> processes (RoundRobin.base s)
            = workload_of <$> processes (RoundRobin.base s0) →
            result_holds
              (λ s', workload_of <$> processes (RoundRobin.base s')
                     = workload_of <$> processes (RoundRobin.base s0))
              (RoundRobin.body s)) as Hrr.
  { intros s0 s Hs. eapply result_holds_impl;
      [|apply (stable_rr_body workload_of workload_of_stable)].
    cbn beta. intros s' Hs'. congruence. }
  assert (∀ s0 s : MultilevelQueue.MultilevelQueueScheduler,
            workload_of <$> processes (MultilevelQueue.base s)
            = workload_of <$> processes (MultilevelQueue.base s0)
            ∧ MultilevelQueue.queueConfigs s = MultilevelQueue.queueConfigs s0 →
            result_holds
              (λ s', workload_of <$> processes (MultilevelQueue.base s')
                     = workload_of <$> processes (MultilevelQueue.base s0)
                     ∧ MultilevelQueue.queueConfigs s'
                       = MultilevelQueue.queueConfigs s0)
              (MultilevelQueue.body s)) as Hmlq.
  { intros s0 s [Hs Hc]. eapply result_holds_impl;
      [|apply (stable_mlq_body workload_of workload_of_stable)].
    cbn beta. intros s' [Hs' Hc']. split; congruence. }
  assert (∀ s0 s : Feedback.MultilevelFeedbackQueueScheduler,
            workload_of <$> processes (Feedback.base s)
            = workload_of <$> processes (Feedback.base s0) →
            result_holds
              (λ s', workload_of <$> processes (Feedback.base s')
                     = workload_of <$> processes (Feedback.base s0))
              (Feedback.body s)) as Hfb.
  { intros s0 s Hs. eapply result_holds_impl;
      [|apply (stable_mlfq_body workload_of workload_of_stable)].
    cbn beta. intros s' Hs'. congruence. }
  repeat split.
  - intros s n. by apply after_passes_invariant; [apply Hrr|].
  - intros s fuel r Hr.
    by eapply run_loop_invariant; [apply (Hrr s)| |exact Hr].
  - intros s n. by apply after_passes_invariant; [apply Hmlq|].
  - intros s fuel r Hr.
    by eapply run_loop_invariant; [apply (Hmlq s)| |exact Hr].
  - intros s n. by apply after_passes_invariant; [apply Hfb|].
  - intros s fuel r Hr.
    by eapply run_loop_invariant; [apply (Hfb s)| |exact Hr].
Qed.

(** The priority scheduler never changes the identity of a process (pid,
    name, arrival time, burst time) during a run, and with aging disabled it
    never changes a priority either. *)
Theorem priority_run_keeps_identity (s : Priority.PriorityScheduler) :
  (∀ n,
     result_holds
       (λ s', identity_of <$> processes (Priority.base s')
              = identity_of <$> processes (Priority.base s))
       (after_passes Priority.body n (Priority.start s)))
  ∧ (∀ fuel r, Priority.schedule fuel s = Some r →
       result_holds
         (λ s', identity_of <$> processes (Priority.base s')
                = identity_of <$> processes (Priority.base s)) r)
  ∧ (Priority.agingEnabled s = false →
     (∀ n,
        result_holds
          (λ s', workload_of <$> processes (Priority.base s')
                 = workload_of <$> processes (Priority.base s))
          (after_passes Priority.body n (Priority.start s)))
     ∧ (∀ fuel r, Priority.schedule fuel s = Some r →
          result_holds
            (λ s', workload_of <$> processes (Priority.base s')
                   = workload_of <$> processes (Priority.base s)) r)).
Proof.
  assert (∀ s1 : Priority.PriorityScheduler,
            identity_of <$> processes (Priority.base s1)
            = identity_of <$> processes (Priority.base s) →
            result_holds
              (λ s', identity_of <$> processes (Priority.base s')
                     = identity_of <$> processes (Priority.base s))
              (Priority.body s1)) as Hid.
  { intros s1 Hs. eapply result_holds_impl;
      [|apply (stable_priority_body identity_of identity_of_stable);
        by right].
    cbn beta. intros s' [Hs' _]. congruence. }
  assert (∀ s1 : Priority.PriorityScheduler,
            workload_of <$> processes (Priority.base s1)
            = workload_of <$> processes (Priority.base s)
            ∧ Priority.agingEnabled s1 = false →
            result_holds
              (λ s', workload_of <$> processes (Priority.base s')
                     = workload_of <$> processes (Priority.base s)
                     ∧ Priority.agingEnabled s' = false)
              (Priority.body s1)) as Hwl.
  { intros s1 [Hs He]. eapply result_holds_impl;
      [|apply (stable_priority_body workload_of workload_of_stable);
        by left].
    cbn beta. intros s' [Hs' He']. split; congruence. }
  split; [|split; [|intros Hoff; split]].
  - intros n. by apply after_passes_invariant.
  - intros fuel r Hr. by eapply run_loop_invariant; [apply Hid| |exact Hr].
  - intros n. eapply result_holds_impl;
      [|apply (after_passes_invariant _ _ Hwl); by split].
    cbn beta. by intros s' [? _].
  - intros fuel r Hr. eapply result_holds_impl;
      [|eapply (run_loop_invariant _ _ Hwl); [|exact Hr]; by split].
    cbn beta. by intros s' [? _].
Qed.

Lemma priority_run_keeps_identity_witness :
  Priority.agingEnabled Workloads.priority_three = false
  ∧ result_holds
      (λ s', workload_of <$> processes (Priority.base s')
             = workload_of <$> processes
                 (Priority.base Workloads.priority_three))
      (after_passes Priority.body 2
         (Priority.start Workloads.priority_three)).
Proof.
  split; [reflexivity|].
  apply (priority_run_keeps_identity Workloads.priority_three). reflexivity.
Defined.

(** * Time accounting along a run *)













Lemma after_passes_safe {S : Type} (body : S → LoopResult S) (P : S → Prop) :
  (∀ s, P s → result_safe P (body s)) →
  ∀ n s, P s → result_safe P (after_passes body n s).
Proof.
  intros Hbody. induction n as [|n IH]; intros s Hs; simpl; [exact Hs|].
  specialize (Hbody s Hs). destruct (body s) as [s'| |]; simpl in *; auto.
Qed.

Lemma run_loop_safe {S : Type} (body : S → LoopResult S) (P : S → Prop) :
  (∀ s, P s → result_safe P (body s)) →
  ∀ fuel s r, P s → run_loop body fuel s = Some r → result_safe P r.
Proof.
  intros Hbody. induction fuel as [|fuel IH]; intros s r Hs; simpl; [done|].
  specialize (Hbody s Hs).
  destruct (body s) as [s'| |]; simpl in *; [by apply IH| |done].
  intros [= <-]. done.
Qed.



(** ** [admitted] under the updates of the store *)









(** ** The steps of a dispatch *)







(** ** The priority scheduler *)





Lemma holds_cpu_admitted (ps : list Process) (r : nat) :
  holds_cpu ps r → admitted ps r.
Proof. intros (p & Hp & Hs & _). exists p. split; [done|]. by rewrite Hs. Qed.








(** ** The multilevel queue scheduler *)









(** ** The feedback queue scheduler *)








(** ** What the runs guarantee *)










(** * Termination of the non-preemptive priority scheduler *)























(** * Runs without processes *)

Lemma no_queue_is_highest (cs : list (Z * MultilevelQueue.QueueConfig))
    (qs : gmap Z (list nat)) :
  (∀ k, MultilevelQueue.queue_at k qs = []) →
  MultilevelQueue.getHighestPriorityQueue cs qs = -1.
Proof.
  intros Hqs. unfold MultilevelQueue.getHighestPriorityQueue.
  destruct (List.find _ cs) as [kv|] eqn:Hf; [|done].
  apply find_some in Hf as [_ Hne]. rewrite Hqs in Hne.
  by rewrite bool_decide_eq_true_2 in Hne.
Qed.

Lemma no_level_is_highest (n : Z) (qs : list (list nat)) :
  Forall (λ q, q = []) qs → Feedback.getHighestPriorityQueue n qs = None.
Proof.
  intros Hqs. unfold Feedback.getHighestPriorityQueue.
  destruct (List.find _ _) as [k|] eqn:Hf; [|done].
  apply find_some in Hf as [_ Hne].
  destruct (qs !! k) as [[|i q]|] eqn:Hk; [done| |done].
  eapply Forall_lookup_1 in Hqs; [|exact Hk]. done.
Qed.

(** With no process added, every [schedule()] leaves its loop in the first
    pass with an empty Gantt chart and the clock at [INT_MAX] (the "earliest
    arrival" of nothing), provided the queues are empty; the priority and
    feedback schedulers do so only if their aging interval or threshold is
    not 0, as they divide by it before looking for work. *)
Theorem schedule_without_processes :
  (∀ s fuel,
     processes (RoundRobin.base s) = [] → RoundRobin.readyQueue s = [] →
     RoundRobin.schedule (S fuel) s
     = Some (Exit (RoundRobin.mk (set_currentTime INT_MAX (RoundRobin.base s))
                     (RoundRobin.timeQuantum s) [] [])))
  ∧ (∀ s fuel,
       processes (Priority.base s) = [] → Priority.agingInterval s ≠ 0 →
       Priority.schedule (S fuel) s
       = Some (Exit (Priority.mk
                       (set_currentTime INT_MAX (Priority.base s))
                       (Priority.preemptive s) (Priority.agingEnabled s)
                       (Priority.agingInterval s) [] [] None)))
  ∧ (∀ s fuel,
       processes (MultilevelQueue.base s) = [] →
       (∀ k, MultilevelQueue.queue_at k (MultilevelQueue.queues s) = []) →
       MultilevelQueue.schedule (S fuel) s
       = Some (Exit (MultilevelQueue.mk
                       (set_currentTime INT_MAX (MultilevelQueue.base s))
                       (MultilevelQueue.queueConfigs s)
                       (MultilevelQueue.queues s) [])))
  ∧ (∀ s fuel,
       processes (Feedback.base s) = [] → Feedback.agingThreshold s ≠ 0 →
       Forall (λ q, q = []) (Feedback.queues s) →
       Feedback.schedule (S fuel) s
       = Some (Exit (Feedback.with_run
                       (set_currentTime INT_MAX (Feedback.base s))
                       (Feedback.queues s) ∅ ∅ [] s))).
Proof.
  split; [|split; [|split]].
  - intros [[ps t o c cp] quantum queue chart] fuel Hps Hq.
    cbn in Hps, Hq. subst ps queue. reflexivity.
  - intros [[ps t o c cp] pre en iv chart queue running] fuel Hps Hi.
    cbn in Hps, Hi. subst ps.
    unfold Priority.schedule. cbn [run_loop].
    unfold Priority.body, Priority.start, Priority.agingStep,
      Priority.with_base, Priority.applyAging.
    cbn [Priority.base Priority.agingInterval Priority.agingEnabled
         Priority.preemptive Priority.ganttChart Priority.readyQueue
         Priority.runningProcess].
    rewrite (proj2 (Z.eqb_neq _ _) Hi).
    destruct (Z.rem _ iv =? 0); [destruct (negb en)|]; reflexivity.
  - intros [[ps t o c cp] cs qs chart] fuel Hps Hqs.
    cbn in Hps, Hqs. subst ps.
    unfold MultilevelQueue.schedule. cbn [run_loop].
    unfold MultilevelQueue.body, MultilevelQueue.start.
    cbn [MultilevelQueue.base MultilevelQueue.queueConfigs
         MultilevelQueue.queues MultilevelQueue.ganttChart].
    change (MultilevelQueue.enqueueReady cs None _ _ qs) with ([] : list Process, qs).
    cbv beta iota. rewrite (no_queue_is_highest cs qs Hqs). reflexivity.
  - intros [[ps t o c cp] n quanta qs levels chart en th counters] fuel
      Hps Hth Hqs.
    cbn in Hps, Hth, Hqs. subst ps.
    unfold Feedback.schedule. cbn [run_loop].
    unfold Feedback.body, Feedback.start, Feedback.with_run.
    cbn [Feedback.base Feedback.agingThreshold Feedback.agingEnabled
         Feedback.queues Feedback.numQueues Feedback.processQueueLevel
         Feedback.timeInQueue Feedback.ganttChart Feedback.timeQuantums].
    rewrite (proj2 (Z.eqb_neq _ _) Hth).
    unfold admitArrivingProcesses, set_currentTime, set_processes.
    cbn [snd fst processes currentTime contextSwitchOverhead
         totalContextSwitches currentProcess fmap list_fmap fold_left].
    assert (∀ c : bool,
              (if c then Feedback.applyAging en th [] ∅ ∅
               else ((∅ : gmap Z Z), (∅ : gmap Z Z))) = (∅, ∅)) as ->.
    { intros []; [|done]. unfold Feedback.applyAging. by destruct (negb en). }
    change (Feedback.enqueueReady ∅ None _ [] qs)
      with (Some ([] : list Process, qs)).
    cbv beta iota. rewrite (no_level_is_highest n qs Hqs). reflexivity.
Qed.


Lemma run_keeps_the_workload_witness :
  ∃ r, RoundRobin.schedule 10 Workloads.rr_basic = Some r
    ∧ result_holds
        (λ s', workload_of <$> processes (RoundRobin.base s')
               = workload_of <$> processes
                   (RoundRobin.base Workloads.rr_basic)) r.
Proof.
  assert (∃ r, RoundRobin.schedule 10 Workloads.rr_basic = Some r)
    as [r Hr] by (eexists; vm_compute; reflexivity).
  exists r. split; [exact Hr|].
  exact (proj1 (proj2 run_keeps_the_workload) Workloads.rr_basic 10%nat r Hr).
Defined.

(** * The metrics of an accounted store *)











(** * The levels of the feedback queue scheduler *)

Lemma promoteProcess_monotone (pid : Z) (levels counters : gmap Z Z) (k : Z) :
  Feedback.read (Feedback.promoteProcess pid levels counters).1 k
  <= Feedback.read levels k
  ∧ (0 <= Feedback.read levels k →
     0 <= Feedback.read (Feedback.promoteProcess pid levels counters).1 k)
  ∧ (k ≠ pid →
     Feedback.read (Feedback.promoteProcess pid levels counters).1 k
     = Feedback.read levels k
     ∧ Feedback.read (Feedback.promoteProcess pid levels counters).2 k
       = Feedback.read counters k).
Proof.
  unfold Feedback.promoteProcess.
  destruct (0 <? _) eqn:E; cbn [fst snd]; [|split; [lia|done]].
  apply Z.ltb_lt in E. destruct (decide (pid = k)) as [->|Hne].
  - rewrite read_insert_eq. split; [lia|]. split; [lia|done].
  - rewrite !read_insert_ne by done. split; [lia|]. done.
Qed.

(** [applyAging] of the feedback queue scheduler: with aging disabled it
    changes nothing; otherwise it never raises the level recorded for a pid
    and never takes a level that is not negative below 0, and it leaves the
    level and the counter of every pid that no [READY] process carries as
    they were. *)
Theorem feedback_applyAging_spec (enabled : bool) (threshold : Z)
    (ps : list Process) (levels counters : gmap Z Z) :
  (enabled = false →
   Feedback.applyAging enabled threshold ps levels counters
   = (levels, counters))
  ∧ (∀ k,
       Feedback.read
         (Feedback.applyAging enabled threshold ps levels counters).1 k
       <= Feedback.read levels k
       ∧ (0 <= Feedback.read levels k →
          0 <= Feedback.read
                 (Feedback.applyAging enabled threshold ps levels counters).1
                 k))
  ∧ (∀ k, Forall (λ p, state p = READY → pid p ≠ k) ps →
       Feedback.read
         (Feedback.applyAging enabled threshold ps levels counters).1 k
       = Feedback.read levels k
       ∧ Feedback.read
           (Feedback.applyAging enabled threshold ps levels counters).2 k
         = Feedback.read counters k).
Proof.
  unfold Feedback.applyAging. split; [by intros ->|].
  destruct (negb enabled).
  { cbn [fst snd]. split; [intros k; split; [lia|done]|by intros k _]. }
  split.
  - intros k. revert levels counters.
    induction ps as [|p ps IH]; intros levels counters; cbn [fold_left];
      [cbn [fst]; split; [lia|done]|].
    cbn [fst snd]. destruct (state_is READY p); [|apply IH].
    destruct (_ <=? _); [|apply IH].
    pose proof (promoteProcess_monotone (pid p) levels
                  (<[pid p:=Feedback.read counters (pid p) + 1]> counters) k)
      as (H1 & H2 & _).
    destruct (Feedback.promoteProcess _ _ _) as [l c]. cbn [fst] in *.
    destruct (IH l c) as [H3 H4]. split; [lia|]. intros H. by apply H4, H2.
  - intros k Hk. revert levels counters.
    induction Hk as [|p ps Hp _ IH]; intros levels counters;
      cbn [fold_left]; [done|].
    cbn [fst snd]. destruct (state_is READY p) eqn:Hs; [|apply IH].
    apply bool_decide_eq_true in Hs. specialize (Hp Hs).
    destruct (_ <=? _).
    + pose proof (promoteProcess_monotone (pid p) levels
                    (<[pid p:=Feedback.read counters (pid p) + 1]> counters) k)
        as (_ & _ & H3).
      destruct (H3 (not_eq_sym Hp)) as [H4 H5].
      destruct (Feedback.promoteProcess _ _ _) as [l c]. cbn [fst snd] in *.
      destruct (IH l c) as [-> ->]. rewrite H4, H5.
      by rewrite read_insert_ne.
    + destruct (IH levels
                  (<[pid p:=Feedback.read counters (pid p) + 1]> counters))
        as [-> ->].
      by rewrite read_insert_ne.
Qed.

(** [getHighestPriorityQueue] of the feedback queue scheduler: the level
    returned is below [numQueues], its queue is not empty and every queue
    above it is empty or missing; the marker for "none" is returned exactly
    when no level below [numQueues] has a process queued. *)
Theorem feedback_getHighestPriorityQueue_spec (n : Z)
    (qs : list (list nat)) :
  match Feedback.getHighestPriorityQueue n qs with
  | Some k =>
      Z.of_nat k < n
      ∧ (∃ i rest, qs !! k = Some (i :: rest))
      ∧ ∀ j i rest, (j < k)%nat → qs !! j ≠ Some (i :: rest)
  | None =>
      ∀ j i rest, Z.of_nat j < n → qs !! j ≠ Some (i :: rest)
  end.
Proof.
  unfold Feedback.getHighestPriorityQueue.
  set (nonempty := λ i : nat, match qs !! i with
                              | Some (_ :: _) => true
                              | _ => false
                              end).
  assert (∀ (l : list nat),
            match List.find nonempty l with
            | Some k => k ∈ l ∧ nonempty k = true
                        ∧ ∃ l1 l2, l = l1 ++ k :: l2
                                   ∧ Forall (λ j, nonempty j = false) l1
            | None => Forall (λ j, nonempty j = false) l
            end) as Hfind.
  { induction l as [|x l IH]; cbn [List.find]; [constructor|].
    destruct (nonempty x) eqn:Hx.
    - split; [apply list_elem_of_here|]. split; [done|].
      exists [], l. split; [done|constructor].
    - destruct (List.find nonempty l) as [k|].
      + destruct IH as (Hin & Hk & l1 & l2 & -> & Hl1).
        split; [by apply list_elem_of_further|]. split; [done|].
        exists (x :: l1), l2. split; [done|]. by constructor.
      + by constructor. }
  specialize (Hfind (seq 0 (Z.to_nat n))).
  destruct (List.find nonempty _) as [k|].
  - destruct Hfind as (Hin & Hk & l1 & l2 & Hl & Hl1).
    apply elem_of_seq in Hin. split; [lia|]. split.
    + subst nonempty. cbn beta in Hk.
      destruct (qs !! k) as [[|i rest]|]; [done| |done]. by eauto.
    + intros j i rest Hj Hq.
      assert (l1 = seq 0 k) as ->.
      { assert (length l1 = k) as Hlen.
        { assert ((l1 ++ k :: l2) !! length l1 = Some k) as H
            by (by rewrite list_lookup_middle).
          rewrite <- Hl in H. apply lookup_seq in H. lia. }
        apply list_eq. intros m.
        destruct (decide (m < k)%nat) as [Hm|Hm].
        - assert (seq 0 (Z.to_nat n) !! m = (l1 ++ k :: l2) !! m) as H
            by (by rewrite Hl).
          rewrite lookup_app_l in H by lia.
          rewrite <- H. rewrite !lookup_seq_lt by lia. done.
        - rewrite lookup_ge_None_2 by lia.
          by rewrite lookup_ge_None_2 by (rewrite length_seq; lia). }
      rewrite Forall_forall in Hl1.
      assert (nonempty j = false) as Hne
        by (apply Hl1, elem_of_seq; lia).
      subst nonempty. cbn beta in Hne. by rewrite Hq in Hne.
  - intros j i rest Hj Hq. rewrite Forall_forall in Hfind.
    assert (nonempty j = false) as Hne
      by (apply Hfind, elem_of_seq; lia).
    subst nonempty. cbn beta in Hne. by rewrite Hq in Hne.
Qed.

(** * The ready queue of the Round Robin scheduler *)

Lemma ready_at_fmap (g : Process → Process) (ps : list Process) (j : nat) :
  (∀ p, state p = READY → state (g p) = READY) →
  ready_at ps j → ready_at (g <$> ps) j.
Proof.
  intros Hg (p & Hp & Hs). exists (g p).
  rewrite list_lookup_fmap, Hp. split; [done|by apply Hg].
Qed.

Lemma ready_at_alter (g : Process → Process) (i : nat) (ps : list Process)
    (j : nat) :
  i ≠ j ∨ (∀ p, state p = READY → state (g p) = READY) →
  ready_at ps j → ready_at (alter g i ps) j.
Proof.
  intros Hg (p & Hp & Hs). destruct (decide (i = j)) as [->|Hne].
  - destruct Hg as [?|Hg]; [done|]. exists (g p).
    rewrite list_lookup_alter_eq, Hp. split; [done|by apply Hg].
  - exists p. by rewrite list_lookup_alter_ne.
Qed.

Lemma ready_at_update_at (ptr : ProcessPtr) (g : Process → Process)
    (ps : list Process) (j : nat) :
  ptr ≠ Some j ∨ (∀ p, state p = READY → state (g p) = READY) →
  ready_at ps j → ready_at (update_at ptr g ps) j.
Proof.
  destruct ptr as [i|]; [|done]. intros H. apply ready_at_alter.
  destruct H as [H|H]; [left; congruence|by right].
Qed.

Lemma ready_at_admit (b : Scheduler) (j : nat) :
  ready_at (processes b) j →
  ready_at (processes (admitArrivingProcesses b).2) j.
Proof.
  unfold admitArrivingProcesses. cbn [snd processes set_processes].
  apply ready_at_fmap. intros p Hp. by destruct (arrives _ _).
Qed.

Lemma ready_at_contextSwitch (from : ProcessPtr) (i : nat) (b : Scheduler)
    (j : nat) :
  i ≠ j → ready_at (processes b) j →
  ready_at (processes (contextSwitch from (Some i) b)) j.
Proof.
  intros Hne H. rewrite contextSwitch_processes.
  apply ready_at_update_at; [left; congruence|].
  apply ready_at_update_at; [|exact H]. right.
  intros p Hp. unfold demote_if_running, state_is.
  by rewrite bool_decide_eq_false_2 by (rewrite Hp; done).
Qed.

Lemma ready_at_slice (i : nat) (x : Process) (e : Z) (ps : list Process)
    (j : nat) :
  i ≠ j → ready_at ps j →
  ready_at (chargeWaiting (Some i) e (<[i:=x]> ps)) j.
Proof.
  intros Hne (p & Hp & Hs). unfold chargeWaiting.
  eexists. rewrite list_lookup_imap, list_lookup_insert_ne, Hp by done.
  split; [reflexivity|]. by destruct (_ && _).
Qed.

Lemma inQueue_false (i : nat) (q : list nat) : inQueue i q = false → i ∉ q.
Proof.
  unfold inQueue. intros H Hin.
  assert (existsb (Nat.eqb i) q = true) as Ht; [|congruence].
  apply existsb_exists. exists i.
  split; [by apply list_elem_of_In|apply Nat.eqb_refl].
Qed.

Lemma rr_enqueueReady_queue (skip : ProcessPtr) (now : Z)
    (ps : list Process) (q : list nat) :
  NoDup q → Forall (ready_at ps) q →
  NoDup (RoundRobin.enqueueReady skip now ps q).2
  ∧ Forall (ready_at (RoundRobin.enqueueReady skip now ps q).1)
           (RoundRobin.enqueueReady skip now ps q).2
  ∧ (∀ j, ready_at ps j →
          ready_at (RoundRobin.enqueueReady skip now ps q).1 j)
  ∧ (∀ i, skip = Some i → i ∉ q →
          i ∉ (RoundRobin.enqueueReady skip now ps q).2).
Proof.
  unfold RoundRobin.enqueueReady.
  generalize (seq 0 (length ps)) as idx. intros idx. revert ps q.
  induction idx as [|i idx IH]; intros ps q Hnd Hq; cbn [fold_left];
    [done|].
  set (acc := RoundRobin.enqueueOne skip now (ps, q) i).
  assert (NoDup acc.2 ∧ Forall (ready_at acc.1) acc.2
          ∧ (∀ j, ready_at ps j → ready_at acc.1 j)
          ∧ (∀ k, skip = Some k → k ∉ q → k ∉ acc.2))
    as (A1 & A2 & A3 & A4).
  { subst acc. unfold RoundRobin.enqueueOne. cbn [fst snd].
    destruct (ps !! i) as [p|] eqn:Hp; [|done].
    destruct (_ && _) eqn:E; [|done].
    destruct (inQueue i q) eqn:Hin; [done|]. cbn [fst snd].
    apply inQueue_false in Hin.
    apply andb_true_iff in E as [E _]. apply andb_true_iff in E as [E1 E2].
    apply bool_decide_eq_true in E1. apply negb_true_iff in E2.
    apply bool_decide_eq_false in E2.
    assert (∀ j, ready_at ps j →
                 ready_at (alter (setLastScheduledTime now) i ps) j)
      as Hstep.
    { intros j. apply ready_at_alter. by right. }
    split.
    { apply NoDup_app. split; [done|]. split; [|apply NoDup_singleton].
      intros j Hj ->%list_elem_of_singleton. done. }
    split.
    { apply Forall_app. split.
      - eapply Forall_impl; [exact Hq|]. exact Hstep.
      - apply Forall_singleton, Hstep. by exists p. }
    split; [exact Hstep|].
    intros k Hk Hkq [?| ->%list_elem_of_singleton]%elem_of_app; [done|].
    congruence. }
  destruct acc as [ps1 q1]. cbn [fst snd] in *.
  destruct (IH ps1 q1 A1 A2) as (H1 & H2 & H3 & H4).
  split; [exact H1|]. split; [exact H2|].
  split; [intros j Hj; by apply H3, A3|].
  intros k Hk Hkq. apply H4; [exact Hk|]. by apply A4.
Qed.

Lemma rr_body_queue (s : RoundRobin.RoundRobinScheduler) :
  rr_queue_ok s → result_safe rr_queue_ok (RoundRobin.body s).
Proof.
  intros [Hnd Hq]. unfold RoundRobin.body.
  assert (Forall (ready_at (processes (admitArrivingProcesses
                                         (RoundRobin.base s)).2))
                 (RoundRobin.readyQueue s)) as Hq1.
  { eapply Forall_impl; [exact Hq|]. intros j. apply ready_at_admit. }
  set (b1 := (admitArrivingProcesses (RoundRobin.base s)).2) in *.
  clearbody b1. clear Hq.
  destruct (rr_enqueueReady_queue None (currentTime b1) (processes b1)
              (RoundRobin.readyQueue s) Hnd Hq1) as (Hnd2 & Hq2 & _ & _).
  destruct (RoundRobin.enqueueReady _ _ _ _) as [ps2 [|i q3]];
    cbn [fst snd] in Hnd2, Hq2.
  - case_bool_decide; cbn [result_safe]; split; cbn [RoundRobin.readyQueue];
      constructor.
  - unfold RoundRobin.dispatch.
    apply NoDup_cons in Hnd2 as [Hi3 Hnd3].
    apply Forall_cons in Hq2 as [(p0 & Hp0 & _) Hq3].
    assert (Forall (λ j, i ≠ j) q3) as Hne.
    { apply Forall_forall. intros j Hj ->. done. }
    destruct (contextSwitch_lookup_to (currentProcess (set_processes ps2 b1))
                i (set_processes ps2 b1) p0 Hp0) as (p & Hp & _).
    assert (Forall (ready_at (processes
                      (contextSwitch (currentProcess (set_processes ps2 b1))
                         (Some i) (set_processes ps2 b1)))) q3) as Hq4.
    { apply Forall_forall. intros j Hj.
      rewrite Forall_forall in Hq3, Hne.
      apply (ready_at_contextSwitch _ _ (set_processes ps2 b1));
        [by apply Hne|by apply Hq3]. }
    set (b3 := contextSwitch _ _ _) in *. clearbody b3.
    clear Hq3 Hp0 Hq1. rewrite Hp.
    assert (i < length (processes b3))%nat as Hlt
      by (by eapply lookup_lt_Some).
    destruct (execute (RoundRobin.timeQuantum s) p) as [e p1].
    set (ps1 := chargeWaiting (Some i) e (<[i:=p1]> (processes b3))).
    assert (Forall (ready_at ps1) q3) as Hq5.
    { apply Forall_forall. intros j Hj.
      rewrite Forall_forall in Hq4, Hne.
      apply ready_at_slice; [by apply Hne|by apply Hq4]. }
    assert (is_Some (ps1 !! i)) as [x Hx].
    { apply lookup_lt_is_Some. subst ps1. unfold chargeWaiting.
      by rewrite length_imap, length_insert. }
    set (now := currentTime b3 + e).
    destruct (isComplete p1).
    + assert (rr_queue_ok
                (RoundRobin.mk
                   (set_currentProcess None
                      (set_currentTime now
                         (set_processes (alter (finish now) i ps1) b3)))
                   (RoundRobin.timeQuantum s) q3
                   (push_slots e (name p1) (RoundRobin.ganttChart s))))
        as Hfinal.
      { split; cbn [RoundRobin.readyQueue RoundRobin.base]; expose;
          [exact Hnd3|].
        apply Forall_forall. intros j Hj.
        rewrite Forall_forall in Hq5, Hne.
        apply ready_at_alter; [left; by apply Hne|by apply Hq5]. }
      destruct (allTerminated _); exact Hfinal.
    + set (ps3 := alter (setState READY) i ps1).
      assert (Forall (ready_at ps3) q3) as Hq6.
      { apply Forall_forall. intros j Hj.
        rewrite Forall_forall in Hq5, Hne.
        apply ready_at_alter; [left; by apply Hne|by apply Hq5]. }
      assert (ready_at ps3 i) as Hi6.
      { exists (setState READY x). subst ps3.
        by rewrite list_lookup_alter_eq, Hx. }
      set (b4 := set_currentTime now (set_processes ps3 b3)).
      assert (Forall (ready_at (processes (admitArrivingProcesses b4).2)) q3)
        as Hq7.
      { eapply Forall_impl; [exact Hq6|]. intros j.
        apply (ready_at_admit b4). }
      pose proof (ready_at_admit b4 i Hi6) as Hi7.
      destruct (rr_enqueueReady_queue (Some i) now
                  (processes (admitArrivingProcesses b4).2) q3 Hnd3 Hq7)
        as (Hnd8 & Hq8 & Hkeep8 & Hskip8).
      specialize (Hkeep8 i Hi7). specialize (Hskip8 i eq_refl Hi3).
      destruct (RoundRobin.enqueueReady _ _ _ _) as [ps4 q4].
      cbn [fst snd] in Hnd8, Hq8, Hkeep8, Hskip8.
      assert (rr_queue_ok
                (RoundRobin.mk
                   (set_currentProcess None
                      (set_currentTime now
                         (set_processes
                            (alter (setLastScheduledTime now) i ps4) b3)))
                   (RoundRobin.timeQuantum s) (q4 ++ [i])
                   (push_slots e (name p1) (RoundRobin.ganttChart s))))
        as Hfinal.
      { split; cbn [RoundRobin.readyQueue RoundRobin.base]; expose.
        - apply NoDup_app. split; [done|]. split; [|apply NoDup_singleton].
          intros j Hj ->%list_elem_of_singleton. done.
        - assert (∀ j, ready_at ps4 j →
                       ready_at (alter (setLastScheduledTime now) i ps4) j)
            as Hlast by (intros j; apply ready_at_alter; by right).
          apply Forall_app. split.
          + eapply Forall_impl; [exact Hq8|]. exact Hlast.
          + by apply Forall_singleton, Hlast. }
      destruct (allTerminated _); exact Hfinal.
Qed.

(** The ready queue of a Round Robin run that starts with an empty queue:
    whatever the quantum, the overhead and the processes, the run never
    indexes outside the process vector, and after any number of passes, and
    in whatever [schedule()] returns, no process is queued twice and every
    queued process is [READY]. *)
Theorem rr_queue_discipline (s : RoundRobin.RoundRobinScheduler) :
  RoundRobin.readyQueue s = [] →
  (∀ n, result_safe rr_queue_ok
          (after_passes RoundRobin.body n (RoundRobin.start s)))
  ∧ (∀ fuel r, RoundRobin.schedule fuel s = Some r →
       result_safe rr_queue_ok r).
Proof.
  intros Hqueue.
  assert (rr_queue_ok (RoundRobin.start s)) as Hstart.
  { unfold rr_queue_ok, RoundRobin.start. cbn [RoundRobin.readyQueue].
    rewrite Hqueue. split; constructor. }
  split.
  - intros n. by apply after_passes_safe; [apply rr_body_queue|].
  - intros fuel r Hr.
    exact (run_loop_safe _ _ rr_body_queue fuel _ r Hstart Hr).
Qed.

Lemma rr_queue_discipline_witness :
  result_safe rr_queue_ok
    (after_passes RoundRobin.body 4 (RoundRobin.start rr_arrivals)).
Proof.
  apply (rr_queue_discipline rr_arrivals). reflexivity.
Defined.

(** * The Gantt chart of the Round Robin scheduler *)

Lemma slots_of_app (label : string) (c1 c2 : list string) :
  slots_of label (c1 ++ c2) = (slots_of label c1 + slots_of label c2)%nat.
Proof. unfold slots_of. by rewrite List.filter_app, length_app. Qed.

Lemma slots_of_replicate (label other : string) (n : nat) :
  slots_of label (replicate n other)
  = if String.eqb label other then n else 0%nat.
Proof.
  unfold slots_of. induction n as [|n IH]; cbn [replicate List.filter].
  - by destruct (String.eqb _ _).
  - destruct (String.eqb label other); cbn [length]; [by rewrite IH|done].
Qed.

Lemma name_stable : stable_view name.
Proof. repeat split. Qed.

Ltac keep_charted :=
  unfold charted, finish, mark_running, demote_if_running; intros;
  repeat match goal with
         | |- context [if ?c then _ else _] => destruct c
         end;
  assumption.

Lemma charted_slice (chart : list string) (ps : list Process) (i : nat)
    (p : Process) (q : Z) :
  NoDup (name <$> ps) → Forall (charted chart) ps → ps !! i = Some p →
  0 <= q →
  Forall (charted (push_slots (execute q p).1 (name (execute q p).2) chart))
         (<[i:=(execute q p).2]> ps).
Proof.
  intros Hnd Hps Hp Hq.
  assert (i < length ps)%nat as Hlt by (by eapply lookup_lt_Some).
  pose proof (Forall_lookup_1 _ _ _ _ Hps Hp) as [Hrem Hslots].
  apply Forall_lookup. intros j x Hx. unfold push_slots.
  destruct (decide (i = j)) as [<-|Hne].
  - rewrite list_lookup_insert_eq in Hx by done. injection Hx as <-.
    unfold charted, execute, set_remainingTime.
    cbn [fst snd remainingTime burstTime name].
    rewrite slots_of_app, slots_of_replicate, String.eqb_refl, Hslots.
    split; lia.
  - rewrite list_lookup_insert_ne in Hx by done.
    pose proof (Forall_lookup_1 _ _ _ _ Hps Hx) as [Hrem' Hslots'].
    unfold charted. split; [exact Hrem'|].
    unfold execute, set_remainingTime. cbn [fst snd name].
    rewrite slots_of_app, slots_of_replicate.
    destruct (String.eqb _ _) eqn:E; [|lia].
    apply String.eqb_eq in E. exfalso. apply Hne.
    eapply (NoDup_lookup (name <$> ps)); [exact Hnd| |].
    + by rewrite list_lookup_fmap, Hp.
    + rewrite list_lookup_fmap, Hx. cbn. by rewrite E.
Qed.

Lemma rr_body_charted (names : list string)
    (s : RoundRobin.RoundRobinScheduler) :
  NoDup names → "IDLE" ∉ names →
  rr_charted names s → result_holds (rr_charted names) (RoundRobin.body s).
Proof.
  intros Hnd Hidle (Hq & Hnames & Hps). unfold RoundRobin.body.
  pose proof (stable_admit name name_stable (RoundRobin.base s)) as N1.
  set (b1 := (admitArrivingProcesses (RoundRobin.base s)).2) in *.
  assert (Forall (charted (RoundRobin.ganttChart s)) (processes b1)) as H1.
  { unfold b1, admitArrivingProcesses. expose.
    apply Forall_fmap_keep; [keep_charted|exact Hps]. }
  pose proof (stable_rr_enqueueReady name name_stable None (currentTime b1)
                (processes b1) (RoundRobin.readyQueue s)) as N2.
  pose proof (rr_enqueueReady_keep (charted (RoundRobin.ganttChart s)) None
                (currentTime b1) (processes b1) (RoundRobin.readyQueue s))
    as H2.
  destruct (RoundRobin.enqueueReady _ _ _ _) as [ps2 [|i q3]];
    cbn [fst] in H2, N2.
  - assert (Forall (charted (RoundRobin.ganttChart s)) ps2) as H3
      by (apply H2; [keep_charted|done]).
    destruct (bool_decide _); cbn [result_holds]; unfold rr_charted;
      cbn [RoundRobin.timeQuantum RoundRobin.ganttChart]; expose.
    + split; [exact Hq|]. split.
      { rewrite stable_updateWaitingTimes by apply name_stable. expose.
        congruence. }
      unfold updateWaitingTimes. expose.
      apply Forall_fmap_keep; [keep_charted|].
      apply Forall_lookup. intros j x Hx.
      pose proof (Forall_lookup_1 _ _ _ _ H3 Hx) as [Hrem Hslots].
      split; [exact Hrem|].
      rewrite slots_of_app, Hslots.
      assert (String.eqb (name x) "IDLE" = false) as E.
      { apply String.eqb_neq. intros E. apply Hidle.
        rewrite <- Hnames, <- N1, <- N2, <- E.
        apply list_elem_of_fmap. exists x.
        split; [done|]. by eapply list_elem_of_lookup_2. }
      unfold slots_of. cbn [List.filter]. rewrite E. cbn [length]. lia.
    + split; [exact Hq|]. split; [congruence|exact H3].
  - assert (Forall (charted (RoundRobin.ganttChart s)) ps2) as H3
      by (apply H2; [keep_charted|done]).
    unfold RoundRobin.dispatch.
    pose proof (stable_contextSwitch name name_stable
                  (currentProcess (set_processes ps2 b1)) (Some i)
                  (set_processes ps2 b1)) as N3.
    set (b3 := contextSwitch _ _ _) in *. expose.
    assert (Forall (charted (RoundRobin.ganttChart s)) (processes b3)) as H4.
    { unfold b3. rewrite contextSwitch_processes.
      apply Forall_update_at_keep; [keep_charted|].
      apply Forall_update_at_keep; [keep_charted|]. exact H3. }
    assert (name <$> processes b3 = names) as N4 by congruence.
    destruct (processes b3 !! i) as [p|] eqn:Hp; [|exact I].
    pose proof (charted_slice (RoundRobin.ganttChart s) (processes b3) i p
                  (RoundRobin.timeQuantum s)) as H5.
    rewrite N4 in H5. specialize (H5 Hnd H4 Hp Hq).
    pose proof (stable_slice name name_stable i p (RoundRobin.timeQuantum s)
                  (execute (RoundRobin.timeQuantum s) p).1 _ Hp) as N5.
    destruct (execute (RoundRobin.timeQuantum s) p) as [e p1].
    cbn [fst snd] in H5, N5.
    set (chart := push_slots e (name p1) (RoundRobin.ganttChart s)) in *.
    set (now := currentTime b3 + e).
    assert (Forall (charted chart)
              (chargeWaiting (Some i) e (<[i:=p1]> (processes b3)))) as H6
      by (apply Forall_imap_keep; [keep_charted|exact H5]).
    set (ps1 := chargeWaiting (Some i) e (<[i:=p1]> (processes b3))) in *.
    destruct (isComplete p1).
    + assert (rr_charted names
                (RoundRobin.mk
                   (set_currentProcess None
                      (set_currentTime now
                         (set_processes (alter (finish now) i ps1) b3)))
                   (RoundRobin.timeQuantum s) q3 chart)) as Hfinal.
      { unfold rr_charted.
        cbn [RoundRobin.timeQuantum RoundRobin.ganttChart]. expose.
        split; [exact Hq|]. split.
        - rewrite fmap_alter_keep by apply (stable_finish name name_stable).
          congruence.
        - apply Forall_alter_keep; [keep_charted|exact H6]. }
      destruct (allTerminated _); exact Hfinal.
    + match goal with
      | |- context [RoundRobin.enqueueReady ?a ?b ?c ?d] =>
          pose proof (rr_enqueueReady_keep (charted chart) a b c d) as H7;
          pose proof (stable_rr_enqueueReady name name_stable a b c d) as N7;
          destruct (RoundRobin.enqueueReady a b c d) as [ps4 q4]
      end.
      cbn [fst] in H7, N7.
      rewrite stable_admit in N7 by apply name_stable. expose.
      rewrite fmap_alter_keep in N7 by apply name_stable.
      assert (Forall (charted chart) ps4) as H8.
      { apply H7; [keep_charted|].
        unfold admitArrivingProcesses. expose.
        apply Forall_fmap_keep; [keep_charted|].
        apply Forall_alter_keep; [keep_charted|exact H6]. }
      assert (rr_charted names
                (RoundRobin.mk
                   (set_currentProcess None
                      (set_currentTime now
                         (set_processes
                            (alter (setLastScheduledTime now) i ps4) b3)))
                   (RoundRobin.timeQuantum s) (q4 ++ [i]) chart)) as Hfinal.
      { unfold rr_charted.
        cbn [RoundRobin.timeQuantum RoundRobin.ganttChart]. expose.
        split; [exact Hq|]. split.
        - rewrite fmap_alter_keep by apply name_stable. congruence.
        - apply Forall_alter_keep; [keep_charted|exact H8]. }
      destruct (allTerminated _); exact Hfinal.
Qed.

(** The Gantt chart of a Round Robin run shows the time executed: with a
    quantum that is not negative, over processes as constructed or reset
    whose names are distinct and none of which is called IDLE, after any
    number of passes of the loop, and in whatever [schedule()] returns, the
    number of slots that carry the name of a process is
    [burstTime - remainingTime] of that process. *)
Theorem rr_gantt_chart_counts (s : RoundRobin.RoundRobinScheduler) :
  0 <= RoundRobin.timeQuantum s →
  Forall fresh (processes (RoundRobin.base s)) →
  NoDup (name <$> processes (RoundRobin.base s)) →
  "IDLE" ∉ name <$> processes (RoundRobin.base s) →
  (∀ n,
     result_holds
       (λ s', Forall (charted (RoundRobin.ganttChart s'))
                     (processes (RoundRobin.base s')))
       (after_passes RoundRobin.body n (RoundRobin.start s)))
  ∧ (∀ fuel r, RoundRobin.schedule fuel s = Some r →
       result_holds
         (λ s', Forall (charted (RoundRobin.ganttChart s'))
                       (processes (RoundRobin.base s'))) r).
Proof.
  intros Hq Hps Hnd Hidle.
  set (names := name <$> processes (RoundRobin.base s)) in *.
  assert (rr_charted names (RoundRobin.start s)) as Hstart.
  { unfold rr_charted, RoundRobin.start.
    cbn [RoundRobin.timeQuantum RoundRobin.ganttChart]. expose.
    split; [exact Hq|]. split; [done|].
    eapply Forall_impl; [exact Hps|].
    intros p (_ & Hrem & _ & _ & Hb). unfold charted. rewrite Hrem.
    split; [lia|]. rewrite Z.sub_diag. reflexivity. }
  split.
  - intros n. eapply result_holds_impl;
      [|exact (after_passes_invariant _ _
                 (λ s1, rr_body_charted names s1 Hnd Hidle) n _ Hstart)].
    intros s' H. apply H.
  - intros fuel r Hr. eapply result_holds_impl;
      [|exact (run_loop_invariant _ _
                 (λ s1, rr_body_charted names s1 Hnd Hidle) fuel _ r
                 Hstart Hr)].
    intros s' H. apply H.
Qed.

Lemma rr_gantt_chart_counts_witness :
  result_holds
    (λ s', Forall (charted (RoundRobin.ganttChart s'))
                  (processes (RoundRobin.base s')))
    (after_passes RoundRobin.body 4 (RoundRobin.start rr_arrivals)).
Proof.
  apply (rr_gantt_chart_counts rr_arrivals).
  - vm_compute. discriminate.
  - repeat constructor; vm_compute; discriminate.
  - change (NoDup ["P1"; "P2"; "P3"]).
    repeat constructor; rewrite ?elem_of_cons, ?elem_of_nil;
      intuition discriminate.
  - change ("IDLE" ∉ ["P1"; "P2"; "P3"]).
    rewrite !elem_of_cons, elem_of_nil. intuition discriminate.
Defined.

(** * Instances *)


Lemma updateWaitingTimes_adds_witness :
  let s := addProcess (setState READY (Process_new 1 "P1" 0 2 0))
             (Scheduler_new 0) in
  updateWaitingTimes 4 (updateWaitingTimes 3 s) = updateWaitingTimes 7 s
  ∧ processes (updateWaitingTimes 3 s) !! 0%nat
    = Some (addWaitingTime 3 (setState READY (Process_new 1 "P1" 0 2 0))).
Proof.
  intros s. destruct (updateWaitingTimes_adds 3 4 s) as (H1 & _ & H3).
  split; [exact H1|]. exact (H3 0%nat _ eq_refl).
Defined.

Lemma top_of_ready_is_best_witness :
  let ps := [setState READY (Process_new 1 "P1" 0 5 3);
             setState READY (Process_new 2 "P2" 1 3 1);
             Process_new 3 "P3" 2 2 0] in
  ∃ r pr, Priority.top ps (Priority.readyPointers ps) = Some r
    ∧ ps !! r = Some pr ∧ state pr = READY
    ∧ ¬ precedes (setState READY (Process_new 1 "P1" 0 5 3)) pr.
Proof.
  intros ps. pose proof (top_of_ready_is_best ps) as H.
  destruct (Priority.top ps (Priority.readyPointers ps)) as [r|] eqn:E.
  - destruct H as (pr & Hr & Hs & Hbest). exists r, pr.
    split; [reflexivity|]. split; [exact Hr|]. split; [exact Hs|].
    apply (Hbest 0%nat); reflexivity.
  - exfalso. apply Forall_cons in H as [H _]. by apply H.
Defined.

Lemma schedule_without_processes_witness :
  RoundRobin.schedule 1 (RoundRobin.new 4 0)
  = Some (Exit (RoundRobin.mk
                  (set_currentTime INT_MAX
                     (RoundRobin.base (RoundRobin.new 4 0))) 4 [] []))
  ∧ Priority.schedule 1 (Priority.new true true 5 0)
    = Some (Exit (Priority.mk
                    (set_currentTime INT_MAX
                       (Priority.base (Priority.new true true 5 0)))
                    true true 5 [] [] None)).
Proof.
  destruct schedule_without_processes as (Hrr & Hpr & _).
  split.
  - apply (Hrr (RoundRobin.new 4 0) 0%nat); reflexivity.
  - apply (Hpr (Priority.new true true 5 0) 0%nat); [reflexivity|].
    cbn. discriminate.
Defined.

Lemma feedback_applyAging_spec_witness :
  let ps := [setState READY (Process_new 1 "P1" 0 5 0);
             Process_new 2 "P2" 1 3 0] in
  let levels : gmap Z Z := <[1 := 2]> (<[2 := 1]> ∅) in
  Feedback.read (Feedback.applyAging true 1 ps levels ∅).1 1 <= 2
  ∧ Feedback.read (Feedback.applyAging true 1 ps levels ∅).1 2 = 1.
Proof.
  intros ps levels.
  destruct (feedback_applyAging_spec true 1 ps levels ∅) as (_ & H2 & H3).
  split.
  - destruct (H2 1) as [H _]. exact H.
  - destruct (H3 2) as [H _]; [|exact H].
    repeat constructor; cbn; intros; discriminate.
Defined.

Lemma feedback_getHighestPriorityQueue_spec_witness :
  ∃ k, Feedback.getHighestPriorityQueue 3 [[]; [4%nat]; [5%nat]] = Some k
    ∧ Z.of_nat k < 3
    ∧ [[]; [4%nat]; [5%nat]] !! 0%nat ≠ Some [7%nat].
Proof.
  pose proof (feedback_getHighestPriorityQueue_spec 3
                [[]; [4%nat]; [5%nat]]) as H.
  destruct (Feedback.getHighestPriorityQueue 3 [[]; [4%nat]; [5%nat]])
    as [k|] eqn:E.
  - destruct H as (H1 & (i & rest & H2) & H3). exists k.
    split; [reflexivity|]. split; [exact H1|].
    destruct k as [|k]; [cbn in H2; discriminate|].
    apply (H3 0%nat 7%nat []). lia.
  - exfalso. apply (H 1%nat 4%nat []); [lia|reflexivity].
Defined.

Lemma earliestArrival_spec_witness :
  let ps := [Process_new 1 "P1" 3 2 0; Process_new 2 "P2" 1 1 0] in
  earliestArrival ps <= 3
  ∧ ∃ p, p ∈ ps ∧ arrivalTime p = earliestArrival ps.
Proof.
  intros ps. destruct (earliestArrival_spec ps) as (_ & H2 & H3 & H4).
  split.
  - apply Forall_cons in H3 as [H _]. exact H.
  - destruct H4 as [H4|H4]; [|exact H4].
    exfalso. apply Forall_cons in H3 as [H _]. rewrite H4 in H.
    cbn in H. unfold INT_MAX in H. lia.
Defined.
